(** * merge-nrostats: prefix canonicalisation and merge engine

    A shallow embedding of [merge-nrostats.py]: the radix-tree insertion
    [add_prefix_to_radix], the IPv4 block decomposition
    [add_v4_block_to_radix], the line parser [parse_nro_stats], the part
    of [main] that ingests the registry files and writes the rows, the five
    fetchers [fetch_afrinic_nrostats] to [fetch_ripencc_nrostats] and
    [open_nro_stats_file].

    Python objects that are mutated in place (the two radix trees) are
    threaded through the functions as explicit state; a function returns the
    state it leaves behind together with what it printed and how it ended
    (normally, by an exception, or not within the given fuel). *)

From Stdlib Require Import ZArith List String Ascii Bool Lia Permutation Sorted.
From Stdlib Require Import DecimalString.
From Stdlib.Strings Require Byte.
Import ListNotations.
Open Scope Z_scope.


(** ** Python values and control outcomes *)

(** The entries of the [prefix_info] tuple are strings and integers. *)
Inductive pyval : Type :=
| PyStr (s : string)
| PyInt (n : Z).

(** A Python tuple of such values; [t + (x,)] is [t ++ [x]]. *)
Definition prefix_info : Type := list pyval.

(** The exceptions the embedded code can meet.  [AddressValueError] is what
    [ipaddress] raises when an address leaves the address space,
    [UnicodeDecodeError] what [bytes.decode] raises. *)
Inductive exn : Type :=
| ValueError
| AddressValueError
| KeyError
| IndexError
| UnicodeDecodeError.

(** How a call ends: it returns, it raises, or the loop bound of the model
    was too small to see it end. *)
Inductive outcome : Type :=
| Returned
| Raised (e : exn)
| OutOfFuel.

(** ** Addresses and prefixes *)

(** What [ipaddress.ip_address] returns: an address of either family, held
    as its integer value. *)
Inductive ip_addr : Type :=
| IPv4Address (n : Z)
| IPv6Address (n : Z).

(** The text ['{}/{}'.format(prefix_addr, prefix_size)], kept as the pair it
    is formatted from. *)
Definition ip_prefix : Type := (ip_addr * Z)%type.

Definition max_prefixlen (a : ip_addr) : Z :=
  match a with
  | IPv4Address _ => 32
  | IPv6Address _ => 128
  end.

Definition addr_int (a : ip_addr) : Z :=
  match a with
  | IPv4Address n => n
  | IPv6Address n => n
  end.

(** [prefix_addr += k]: [ipaddress] builds a new address from the sum and
    raises [AddressValueError] (here [None]) when the sum is not an address
    of the family. *)
Definition ip_addr_add (a : ip_addr) (k : Z) : option ip_addr :=
  match a with
  | IPv4Address n =>
      if (0 <=? n + k) && (n + k <? 2 ^ 32) then Some (IPv4Address (n + k))
      else None
  | IPv6Address n =>
      if (0 <=? n + k) && (n + k <? 2 ^ 128) then Some (IPv6Address (n + k))
      else None
  end.

(** Whether [ipaddress.IPv4Network('{}/{}'.format(a, prefix_size))] is built
    without a [ValueError]: the text must hold an IPv4 address, the prefix
    length must lie in 0..32 and no host bit may be set. *)
Definition IPv4Network_ok (a : ip_addr) (prefix_size : Z) : bool :=
  match a with
  | IPv4Address n =>
      (0 <=? prefix_size) && (prefix_size <=? 32)
      && (Z.land n (Z.ones (32 - prefix_size)) =? 0)
  | IPv6Address _ => false
  end.

(** ** The library functions the script calls *)

(** The Python built-ins and library calls whose result depends on text
    parsing or on floating point.  [None] stands for a [ValueError]. *)
Class PyLib : Type := {
  (** [int(s)] *)
  py_int : string -> option Z;
  (** [ipaddress.ip_address(s)] *)
  ip_address : string -> option ip_addr;
  (** [int(math.log(n, 2))], for [n > 0] *)
  int_log2 : Z -> Z
}.

(** ** The radix tree

    The radix tree is an object of the py-radix package, which the script
    imports and which is not part of the repository.  It is modelled after
    the PrefixTrie of the specification: a binary trie keyed by address bits,
    most significant bit first, in which a node exists if and only if its
    prefix was added, and which is iterated in pre-order, the 0-branch
    before the 1-branch. *)

(** Modelled from the spec: the key of a node of the trie, which py-radix
    computes inside the package.  It is the protocol bit (IPv4 before IPv6,
    which fixes the key width) followed by the first [prefix_length] bits of
    the network address. *)
Definition key : Type := list bool.

(** The [data] dictionary of a node; the script only uses its ['info'] key. *)
Record rnode_data : Type := { info : option (list prefix_info) }.

Definition empty_data : rnode_data := {| info := None |}.

(** Modelled from the spec: the trie of py-radix.  A node carries the [data]
    of an added prefix, or nothing when it only lies on the path to one. *)
Inductive Radix : Type :=
| Leaf
| Node (data : option rnode_data) (zero one : Radix).

(** Bit [i] (counted from the most significant one) of a [width]-bit
    integer. *)
Definition addr_bit (width : nat) (n : Z) (i : nat) : bool :=
  Z.testbit n (Z.of_nat (width - 1 - i)).

Definition prefix_bits (width : nat) (n : Z) (len : nat) : list bool :=
  map (addr_bit width n) (seq 0 len).

(** Modelled from the spec: how py-radix reads a prefix.  [None] stands for
    the [ValueError] it raises when the prefix length does not fit the
    address family. *)
Definition radix_key (p : ip_prefix) : option key :=
  let '(a, len) := p in
  if (0 <=? len) && (len <=? max_prefixlen a) then
    match a with
    | IPv4Address n => Some (false :: prefix_bits 32 n (Z.to_nat len))
    | IPv6Address n => Some (true :: prefix_bits 128 n (Z.to_nat len))
    end
  else None.

(** Modelled from the spec: [radix.search_exact] of py-radix, the data of
    the node at the key, if there is one. *)
Fixpoint search_exact (t : Radix) (k : key) : option rnode_data :=
  match t with
  | Leaf => None
  | Node d z o =>
      match k with
      | [] => d
      | b :: k' => search_exact (if b then o else z) k'
      end
  end.

(** Walk the path of [k], extending it where it ends early, and replace the
    data found at its end by [f] of it. *)
Fixpoint alter (f : option rnode_data -> rnode_data) (t : Radix) (k : key)
  : Radix :=
  match k with
  | [] =>
      match t with
      | Leaf => Node (Some (f None)) Leaf Leaf
      | Node d z o => Node (Some (f d)) z o
      end
  | b :: k' =>
      match t with
      | Leaf =>
          if b then Node None Leaf (alter f Leaf k')
          else Node None (alter f Leaf k') Leaf
      | Node d z o =>
          if b then Node d z (alter f o k') else Node d (alter f z k') o
      end
  end.

(** Modelled from the spec: [radix.add] of py-radix, which returns the node
    at the key and creates it, with an empty [data], when it is not
    there. *)
Definition radix_add (t : Radix) (k : key) : Radix :=
  alter (fun d => match d with Some x => x | None => empty_data end) t k.

(** The effect on the tree of mutating the [data] of the node at [k]: the
    node object is shared with the tree, so what is stored in its dictionary
    is stored in the tree. *)
Definition set_data (t : Radix) (k : key) (d : rnode_data) : Radix :=
  alter (fun _ => d) t k.

Definition at_bit (b : bool) (e : key * rnode_data) : key * rnode_data :=
  (b :: fst e, snd e).

(** Modelled from the spec: the iteration [for rnode in radix] of py-radix,
    the added nodes in pre-order, each with the key that stands for its
    [prefix]. *)
Fixpoint radix_iter (t : Radix) : list (key * rnode_data) :=
  match t with
  | Leaf => []
  | Node d z o =>
      match d with Some x => [([], x)] | None => [] end
      ++ map (at_bit false) (radix_iter z)
      ++ map (at_bit true) (radix_iter o)
  end.

(** ** Standard output *)

(** The lines the embedded functions print. *)
Inductive message : Type :=
| Warning_already_in_radix (p : ip_prefix).

(** ** add_prefix_to_radix *)

(** The state a call leaves, what it printed, and how it ended. *)
Definition effect (S : Type) : Type := (S * list message * outcome)%type.

Definition add_prefix_to_radix (radix : Radix) (prefix : ip_prefix)
    (pinfo : prefix_info) : effect Radix :=
  match radix_key prefix with
  | None => (radix, [], Raised ValueError)
  | Some k =>
      let '(radix1, rnode, out) :=
        match search_exact radix k with
        | None => (radix_add radix k, empty_data, [])
        | Some d => (radix, d, [Warning_already_in_radix prefix])
        end in
      let info_arr := match info rnode with Some l => l | None => [] end in
      let info_arr := info_arr ++ [pinfo] in
      (set_data radix1 k {| info := Some info_arr |}, out, Returned)
  end.

(** ** The contents of a tree, for the proofs *)

(** The list under ['info'] of a node, empty when the node or the list is
    not there: [rnode.data.get('info', [])]. *)
Definition node_infos (d : option rnode_data) : list prefix_info :=
  match d with
  | Some x => match info x with Some l => l | None => [] end
  | None => []
  end.

(** What a returning call of [add_prefix_to_radix] does to the tree. *)
Definition attach (t : Radix) (op : key * prefix_info) : Radix :=
  alter (fun d => {| info := Some (node_infos d ++ [snd op]) |}) t (fst op).

Definition attach_all (t : Radix) (ops : list (key * prefix_info)) : Radix :=
  fold_left attach ops t.

(** Equality of keys. *)
Definition key_eqb (a b : key) : bool :=
  if list_eq_dec bool_dec a b then true else false.

(** Whether an entry or a row stands at the key. *)
Definition has_key {A : Type} (k : key) (e : key * A) : bool :=
  key_eqb (fst e) k.

(** The tuples a list of attachments puts at one key, in order. *)
Definition at_key (k : key) (ops : list (key * prefix_info))
  : list prefix_info :=
  map snd (filter (fun op => key_eqb (fst op) k) ops).

Definition under_bit (b : bool) (e : key * prefix_info) : key * prefix_info :=
  (b :: fst e, snd e).

(** Every attached entry with the key of its node, in iteration order. *)
Fixpoint entries (t : Radix) : list (key * prefix_info) :=
  match t with
  | Leaf => []
  | Node d z o =>
      map (pair []) (node_infos d)
      ++ map (under_bit false) (entries z)
      ++ map (under_bit true) (entries o)
  end.

(** ** add_v4_block_to_radix *)

Section Script.

Context {py : PyLib}.

(** The inner [while not prefix_found] loop: the first prefix length from
    [prefix_size] upwards at which [IPv4Network] accepts the address. *)
Fixpoint find_prefix_size (fuel : nat) (prefix_addr : ip_addr)
    (prefix_size : Z) : option Z :=
  match fuel with
  | O => None
  | S fuel' =>
      if IPv4Network_ok prefix_addr prefix_size then Some prefix_size
      else find_prefix_size fuel' prefix_addr (prefix_size + 1)
  end.

(** [int(math.pow(2, 32 - prefix_size))]: the exponent lies in 0..32 when
    this is reached, where the power is an exact float. *)
Definition used_addrcount_of (prefix_size : Z) : Z := 2 ^ (32 - prefix_size).

(** The outer [while addrcount > 0] loop. *)
Fixpoint add_v4_block_loop (fuel : nat) (v4radix : Radix)
    (prefix_addr : ip_addr) (addrcount : Z) (pinfo : prefix_info)
  : effect Radix :=
  match fuel with
  | O => (v4radix, [], OutOfFuel)
  | S fuel' =>
      if addrcount >? 0 then
        match find_prefix_size fuel' prefix_addr (32 - int_log2 addrcount) with
        | None => (v4radix, [], OutOfFuel)
        | Some prefix_size =>
            let used_addrcount := used_addrcount_of prefix_size in
            match add_prefix_to_radix v4radix (prefix_addr, prefix_size)
                    (pinfo ++ [PyInt used_addrcount]) with
            | (radix1, out1, Returned) =>
                match ip_addr_add prefix_addr used_addrcount with
                | None => (radix1, out1, Raised AddressValueError)
                | Some prefix_addr' =>
                    let '(radix2, out2, res) :=
                      add_v4_block_loop fuel' radix1 prefix_addr'
                        (addrcount - used_addrcount) pinfo in
                    (radix2, out1 ++ out2, res)
                end
            | stopped => stopped
            end
        end
      else (v4radix, [], Returned)
  end.

Definition add_v4_block_to_radix (fuel : nat) (v4radix : Radix)
    (prefix_addr : string) (addrcount : Z) (pinfo : prefix_info)
  : effect Radix :=
  match ip_address prefix_addr with
  | None => (v4radix, [], Raised ValueError)
  | Some a => add_v4_block_loop fuel v4radix a addrcount pinfo
  end.

(** *** The iterations of the outer loop, as a trace

    One [block_step] per iteration: the address and the remaining count the
    iteration starts from, and the prefix length it settles on.  The trace
    follows the loop of [add_v4_block_loop] without the radix tree. *)
Record block_step : Type := {
  step_addr : ip_addr;
  step_count : Z;
  step_size : Z
}.

Definition step_used (s : block_step) : Z := used_addrcount_of (step_size s).
Definition step_lo (s : block_step) : Z := addr_int (step_addr s).
Definition step_hi (s : block_step) : Z := step_lo s + step_used s.
Definition step_prefix (s : block_step) : ip_prefix :=
  (step_addr s, step_size s).

(** The argument pair of the call to [add_prefix_to_radix] in a step. *)
Definition step_call (pinfo : prefix_info) (s : block_step)
  : ip_prefix * prefix_info :=
  (step_prefix s, pinfo ++ [PyInt (step_used s)]).

Fixpoint v4_block_steps (fuel : nat) (prefix_addr : ip_addr) (addrcount : Z)
  : list block_step * outcome :=
  match fuel with
  | O => ([], OutOfFuel)
  | S fuel' =>
      if addrcount >? 0 then
        match find_prefix_size fuel' prefix_addr (32 - int_log2 addrcount) with
        | None => ([], OutOfFuel)
        | Some prefix_size =>
            let s := {| step_addr := prefix_addr; step_count := addrcount;
                        step_size := prefix_size |} in
            match ip_addr_add prefix_addr (used_addrcount_of prefix_size) with
            | None => ([s], Raised AddressValueError)
            | Some prefix_addr' =>
                let '(l, res) :=
                  v4_block_steps fuel' prefix_addr'
                    (addrcount - used_addrcount_of prefix_size) in
                (s :: l, res)
            end
        end
      else ([], Returned)
  end.

(** A run of calls to [add_prefix_to_radix], stopped by the first one that
    does not return. *)
Fixpoint add_prefixes (radix : Radix) (calls : list (ip_prefix * prefix_info))
  : effect Radix :=
  match calls with
  | [] => (radix, [], Returned)
  | (p, i) :: rest =>
      match add_prefix_to_radix radix p i with
      | (radix1, out1, Returned) =>
          let '(radix2, out2, res) := add_prefixes radix1 rest in
          (radix2, out1 ++ out2, res)
      | stopped => stopped
      end
  end.

(** ** parse_nro_stats *)

(** [s.strip(c)] for a one-character [c]. *)
Fixpoint lstrip (c : ascii) (s : list ascii) : list ascii :=
  match s with
  | a :: s' => if Ascii.eqb a c then lstrip c s' else s
  | [] => []
  end.

Definition strip (c : ascii) (s : string) : string :=
  string_of_list_ascii
    (rev (lstrip c (rev (lstrip c (list_ascii_of_string s))))).

(** [s.split(sep)] for a one-character [sep]. *)
Fixpoint split (sep : ascii) (s : string) : list string :=
  match s with
  | EmptyString => [EmptyString]
  | String a s' =>
      if Ascii.eqb a sep then EmptyString :: split sep s'
      else
        match split sep s' with
        | f :: fs => String a f :: fs
        | [] => [String a EmptyString]
        end
  end.

Definition CR : ascii := Ascii.ascii_of_nat 13.
Definition LF : ascii := Ascii.ascii_of_nat 10.

Definition line_fields (line : string) : list string :=
  split "|"%char (strip LF (strip CR line)).

(** [fields[i]], read only where the length test has passed. *)
Definition field (fields : list string) (i : nat) : string :=
  nth i fields EmptyString.

(** The test that guards [continue]. *)
Definition skipped (fields : list string) : bool :=
  (Nat.ltb (List.length fields) 7)
  || (negb (String.eqb (field fields 2) "ipv4")
      && negb (String.eqb (field fields 2) "ipv6")).

(** The two trees [main] builds. *)
Record tries : Type := { v4radix : Radix; v6radix : Radix }.

(** The tuple built for a line whose count field reads as [n]. *)
Definition line_info (fields : list string) (n : Z) : prefix_info :=
  [PyStr (field fields 0); PyStr (field fields 1); PyStr (field fields 5);
   PyStr (field fields 6); PyStr (field fields 3); PyInt n].

(** What is done with an accepted line.  In the IPv6 branch the prefix text
    is made of [fields[3]] and the prefix length; the radix tree reads the
    address text, here through [ip_address]. *)
Definition ingest_fields (fuel : nat) (st : tries) (fields : list string)
  : effect tries :=
  match py_int (field fields 4) with
  | None => (st, [], Raised ValueError)
  | Some n =>
      let pinfo := line_info fields n in
      let prefix_addr := field fields 3 in
      if String.eqb (field fields 2) "ipv4" then
        let '(r, out, res) :=
          add_v4_block_to_radix fuel (v4radix st) prefix_addr n pinfo in
        ({| v4radix := r; v6radix := v6radix st |}, out, res)
      else if String.eqb (field fields 2) "ipv6" then
        match ip_address prefix_addr with
        | None => (st, [], Raised ValueError)
        | Some a =>
            let '(r, out, res) :=
              add_prefix_to_radix (v6radix st) (a, n) pinfo in
            ({| v4radix := v4radix st; v6radix := r |}, out, res)
        end
      else (st, [], Returned)
  end.

(** The body of the [for line in fd] loop from its second statement on,
    where [line] is a string; the first statement, which decodes a line of
    bytes, is in [parse_file_line] below. *)
Definition parse_line (fuel : nat) (st : tries) (line : string)
  : effect tries :=
  let fields := line_fields line in
  if skipped fields then (st, [], Returned)
  else ingest_fields fuel st fields.

(** The loop over a file that yields strings; [parse_nro_stats_fd] below is
    the loop over a file that yields strings or bytes. *)
Fixpoint parse_nro_stats (fuel : nat) (fd : list string) (st : tries)
  : effect tries :=
  match fd with
  | [] => (st, [], Returned)
  | line :: fd' =>
      match parse_line fuel st line with
      | (st1, out1, Returned) =>
          let '(st2, out2, res) := parse_nro_stats fuel fd' st1 in
          (st2, out1 ++ out2, res)
      | stopped => stopped
      end
  end.

(** *** Lines of bytes

    A file opened with the built-in [open] yields strings, a file opened
    with [gzip.open] or [bz2.BZ2File] yields bytes, which the first statement
    of the loop body decodes.  A string is held as the UTF-8 encoding of its
    text, so decoding keeps the bytes and only checks them; the characters
    the parser looks for (the bar, the carriage return, the line feed and
    the letters of [ipv4] and [ipv6]) are single bytes that occur in no
    longer sequence. *)
Inductive file_line : Type :=
| Str_line (text : string)
| Bytes_line (data : list Byte.byte).

(** A continuation byte, and a byte within given bounds. *)
Definition byte_in (lo hi : N) (b : Byte.byte) : bool :=
  (lo <=? Byte.to_N b)%N && (Byte.to_N b <=? hi)%N.

Definition utf8_continuation (b : Byte.byte) : bool := byte_in 128 191 b.

(** Whether [data.decode('utf8')] accepts the bytes: they are a sequence of
    well-formed UTF-8 sequences, with no overlong form, no surrogate and
    nothing above U+10FFFF. *)
Fixpoint utf8_valid (data : list Byte.byte) : bool :=
  match data with
  | [] => true
  | b :: rest =>
      if byte_in 0 127 b then utf8_valid rest
      else if byte_in 194 223 b then
        match rest with
        | c1 :: rest' => utf8_continuation c1 && utf8_valid rest'
        | _ => false
        end
      else if byte_in 224 239 b then
        match rest with
        | c1 :: c2 :: rest' =>
            (if byte_in 224 224 b then byte_in 160 191 c1
             else if byte_in 237 237 b then byte_in 128 159 c1
             else utf8_continuation c1)
            && utf8_continuation c2 && utf8_valid rest'
        | _ => false
        end
      else if byte_in 240 244 b then
        match rest with
        | c1 :: c2 :: c3 :: rest' =>
            (if byte_in 240 240 b then byte_in 144 191 c1
             else if byte_in 244 244 b then byte_in 128 143 c1
             else utf8_continuation c1)
            && utf8_continuation c2 && utf8_continuation c3
            && utf8_valid rest'
        | _ => false
        end
      else false
  end.

(** [data.decode('utf8')]; [None] is a [UnicodeDecodeError]. *)
Definition utf8_decode (data : list Byte.byte) : option string :=
  if utf8_valid data then Some (string_of_list_byte data) else None.

(** The first statement of the loop body: [line] after
    [if type(line) is bytes: line = line.decode('utf8')]. *)
Definition line_text (l : file_line) : option string :=
  match l with
  | Str_line text => Some text
  | Bytes_line data => utf8_decode data
  end.

(** The whole body of the [for line in fd] loop. *)
Definition parse_file_line (fuel : nat) (st : tries) (l : file_line)
  : effect tries :=
  match line_text l with
  | None => (st, [], Raised UnicodeDecodeError)
  | Some line => parse_line fuel st line
  end.

(** [parse_nro_stats] on what an opened file yields. *)
Fixpoint parse_nro_stats_fd (fuel : nat) (fd : list file_line) (st : tries)
  : effect tries :=
  match fd with
  | [] => (st, [], Returned)
  | l :: fd' =>
      match parse_file_line fuel st l with
      | (st1, out1, Returned) =>
          let '(st2, out2, res) := parse_nro_stats_fd fuel fd' st1 in
          (st2, out1 ++ out2, res)
      | stopped => stopped
      end
  end.

(** ** main *)

(** A written row: the prefix of the node, then the other cells in the
    order of the format string. *)
Definition row : Type := (key * list pyval)%type.

(** The header lines of the two output files, column by column. *)
Definition v4_header : list string :=
  ["prefix"; "rir"; "date"; "country_code"; "status"; "block_start";
   "block_ip_count"]%string.
Definition v6_header : list string :=
  ["prefix"; "rir"; "date"; "country_code"; "status"]%string.

(** [info[i]]; [None] is an [IndexError]. *)
Definition tuple_get (t : prefix_info) (i : nat) : option pyval :=
  nth_error t i.

(** The row written for one [info] of a node of the IPv4 tree.  The local
    names are those of the script. *)
Definition v4_row (prefix : key) (pinfo : prefix_info) : option row :=
  match tuple_get pinfo 0, tuple_get pinfo 1, tuple_get pinfo 2,
        tuple_get pinfo 3, tuple_get pinfo 4, tuple_get pinfo 5 with
  | Some rir, Some date, Some country, Some prefix_status,
    Some block_start, Some block_ip_count =>
      Some (prefix, [rir; country; date; prefix_status;
                     block_start; block_ip_count])
  | _, _, _, _, _, _ => None
  end.

Definition v6_row (prefix : key) (pinfo : prefix_info) : option row :=
  match tuple_get pinfo 0, tuple_get pinfo 1, tuple_get pinfo 2,
        tuple_get pinfo 3 with
  | Some rir, Some date, Some country, Some prefix_status =>
      Some (prefix, [rir; country; date; prefix_status])
  | _, _, _, _ => None
  end.

(** The inner [for info in rnode.data['info']] loop. *)
Fixpoint write_infos (fmt : key -> prefix_info -> option row) (prefix : key)
    (infos : list prefix_info) : list row * outcome :=
  match infos with
  | [] => ([], Returned)
  | i :: rest =>
      match fmt prefix i with
      | None => ([], Raised IndexError)
      | Some r =>
          let '(rows, res) := write_infos fmt prefix rest in (r :: rows, res)
      end
  end.

(** The outer [for rnode in radix] loop: the rows written, and how the
    loop ended. *)
Fixpoint write_nodes (fmt : key -> prefix_info -> option row)
    (nodes : list (key * rnode_data)) : list row * outcome :=
  match nodes with
  | [] => ([], Returned)
  | (prefix, d) :: rest =>
      match info d with
      | None => ([], Raised KeyError)
      | Some infos =>
          match write_infos fmt prefix infos with
          | (rows1, Returned) =>
              let '(rows2, res) := write_nodes fmt rest in
              (rows1 ++ rows2, res)
          | stopped => stopped
          end
      end
  end.

Definition write_rows (fmt : key -> prefix_info -> option row) (t : Radix)
  : list row * outcome :=
  write_nodes fmt (radix_iter t).

Definition empty_tries : tries := {| v4radix := Leaf; v6radix := Leaf |}.

(** The registry files are parsed one after the other into the same two
    trees. *)
Fixpoint parse_files (fuel : nat) (files : list (list string)) (st : tries)
  : effect tries :=
  match files with
  | [] => (st, [], Returned)
  | fd :: files' =>
      match parse_nro_stats fuel fd st with
      | (st1, out1, Returned) =>
          let '(st2, out2, res) := parse_files fuel files' st1 in
          (st2, out1 ++ out2, res)
      | stopped => stopped
      end
  end.

(** The rows of the two output files.  An exception while parsing is caught
    by the [except] clause of [main] before either file is opened. *)
Definition merge_files (fuel : nat) (files : list (list string))
  : (list row * list row) * outcome :=
  match parse_files fuel files empty_tries with
  | (st, _, Returned) =>
      match write_rows v4_row (v4radix st) with
      | (rows4, Returned) =>
          let '(rows6, res) := write_rows v6_row (v6radix st) in
          ((rows4, rows6), res)
      | (rows4, stopped) => ((rows4, []), stopped)
      end
  | (_, _, stopped) => (([], []), stopped)
  end.

(** [main] on the five registry files, in the order of the script. *)
Definition main (fuel : nat) (afrinic arin apnic lacnic ripencc : list string)
  : (list row * list row) * outcome :=
  merge_files fuel [afrinic; arin; apnic; lacnic; ripencc].

(** ** The decomposition in the statements *)

(** Address ranges: [lo, hi) is cut into the ranges of the steps, in order
    and without a gap. *)
Fixpoint tiles (lo hi : Z) (steps : list block_step) : Prop :=
  match steps with
  | [] => lo = hi
  | s :: rest => step_lo s = lo /\ lo < step_hi s /\ tiles (step_hi s) hi rest
  end.

(** The steps start at address [a] with [c] addresses to go, and each one
    hands the next what it leaves. *)
Fixpoint trace_from (a c : Z) (steps : list block_step) : Prop :=
  match steps with
  | [] => True
  | s :: rest =>
      step_lo s = a /\ step_count s = c
      /\ trace_from (a + step_used s) (c - step_used s) rest
  end.

(** *** What is assumed of the floating-point logarithm

    [math.log(n, 2)] is a quotient of two floating-point logarithms, so
    [int_log2] is kept abstract and each result names what it needs of it. *)

(** The logarithm of a count of at least one is not negative. *)
Definition log_nonneg : Prop :=
  forall c, 1 <= c -> 0 <= int_log2 c.

(** On the counts that fit the IPv4 address space, two to the logarithm does
    not exceed the count. *)
Definition log_not_above : Prop :=
  forall c, 1 <= c <= 2 ^ 32 -> 0 <= int_log2 c /\ 2 ^ int_log2 c <= c.

(** The logarithm is the exact integer logarithm below [2 ^ 32], and at
    least 32 from there on. *)
Definition log_exact : Prop :=
  (forall c, 1 <= c < 2 ^ 32 -> int_log2 c = Z.log2 c)
  /\ (forall c, 2 ^ 32 <= c -> 32 <= int_log2 c).

(** ** The attachments a line leads to, for the proofs *)

(** The rows of a list of entries that have all the cells the format needs. *)
Fixpoint rows_of (fmt : key -> prefix_info -> option row)
    (es : list (key * prefix_info)) : list row :=
  match es with
  | [] => []
  | e :: es' =>
      match fmt (fst e) (snd e) with
      | Some r => r :: rows_of fmt es'
      | None => rows_of fmt es'
      end
  end.

Definition step_key (s : block_step) : key :=
  false :: prefix_bits 32 (step_lo s) (Z.to_nat (step_size s)).

Definition step_op (pinfo : prefix_info) (s : block_step)
  : key * prefix_info :=
  (step_key s, pinfo ++ [PyInt (step_used s)]).

(** The attachments made to the IPv4 tree and to the IPv6 tree while one
    line is parsed, and how the parsing of the line ends.  It follows
    [parse_line] without the trees. *)
Definition line_ops (fuel : nat) (line : string)
  : (list (key * prefix_info) * list (key * prefix_info)) * outcome :=
  let fields := line_fields line in
  if skipped fields then (([], []), Returned)
  else
    match py_int (field fields 4) with
    | None => (([], []), Raised ValueError)
    | Some n =>
        let pinfo := line_info fields n in
        if String.eqb (field fields 2) "ipv4" then
          match ip_address (field fields 3) with
          | None => (([], []), Raised ValueError)
          | Some a =>
              let '(steps, res) := v4_block_steps fuel a n in
              ((map (step_op pinfo) steps, []), res)
          end
        else if String.eqb (field fields 2) "ipv6" then
          match ip_address (field fields 3) with
          | None => (([], []), Raised ValueError)
          | Some a =>
              match radix_key (a, n) with
              | None => (([], []), Raised ValueError)
              | Some k => (([], [(k, pinfo)]), Returned)
              end
          end
        else (([], []), Returned)
    end.

(** The attachments of a line to the IPv4 tree and to the IPv6 tree, and
    whether the line is parsed without an error. *)
Definition line_ops4 (fuel : nat) (line : string) : list (key * prefix_info) :=
  fst (fst (line_ops fuel line)).
Definition line_ops6 (fuel : nat) (line : string) : list (key * prefix_info) :=
  snd (fst (line_ops fuel line)).
Definition line_ok (fuel : nat) (line : string) : Prop :=
  snd (line_ops fuel line) = Returned.

(** The same for a file, line after line, and for the files of a run, file
    after file. *)
Definition file_ops4 (fuel : nat) (fd : list string)
  : list (key * prefix_info) :=
  flat_map (line_ops4 fuel) fd.
Definition file_ops6 (fuel : nat) (fd : list string)
  : list (key * prefix_info) :=
  flat_map (line_ops6 fuel) fd.
Definition file_ok (fuel : nat) (fd : list string) : Prop :=
  Forall (line_ok fuel) fd.

Definition files_ops4 (fuel : nat) (files : list (list string))
  : list (key * prefix_info) :=
  flat_map (file_ops4 fuel) files.
Definition files_ops6 (fuel : nat) (files : list (list string))
  : list (key * prefix_info) :=
  flat_map (file_ops6 fuel) files.

(** The state after the attachments of a line, a file or a run. *)
Definition attached (st : tries) (ops4 ops6 : list (key * prefix_info))
  : tries :=
  {| v4radix := attach_all (v4radix st) ops4;
     v6radix := attach_all (v6radix st) ops6 |}.

(** The entries of one node. *)
Definition node_entries (e : key * rnode_data) : list (key * prefix_info) :=
  map (pair (fst e)) (node_infos (Some (snd e))).

(** Every node of the tree has its list, and every tuple in it has the
    cells the format [fmt] reads. *)
Definition tree_ok (fmt : key -> prefix_info -> option row) (t : Radix)
  : Prop :=
  forall k d, search_exact t k = Some d ->
              exists l, info d = Some l /\ Forall (fun i => fmt k i <> None) l.

(** ** Records *)

(** The record an accepted line is read as. *)
Record DelegationRecord : Type := {
  registry : string;
  country_code : string;
  protocol : string;
  block_start : string;
  block_size : Z;
  modified_date : string;
  status : string
}.

Definition line_record (line : string) : option DelegationRecord :=
  let fields := line_fields line in
  if skipped fields then None
  else
    match py_int (field fields 4) with
    | Some n =>
        Some {| registry := field fields 0;
                country_code := field fields 1;
                protocol := field fields 2;
                block_start := field fields 3;
                block_size := n;
                modified_date := field fields 5;
                status := field fields 6 |}
    | None => None
    end.

(** The tuple attached for a record. *)
Definition record_info (rec : DelegationRecord) : prefix_info :=
  [PyStr (registry rec); PyStr (country_code rec); PyStr (modified_date rec);
   PyStr (status rec); PyStr (block_start rec); PyInt (block_size rec)].

End Script.

(** ** A reference instance of the library functions

    It reads plain decimal numerals and dotted quads as Python does, knows
    one IPv6 address, and takes the logarithm exactly.  The examples are run
    with it. *)

Definition digit_value (c : ascii) : option Z :=
  let n := Z.of_nat (nat_of_ascii c) in
  if (48 <=? n) && (n <=? 57) then Some (n - 48) else None.

Fixpoint decimal_from (acc : Z) (s : string) : option Z :=
  match s with
  | EmptyString => Some acc
  | String c s' =>
      match digit_value c with
      | Some d => decimal_from (10 * acc + d) s'
      | None => None
      end
  end.

Definition decimal (s : string) : option Z :=
  match s with
  | EmptyString => None
  | _ => decimal_from 0 s
  end.

Definition dotted_quad (s : string) : option ip_addr :=
  match map decimal (split "."%char s) with
  | [Some a; Some b; Some c; Some d] =>
      if (a <=? 255) && (b <=? 255) && (c <=? 255) && (d <=? 255)
      then Some (IPv4Address (((a * 256 + b) * 256 + c) * 256 + d))
      else None
  | _ => None
  end.

Definition ref_ip_address (s : string) : option ip_addr :=
  if String.eqb s "2001:db8::" then Some (IPv6Address (536939960 * 2 ^ 96))
  else dotted_quad s.

Definition ref_pylib : PyLib :=
  {| py_int := decimal; ip_address := ref_ip_address; int_log2 := Z.log2 |}.

(** ** Example files *)

(** Two registries that list the same block of four addresses. *)
Definition example_ripencc_4 : list string :=
  ["ripencc|NL|ipv4|10.0.0.0|4|20200101|allocated"%string].
Definition example_arin_4 : list string :=
  ["arin|US|ipv4|10.0.0.0|4|20200102|assigned"%string].

(** A file with a header line and a block of three addresses, and a file
    with an IPv6 delegation. *)
Definition example_ripencc_3 : list string :=
  ["2|ripencc|20200101|1|19830705|20200101|+0100"%string;
   "ripencc|NL|ipv4|10.0.0.0|3|20200101|allocated"%string].
Definition example_arin_v6 : list string :=
  ["arin|US|ipv6|2001:db8::|32|20200102|assigned"%string].

(** * Fetching the registry files *)

(** ** Dates *)

(** A [datetime.date]. *)
Record date : Type := { date_year : Z; date_month : Z; date_day : Z }.

(** [datetime.date(y, m, d)] *)
Definition datetime_date (y m d : Z) : date :=
  {| date_year := y; date_month := m; date_day := d |}.

(** Dates compare as the tuples (year, month, day). *)
Definition date_compare (a b : date) : comparison :=
  match date_year a ?= date_year b with
  | Eq =>
      match date_month a ?= date_month b with
      | Eq => date_day a ?= date_day b
      | c => c
      end
  | c => c
  end.

(** [a < b], [a <= b] and [a == b] *)
Definition date_ltb (a b : date) : bool :=
  match date_compare a b with Lt => true | _ => false end.
Definition date_leb (a b : date) : bool :=
  match date_compare a b with Gt => false | _ => true end.
Definition date_eqb (a b : date) : bool :=
  match date_compare a b with Eq => true | _ => false end.

(** The dates [datetime.date] can hold: a year from 1 to 9999 and a day of
    the proleptic Gregorian calendar. *)
Definition is_leap (y : Z) : bool :=
  (y mod 4 =? 0) && (negb (y mod 100 =? 0) || (y mod 400 =? 0)).

Definition days_in_month (y m : Z) : Z :=
  if m =? 2 then (if is_leap y then 29 else 28)
  else if (m =? 4) || (m =? 6) || (m =? 9) || (m =? 11) then 30
  else 31.

Definition valid_date (d : date) : bool :=
  (1 <=? date_year d) && (date_year d <=? 9999)
  && (1 <=? date_month d) && (date_month d <=? 12)
  && (1 <=? date_day d)
  && (date_day d <=? days_in_month (date_year d) (date_month d)).

(** ** Formatting *)

(** ['{}'.format(n)] for an integer. *)
Definition py_str (n : Z) : string := NilZero.string_of_int (Z.to_int n).

Definition zero_fill (width : nat) (digits : string) : string :=
  (string_of_list_ascii (repeat "0"%char (width - String.length digits))
   ++ digits)%string.

(** ['{:0wd}'.format(n)]: the sign, when there is one, counts in the
    width. *)
Definition format_d (width : nat) (n : Z) : string :=
  if n <? 0 then ("-" ++ zero_fill (width - 1) (py_str (- n)))%string
  else zero_fill width (py_str n).

(** ['{:04d}{:02d}{:02d}'.format(day.year, day.month, day.day)] *)
Definition yyyymmdd (day : date) : string :=
  (format_d 4 (date_year day) ++ format_d 2 (date_month day)
   ++ format_d 2 (date_day day))%string.

(** ['{}'.format(day)], the ISO form of a date. *)
Definition isoformat (day : date) : string :=
  (format_d 4 (date_year day) ++ "-" ++ format_d 2 (date_month day)
   ++ "-" ++ format_d 2 (date_day day))%string.

(** ** Configuration *)

Definition ripe_base_url : string := "https://ftp.ripe.net/pub/stats".
Definition afrinic_sub : string := "afrinic".
Definition arin_sub : string := "arin".
Definition apnic_sub : string := "apnic".
Definition lacnic_sub : string := "lacnic".
Definition ripencc_sub : string := "ripencc".
Definition tmpdir : string := "/tmp".

(** ** What a fetcher does *)

(** What is written to the standard output, the empty file made for a day
    before the archive starts, and the download. *)
Inductive io_event : Type :=
| Stdout (text : string)
| Create_empty (path : string)
| Urlretrieve (url path : string).

(** [print(s)] and [sys.stdout.write(s)] *)
Definition print (s : string) : io_event :=
  Stdout (s ++ String LF EmptyString).
Definition stdout_write (s : string) : io_event := Stdout s.

(** A fetcher returns the name of a file, or raises [Exception] with a
    message. *)
Inductive fetched : Type :=
| Fetched (tmpfile : string)
| Fetch_failed (message : string).

(** The loop over [missing_dateranges]; [rir] is the name in the message. *)
Fixpoint replace_missing (rir : string)
    (missing_dateranges : list (date * date * date)) (day : date)
  : date * list io_event :=
  match missing_dateranges with
  | [] => (day, [])
  | daterange :: rest =>
      if date_leb (fst (fst daterange)) day
         && date_leb day (snd (fst daterange)) then
        let '(day', out) := replace_missing rir rest (snd daterange) in
        (day',
         print (isoformat day ++ " is missing for " ++ rir
                ++ ", replacing it by " ++ isoformat (snd daterange))
           :: out)
      else replace_missing rir rest day
  end.

(** The loop over [exception_dates]. *)
Fixpoint adjust_year (rir : string) (exception_dates : list (date * Z))
    (day : date) (year : Z) : Z * list io_event :=
  match exception_dates with
  | [] => (year, [])
  | exception :: rest =>
      if date_eqb day (fst exception) then
        let '(year', out) := adjust_year rir rest day (snd exception) in
        (year',
         print (isoformat day ++ " is in another year directory for " ++ rir
                ++ ", adjusting year directory to " ++ py_str (snd exception))
           :: out)
      else adjust_year rir rest day year
  end.

(** The tables of the fetchers. *)
Definition afrinic_missing_dateranges : list (date * date * date) :=
  [(datetime_date 2011 1 1, datetime_date 2011 5 15, datetime_date 2011 5 16);
   (datetime_date 2014 12 31, datetime_date 2015 1 6, datetime_date 2015 1 7);
   (datetime_date 2015 12 31, datetime_date 2016 1 4, datetime_date 2016 1 5);
   (datetime_date 2016 12 31, datetime_date 2016 12 31,
    datetime_date 2017 1 1);
   (datetime_date 2017 12 31, datetime_date 2018 1 3, datetime_date 2018 1 4)].

Definition afrinic_exception_dates : list (date * Z) :=
  [(datetime_date 2012 12 31, 2013)].

Definition arin_missing_dateranges : list (date * date * date) :=
  [(datetime_date 2019 8 25, datetime_date 2019 8 25,
    datetime_date 2019 8 26)].

Definition apnic_missing_dateranges : list (date * date * date) :=
  [(datetime_date 2001 5 2, datetime_date 2001 5 31, datetime_date 2001 6 1);
   (datetime_date 2001 6 2, datetime_date 2001 8 31, datetime_date 2001 9 1);
   (datetime_date 2001 9 2, datetime_date 2001 9 30, datetime_date 2001 10 1);
   (datetime_date 2001 10 2, datetime_date 2001 10 31,
    datetime_date 2001 11 1);
   (datetime_date 2001 11 2, datetime_date 2001 11 30,
    datetime_date 2001 12 1);
   (datetime_date 2001 12 2, datetime_date 2001 12 31,
    datetime_date 2002 1 1);
   (datetime_date 2002 1 2, datetime_date 2002 1 31, datetime_date 2002 2 1);
   (datetime_date 2002 2 2, datetime_date 2002 2 28, datetime_date 2002 3 1);
   (datetime_date 2002 3 2, datetime_date 2002 3 31, datetime_date 2002 4 1);
   (datetime_date 2002 4 2, datetime_date 2002 4 30, datetime_date 2002 5 1);
   (datetime_date 2002 5 2, datetime_date 2002 5 31, datetime_date 2002 6 1);
   (datetime_date 2002 6 2, datetime_date 2002 6 30, datetime_date 2002 7 1);
   (datetime_date 2002 7 2, datetime_date 2002 7 31, datetime_date 2002 8 1);
   (datetime_date 2002 8 2, datetime_date 2002 8 31, datetime_date 2002 9 1);
   (datetime_date 2002 9 2, datetime_date 2002 9 30, datetime_date 2002 10 1);
   (datetime_date 2002 10 2, datetime_date 2002 10 31,
    datetime_date 2002 11 1);
   (datetime_date 2002 11 2, datetime_date 2002 11 30,
    datetime_date 2002 12 1);
   (datetime_date 2002 12 2, datetime_date 2002 12 31,
    datetime_date 2003 1 1);
   (datetime_date 2003 1 2, datetime_date 2003 1 31, datetime_date 2003 2 1);
   (datetime_date 2003 2 2, datetime_date 2003 2 28, datetime_date 2003 3 1);
   (datetime_date 2003 3 2, datetime_date 2003 3 31, datetime_date 2003 4 1);
   (datetime_date 2003 4 2, datetime_date 2003 4 30, datetime_date 2003 5 1);
   (datetime_date 2003 5 2, datetime_date 2003 5 7, datetime_date 2003 5 8)].

Definition apnic_exception_dates : list (date * Z) :=
  [(datetime_date 2010 12 31, 2011); (datetime_date 2011 12 31, 2012);
   (datetime_date 2012 12 31, 2013); (datetime_date 2013 12 31, 2014);
   (datetime_date 2014 12 31, 2015); (datetime_date 2015 12 31, 2016);
   (datetime_date 2016 12 31, 2017); (datetime_date 2017 12 31, 2018);
   (datetime_date 2018 12 31, 2019)].

Definition lacnic_missing_dateranges : list (date * date * date) :=
  [(datetime_date 2018 9 26, datetime_date 2018 9 26,
    datetime_date 2018 9 27);
   (datetime_date 2018 11 10, datetime_date 2018 11 10,
    datetime_date 2018 11 11);
   (datetime_date 2019 12 21, datetime_date 2019 12 21,
    datetime_date 2019 12 22);
   (datetime_date 2020 4 22, datetime_date 2020 4 22,
    datetime_date 2020 4 23)].

(** [s += postfix] when [postfix is not None]. *)
Definition add_postfix (s : string) (postfix : option string) : string :=
  match postfix with
  | Some p => (s ++ p)%string
  | None => s
  end.

Section Fetch.

(** Whether [urllib.request.urlretrieve(url, tmpfile)] returns; when it
    does not, it raises. *)
Variable urlretrieve : string -> string -> bool.

(** The end of every fetcher: the line that announces the download, the
    download inside [try], and the line that follows it. *)
Definition download (rir url tmpfile : string) : list io_event * fetched :=
  let announce :=
    stdout_write ("Fetching " ++ rir ++ " data from " ++ url ++ " ... ") in
  if urlretrieve url tmpfile then
    ([announce; Urlretrieve url tmpfile; print ("OK (" ++ tmpfile ++ ")")],
     Fetched tmpfile)
  else
    ([announce; Urlretrieve url tmpfile],
     Fetch_failed ("Failed to download " ++ url ++ " to " ++ tmpfile)).

Definition fetch_afrinic_nrostats (day : date) : list io_event * fetched :=
  let start_date := datetime_date 2005 3 3 in
  if date_ltb day start_date then
    let tmpfile := (tmpdir ++ "/afrinic-empty")%string in
    ([Create_empty tmpfile], Fetched tmpfile)
  else
    let '(day, out1) :=
      replace_missing "AfriNIC" afrinic_missing_dateranges day in
    let '(year, out2) :=
      adjust_year "AfriNIC" afrinic_exception_dates day (date_year day) in
    let afrinic_url :=
      (ripe_base_url ++ "/" ++ afrinic_sub ++ "/" ++ py_str year
       ++ "/delegated-afrinic-" ++ yyyymmdd day)%string in
    let tmpfile := (tmpdir ++ "/afrinic-" ++ yyyymmdd day)%string in
    let '(out3, res) := download "AfriNIC" afrinic_url tmpfile in
    (out1 ++ out2 ++ out3, res).

Definition fetch_arin_nrostats (day : date) : list io_event * fetched :=
  let start_date := datetime_date 2003 11 20 in
  if date_ltb day start_date then
    let tmpfile := (tmpdir ++ "/arin-empty")%string in
    ([Create_empty tmpfile], Fetched tmpfile)
  else
    let subdir :=
      if date_year day <? 2017
      then Some ("archive/" ++ py_str (date_year day))%string
      else None in
    let '(day, out1) := replace_missing "ARIN" arin_missing_dateranges day in
    let filename_prefix :=
      if date_leb (datetime_date 2013 3 5) day
      then "delegated-arin-extended"%string
      else "delegated-arin"%string in
    let filename_postfix :=
      if date_leb day (datetime_date 2007 9 30)
      then Some ".gz"%string
      else None in
    let arin_url := (ripe_base_url ++ "/" ++ arin_sub)%string in
    let arin_url :=
      match subdir with
      | Some s => (arin_url ++ "/" ++ s)%string
      | None => arin_url
      end in
    let arin_url :=
      (arin_url ++ "/" ++ filename_prefix ++ "-" ++ yyyymmdd day)%string in
    let arin_url := add_postfix arin_url filename_postfix in
    let tmpfile := (tmpdir ++ "/arin-" ++ yyyymmdd day)%string in
    let tmpfile := add_postfix tmpfile filename_postfix in
    let '(out2, res) := download "ARIN" arin_url tmpfile in
    (out1 ++ out2, res).

Definition fetch_apnic_nrostats (day : date) : list io_event * fetched :=
  let start_date := datetime_date 2001 5 1 in
  if date_ltb day start_date then
    let tmpfile := (tmpdir ++ "/apnic-empty")%string in
    ([Create_empty tmpfile], Fetched tmpfile)
  else
    let '(day, out1) :=
      replace_missing "APNIC" apnic_missing_dateranges day in
    let '(year, out2) :=
      adjust_year "APNIC" apnic_exception_dates day (date_year day) in
    let filename :=
      if date_leb day (datetime_date 2003 10 8)
      then ("apnic-" ++ isoformat day ++ ".gz")%string
      else ("delegated-apnic-" ++ yyyymmdd day ++ ".gz")%string in
    let apnic_url :=
      (ripe_base_url ++ "/" ++ apnic_sub ++ "/" ++ py_str year ++ "/"
       ++ filename)%string in
    let tmpfile := (tmpdir ++ "/apnic-" ++ yyyymmdd day ++ ".gz")%string in
    let '(out3, res) := download "APNIC" apnic_url tmpfile in
    (out1 ++ out2 ++ out3, res).

Definition fetch_lacnic_nrostats (day : date) : list io_event * fetched :=
  let start_date := datetime_date 2004 1 1 in
  if date_ltb day start_date then
    let tmpfile := (tmpdir ++ "/lacnic-empty")%string in
    ([Create_empty tmpfile], Fetched tmpfile)
  else
    let '(day, out1) :=
      replace_missing "LACNIC" lacnic_missing_dateranges day in
    let lacnic_url :=
      (ripe_base_url ++ "/" ++ lacnic_sub ++ "/delegated-lacnic-"
       ++ yyyymmdd day)%string in
    let tmpfile := (tmpdir ++ "/lacnic-" ++ yyyymmdd day)%string in
    let '(out2, res) := download "LACNIC" lacnic_url tmpfile in
    (out1 ++ out2, res).

Definition fetch_ripencc_nrostats (day : date) : list io_event * fetched :=
  let start_date := datetime_date 2003 11 26 in
  if date_ltb day start_date then
    let tmpfile := (tmpdir ++ "/ripencc-empty")%string in
    ([Create_empty tmpfile], Fetched tmpfile)
  else
    let '(year, out1) :=
      if date_eqb day (datetime_date 2004 1 1)
      then (2003,
            [print ("RIPE data for " ++ isoformat day ++ " lives in year "
                    ++ py_str 2003)])
      else (date_year day, []) in
    let ripencc_url :=
      (ripe_base_url ++ "/" ++ ripencc_sub ++ "/" ++ py_str year
       ++ "/delegated-ripencc-" ++ yyyymmdd day ++ ".bz2")%string in
    let tmpfile := (tmpdir ++ "/ripencc-" ++ yyyymmdd day ++ ".bz2")%string in
    let '(out2, res) := download "RIPE" ripencc_url tmpfile in
    (out1 ++ out2, res).

End Fetch.

(** ** open_nro_stats_file *)

(** [l] starts with [p]. *)
Fixpoint starts_with (l p : list ascii) {struct p} : bool :=
  match p, l with
  | [], _ => true
  | c :: p', a :: l' => Ascii.eqb a c && starts_with l' p'
  | _ :: _, [] => false
  end.

(** [s.endswith(suffix)] *)
Definition endswith (s suffix : string) : bool :=
  starts_with (rev (list_ascii_of_string s))
    (rev (list_ascii_of_string suffix)).

(** How a file is opened: with [gzip.open], with [bz2.BZ2File] or with the
    built-in [open]. *)
Inductive opener : Type := Gzip_open | BZ2File | Plain_open.

Definition open_nro_stats_file (filename : string) : opener :=
  if endswith filename ".gz" then Gzip_open
  else if endswith filename ".bz2" then BZ2File
  else Plain_open.

(** ** The tables in the statements *)

(** The test of the loop over [missing_dateranges]: the day lies in the
    range. *)
Definition in_range (daterange : date * date * date) (day : date) : bool :=
  date_leb (fst (fst daterange)) day && date_leb day (snd (fst daterange)).

(** The day lies in a range of the table. *)
Definition listed_missing (missing_dateranges : list (date * date * date))
    (day : date) : bool :=
  existsb (fun daterange => in_range daterange day) missing_dateranges.

(** The ranges of a table follow each other: every range ends before its
    replacement, and the replacement comes before every later range. *)
Fixpoint sorted_ranges (missing_dateranges : list (date * date * date))
  : bool :=
  match missing_dateranges with
  | [] => true
  | r :: rest =>
      date_leb (fst (fst r)) (snd (fst r))
      && date_ltb (snd (fst r)) (snd r)
      && forallb (fun r' => date_ltb (snd r) (fst (fst r'))) rest
      && sorted_ranges rest
  end.

(** A decimal digit. *)
Definition is_digit (c : ascii) : bool :=
  match digit_value c with
  | Some _ => true
  | None => false
  end.

(** ** More for the statements *)

(** The addresses the steps use, taken together. *)
Definition used_total (steps : list block_step) : Z :=
  fold_right Z.add 0 (map step_used steps).

(** ** Characters of a line *)

(** [s.count(c)] for a one-character [c]. *)
Fixpoint count_char (c : ascii) (s : string) : nat :=
  match s with
  | EmptyString => O
  | String a s' => if Ascii.eqb a c then S (count_char c s') else count_char c s'
  end.

(** The line ending of a file written on Windows. *)
Definition CRLF : string := String CR (String LF EmptyString).

(** * Properties *)

#[global] Arguments IPv4Network_ok : simpl never.
#[global] Arguments used_addrcount_of : simpl never.
#[global] Arguments radix_key : simpl never.
#[global] Arguments key_eqb : simpl never.

Section Properties.

Context {py : PyLib}.

(** ** The radix tree *)

Lemma search_exact_Leaf (k : key) : search_exact Leaf k = None.
Proof. reflexivity. Qed.

Lemma search_exact_alter_same f (k : key) :
  forall t, search_exact (alter f t k) k = Some (f (search_exact t k)).
Proof.
  induction k as [|b k IH]; intros [|d z o]; simpl; try reflexivity.
  - destruct b; simpl; rewrite IH; reflexivity.
  - destruct b; simpl; apply IH.
Qed.

Lemma search_exact_alter_other f (k k' : key) :
  k <> k' ->
  forall t, search_exact (alter f t k) k' = search_exact t k'.
Proof.
  revert k'.
  induction k as [|b k IH]; intros k' Hne t.
  - destruct k' as [|b' k']; [congruence|].
    destruct t; simpl; [destruct b'|]; reflexivity.
  - destruct k' as [|b' k'].
    + destruct t as [|d z o]; simpl; destruct b; reflexivity.
    + destruct t as [|d z o]; simpl.
      * destruct b, b'; simpl; try reflexivity;
          rewrite IH by congruence; reflexivity.
      * destruct b, b'; simpl; try reflexivity; apply IH; congruence.
Qed.

Lemma alter_ext f g (k : key) :
  forall t, f (search_exact t k) = g (search_exact t k) ->
            alter f t k = alter g t k.
Proof.
  induction k as [|b k IH]; intros [|d z o] H; simpl in *.
  - congruence.
  - congruence.
  - destruct b; rewrite (IH Leaf) by assumption; reflexivity.
  - destruct b; rewrite IH by assumption; reflexivity.
Qed.

Lemma alter_alter f g (k : key) :
  forall t, alter g (alter f t k) k = alter (fun d => g (Some (f d))) t k.
Proof.
  induction k as [|b k IH]; intros [|d z o]; simpl; try reflexivity.
  - destruct b; simpl; rewrite IH; reflexivity.
  - destruct b; simpl; rewrite IH; reflexivity.
Qed.

Lemma alter_comm f g (k k' : key) :
  k <> k' ->
  forall t, alter f (alter g t k') k = alter g (alter f t k) k'.
Proof.
  revert k'.
  induction k as [|b k IH]; intros k' Hne t.
  - destruct k' as [|b' k']; [congruence|].
    destruct t as [|d z o]; simpl; destruct b'; reflexivity.
  - destruct k' as [|b' k'].
    + destruct t as [|d z o]; simpl; destruct b; reflexivity.
    + destruct t as [|d z o]; simpl.
      * destruct b, b'; simpl; try reflexivity;
          rewrite IH by congruence; reflexivity.
      * destruct b, b'; simpl; try reflexivity;
          rewrite IH by congruence; reflexivity.
Qed.

Lemma attach_comm (t : Radix) (a b : key * prefix_info) :
  fst a <> fst b -> attach (attach t a) b = attach (attach t b) a.
Proof.
  intros H. unfold attach. apply alter_comm. congruence.
Qed.

(** A returning call of [add_prefix_to_radix] attaches the tuple at the key
    of the prefix, and warns exactly when the node was already there. *)
Lemma add_prefix_to_radix_attach (t : Radix) (p : ip_prefix) (k : key)
    (i : prefix_info) :
  radix_key p = Some k ->
  add_prefix_to_radix t p i =
    (attach t (k, i),
     match search_exact t k with
     | Some _ => [Warning_already_in_radix p]
     | None => []
     end,
     Returned).
Proof.
  intros Hk. unfold add_prefix_to_radix, attach. rewrite Hk. simpl.
  destruct (search_exact t k) as [d|] eqn:Hs.
  - unfold set_data. f_equal. f_equal.
    apply alter_ext. rewrite Hs. reflexivity.
  - unfold set_data, radix_add. rewrite alter_alter. f_equal. f_equal.
    apply alter_ext. rewrite Hs. reflexivity.
Qed.

Lemma add_prefix_to_radix_invalid (t : Radix) (p : ip_prefix)
    (i : prefix_info) :
  radix_key p = None ->
  add_prefix_to_radix t p i = (t, [], Raised ValueError).
Proof. intros Hk. unfold add_prefix_to_radix. rewrite Hk. reflexivity. Qed.

Lemma key_eqb_spec (a b : key) : reflect (a = b) (key_eqb a b).
Proof.
  unfold key_eqb. destruct (list_eq_dec bool_dec a b); constructor; assumption.
Qed.

Lemma node_infos_attach (t : Radix) (op : key * prefix_info) (k : key) :
  node_infos (search_exact (attach t op) k) =
    node_infos (search_exact t k)
    ++ (if key_eqb (fst op) k then [snd op] else []).
Proof.
  unfold attach. destruct (key_eqb_spec (fst op) k) as [->|Hne].
  - rewrite search_exact_alter_same. reflexivity.
  - rewrite search_exact_alter_other by assumption.
    rewrite app_nil_r. reflexivity.
Qed.

Lemma entries_attach (op : key * prefix_info) :
  forall t, Permutation (entries (attach t op)) (op :: entries t).
Proof.
  destruct op as [k i]. unfold attach. simpl.
  induction k as [|b k IH]; intros t.
  - destruct t as [|d z o]; simpl.
    + apply Permutation_refl.
    + rewrite map_app. simpl. rewrite <- app_assoc. simpl.
      apply Permutation_sym, Permutation_middle.
  - set (f := fun d => {| info := Some (node_infos d ++ [i]) |}) in *.
    assert (Hsub : forall s,
               Permutation (map (under_bit b) (entries (alter f s k)))
                 ((b :: k, i) :: map (under_bit b) (entries s))).
    { intros s. change ((b :: k, i)) with (under_bit b (k, i)).
      rewrite <- map_cons. apply Permutation_map, IH. }
    destruct t as [|d z o]; simpl.
    + destruct b; simpl; rewrite ?app_nil_r; apply (Hsub Leaf).
    + destruct b; simpl.
      * rewrite (Hsub o).
        rewrite app_assoc. rewrite <- Permutation_middle.
        rewrite <- app_assoc. reflexivity.
      * rewrite (Hsub z). simpl.
        rewrite <- Permutation_middle. reflexivity.
Qed.

Lemma entries_attach_all (ops : list (key * prefix_info)) :
  forall t, Permutation (entries (attach_all t ops)) (entries t ++ ops).
Proof.
  induction ops as [|op ops IH]; intros t; simpl.
  - rewrite app_nil_r. reflexivity.
  - rewrite IH. rewrite entries_attach. 
    rewrite <- Permutation_middle. reflexivity.
Qed.

(** Attachments at different keys can be made in any order. *)
Lemma attach_all_perm (ops ops' : list (key * prefix_info)) :
  Permutation ops ops' -> NoDup (map fst ops) ->
  forall t, attach_all t ops = attach_all t ops'.
Proof.
  induction 1 as [|x l l' HP IH|x y l|l l' l'' HP1 IH1 HP2 IH2];
    intros Hnd t; simpl.
  - reflexivity.
  - apply IH. inversion Hnd; assumption.
  - f_equal. apply attach_comm.
    simpl in Hnd. inversion Hnd as [|? ? Hin _]; subst.
    intros E. apply Hin. left. symmetry; exact E.
  - rewrite IH1 by assumption. apply IH2.
    apply (Permutation_NoDup (Permutation_map fst HP1)). assumption.
Qed.

(** ** The alignment search *)

Lemma IPv4Network_ok_spec (n p : Z) :
  IPv4Network_ok (IPv4Address n) p = true <->
  0 <= p <= 32 /\ n mod 2 ^ (32 - p) = 0.
Proof.
  unfold IPv4Network_ok. rewrite !andb_true_iff, !Z.leb_le, Z.eqb_eq.
  split.
  - intros [[H0 H32] Hl]. rewrite Z.land_ones in Hl by lia. lia.
  - intros [[H0 H32] Hm]. rewrite Z.land_ones by lia. lia.
Qed.

Lemma IPv4Network_ok_v4 (a : ip_addr) (p : Z) :
  IPv4Network_ok a p = true -> exists n, a = IPv4Address n.
Proof. destruct a as [n|n]; simpl; [eauto|discriminate]. Qed.

Lemma IPv4Network_ok_key (a : ip_addr) (p : Z) :
  IPv4Network_ok a p = true ->
  radix_key (a, p) =
    Some (false :: prefix_bits 32 (addr_int a) (Z.to_nat p)).
Proof.
  intros H. destruct a as [n|n]; [|discriminate].
  apply IPv4Network_ok_spec in H. destruct H as [[H0 H32] _].
  unfold radix_key. simpl.
  destruct (Z.leb_spec 0 p); [|lia].
  destruct (Z.leb_spec p 32); [|lia]. reflexivity.
Qed.

Lemma find_prefix_size_sound (fuel : nat) (a : ip_addr) :
  forall ps p,
    find_prefix_size fuel a ps = Some p ->
    ps <= p /\ IPv4Network_ok a p = true /\
    forall q, ps <= q < p -> IPv4Network_ok a q = false.
Proof.
  induction fuel as [|fuel IH]; intros ps p H; simpl in H; [discriminate|].
  destruct (IPv4Network_ok a ps) eqn:Hok.
  - injection H as <-. repeat split; [lia|assumption|intros; lia].
  - apply IH in H. destruct H as (Hle & Hp & Hq).
    repeat split; [lia|assumption|].
    intros q Hr. destruct (Z.eq_dec q ps) as [->|]; [assumption|].
    apply Hq. lia.
Qed.

Lemma find_prefix_size_mono (fuel : nat) (a : ip_addr) :
  forall fuel' ps p,
    find_prefix_size fuel a ps = Some p -> (fuel <= fuel')%nat ->
    find_prefix_size fuel' a ps = Some p.
Proof.
  induction fuel as [|fuel IH]; intros fuel' ps p H Hle; simpl in H;
    [discriminate|].
  destruct fuel' as [|fuel']; [lia|]. simpl.
  destruct (IPv4Network_ok a ps); [assumption|].
  apply IH; [assumption|lia].
Qed.

(** A /32 is accepted at every IPv4 address, so the search ends by then. *)
Lemma find_prefix_size_total (n : Z) (fuel : nat) :
  forall ps,
    ps <= 32 -> (Z.to_nat (33 - ps) <= fuel)%nat ->
    exists p, find_prefix_size fuel (IPv4Address n) ps = Some p.
Proof.
  induction fuel as [|fuel IH]; intros ps H32 Hf; [lia|].
  cbn [find_prefix_size].
  destruct (IPv4Network_ok (IPv4Address n) ps) eqn:Hok; [eauto|].
  destruct (Z.eq_dec ps 32) as [->|Hne]; [|apply IH; lia].
  exfalso.
  assert (Ht : IPv4Network_ok (IPv4Address n) 32 = true).
  { apply IPv4Network_ok_spec. split; [lia|]. apply Z.mod_1_r. }
  congruence.
Qed.

Lemma find_prefix_size_range (fuel : nat) (a : ip_addr) (ps p : Z) :
  find_prefix_size fuel a ps = Some p ->
  0 <= p <= 32 /\ 1 <= used_addrcount_of p <= 2 ^ 32 /\
  addr_int a mod used_addrcount_of p = 0.
Proof.
  intros H. apply find_prefix_size_sound in H. destruct H as (_ & Hok & _).
  destruct (IPv4Network_ok_v4 _ _ Hok) as [n ->].
  apply IPv4Network_ok_spec in Hok. destruct Hok as [Hr Hm].
  unfold used_addrcount_of. cbn [addr_int].
  assert (0 < 2 ^ (32 - p)) by (apply Z.pow_pos_nonneg; lia).
  assert (2 ^ (32 - p) <= 2 ^ 32) by (apply Z.pow_le_mono_r; lia).
  repeat split; try assumption; lia.
Qed.

(** ** The trace and the loop *)

Lemma v4_block_steps_valid (fuel : nat) :
  forall a c,
    Forall (fun s => IPv4Network_ok (step_addr s) (step_size s) = true)
      (fst (v4_block_steps fuel a c)).
Proof.
  induction fuel as [|fuel IH]; intros a c; cbn [v4_block_steps];
    [constructor|].
  destruct (c >? 0); [|constructor].
  destruct (find_prefix_size fuel a (32 - int_log2 c)) as [p|] eqn:Hf;
    [|constructor].
  pose proof (find_prefix_size_sound _ _ _ _ Hf) as (_ & Hok & _).
  destruct (ip_addr_add a (used_addrcount_of p)) as [a'|].
  - specialize (IH a' (c - used_addrcount_of p)).
    destruct (v4_block_steps fuel a' (c - used_addrcount_of p)) as [l res].
    simpl in *. constructor; assumption.
  - simpl. constructor; [assumption|constructor].
Qed.

Lemma step_prefix_key (s : block_step) :
  IPv4Network_ok (step_addr s) (step_size s) = true ->
  radix_key (step_prefix s) = Some (step_key s).
Proof. intros H. apply (IPv4Network_ok_key _ _ H). Qed.

(** The calls of a trace all return; together they attach the tuples of the
    trace. *)
Lemma add_prefixes_steps (pinfo : prefix_info) (steps : list block_step) :
  Forall (fun s => IPv4Network_ok (step_addr s) (step_size s) = true) steps ->
  forall t, exists out,
    add_prefixes t (map (step_call pinfo) steps) =
      (attach_all t (map (step_op pinfo) steps), out, Returned).
Proof.
  induction 1 as [|s steps Hs _ IH]; intros t; simpl.
  - eauto.
  - rewrite (add_prefix_to_radix_attach t _ _ _ (step_prefix_key _ Hs)).
    match goal with
    | |- context [add_prefixes ?x _] => destruct (IH x) as [out Hout]
    end.
    rewrite Hout. eauto.
Qed.

(** The loop makes the calls of its trace, in order, and ends as the trace
    does. *)
Lemma add_v4_block_loop_steps (pinfo : prefix_info) (fuel : nat) :
  forall t a c,
    add_v4_block_loop fuel t a c pinfo =
      (let '(steps, res) := v4_block_steps fuel a c in
       let '(t', out, _) := add_prefixes t (map (step_call pinfo) steps) in
       (t', out, res)).
Proof.
  induction fuel as [|fuel IH]; intros t a c;
    cbn [v4_block_steps add_v4_block_loop]; [reflexivity|].
  destruct (c >? 0); [|reflexivity].
  destruct (find_prefix_size fuel a (32 - int_log2 c)) as [p|] eqn:Hf;
    [|reflexivity].
  pose proof (find_prefix_size_sound _ _ _ _ Hf) as (_ & Hok & _).
  assert (Hcall : forall l,
    add_prefixes t
      (map (step_call pinfo)
         ({| step_addr := a; step_count := c; step_size := p |} :: l)) =
    (let '(t2, out2, res) :=
       add_prefixes
         (attach t (false :: prefix_bits 32 (addr_int a) (Z.to_nat p),
                    pinfo ++ [PyInt (used_addrcount_of p)]))
         (map (step_call pinfo) l) in
     (t2,
      match search_exact t
              (false :: prefix_bits 32 (addr_int a) (Z.to_nat p)) with
      | Some _ => [Warning_already_in_radix (a, p)]
      | None => []
      end ++ out2, res))).
  { intros l. cbn [map add_prefixes]. unfold step_call at 1.
    unfold step_prefix, step_used. cbn [step_addr step_size].
    rewrite (add_prefix_to_radix_attach t _ _ _ (IPv4Network_ok_key _ _ Hok)).
    reflexivity. }
  rewrite (add_prefix_to_radix_attach t _ _ _ (IPv4Network_ok_key _ _ Hok)).
  destruct (ip_addr_add a (used_addrcount_of p)) as [a'|].
  - rewrite IH.
    destruct (v4_block_steps fuel a' (c - used_addrcount_of p)) as [l res].
    rewrite Hcall.
    destruct (add_prefixes _ (map (step_call pinfo) l)) as [[t' out] r'].
    reflexivity.
  - rewrite Hcall. cbn [map add_prefixes]. rewrite app_nil_r. reflexivity.
Qed.

Lemma add_v4_block_loop_attach (pinfo : prefix_info) (fuel : nat) t a c :
  exists out,
    add_v4_block_loop fuel t a c pinfo =
      (attach_all t (map (step_op pinfo) (fst (v4_block_steps fuel a c))),
       out, snd (v4_block_steps fuel a c)).
Proof.
  rewrite add_v4_block_loop_steps.
  pose proof (v4_block_steps_valid fuel a c) as Hv.
  destruct (v4_block_steps fuel a c) as [steps res]. simpl in *.
  destruct (add_prefixes_steps pinfo _ Hv t) as [out ->]. eauto.
Qed.

(** More fuel does not change a run that has ended. *)
Lemma v4_block_steps_mono (fuel : nat) :
  forall fuel' a c,
    snd (v4_block_steps fuel a c) <> OutOfFuel -> (fuel <= fuel')%nat ->
    v4_block_steps fuel' a c = v4_block_steps fuel a c.
Proof.
  induction fuel as [|fuel IH]; intros fuel' a c Hne Hle;
    cbn [v4_block_steps] in *; [simpl in Hne; congruence|].
  destruct fuel' as [|fuel']; [lia|]. cbn [v4_block_steps].
  destruct (c >? 0); [|reflexivity].
  destruct (find_prefix_size fuel a (32 - int_log2 c)) as [p|] eqn:Hf;
    [|simpl in Hne; congruence].
  rewrite (find_prefix_size_mono fuel a fuel' _ _ Hf) by lia.
  destruct (ip_addr_add a (used_addrcount_of p)) as [a'|]; [|reflexivity].
  rewrite (IH fuel' a' (c - used_addrcount_of p)); [reflexivity| |lia].
  destruct (v4_block_steps fuel a' (c - used_addrcount_of p)). exact Hne.
Qed.

(** ** Tilings of an address range *)

Lemma tiles_bounds (steps : list block_step) :
  forall lo hi,
    tiles lo hi steps ->
    lo <= hi /\
    Forall (fun s => lo <= step_lo s /\ step_hi s <= hi
                     /\ step_lo s < step_hi s) steps.
Proof.
  induction steps as [|s steps IH]; intros lo hi H; simpl in H.
  - split; [lia|constructor].
  - destruct H as (Hlo & Hlt & Hrest).
    destruct (IH _ _ Hrest) as [Hle Hall].
    split; [lia|]. constructor; [lia|].
    eapply Forall_impl; [|exact Hall]. simpl. intros; lia.
Qed.

Lemma tiles_cover (steps : list block_step) :
  forall lo hi,
    tiles lo hi steps ->
    forall x, lo <= x < hi <->
              exists s, In s steps /\ step_lo s <= x < step_hi s.
Proof.
  induction steps as [|s steps IH]; intros lo hi H x; simpl in H.
  - subst. split; [lia|]. intros (s & [] & _).
  - destruct H as (Hlo & Hlt & Hrest).
    pose proof (tiles_bounds _ _ _ Hrest) as [Hle _].
    specialize (IH _ _ Hrest x). split.
    + intros Hx. destruct (Z_lt_ge_dec x (step_hi s)) as [Hl|Hg].
      * exists s. split; [left; reflexivity|lia].
      * destruct (proj1 IH) as (s' & Hin & Hr); [lia|].
        exists s'. split; [right; assumption|assumption].
    + intros (s' & [<-|Hin] & Hr); [lia|].
      assert (step_hi s <= x < hi) by (apply IH; eauto). lia.
Qed.

Lemma tiles_ascending (steps : list block_step) :
  forall lo hi,
    tiles lo hi steps ->
    forall i j s s',
      nth_error steps i = Some s -> nth_error steps j = Some s' ->
      (i < j)%nat -> step_hi s <= step_lo s'.
Proof.
  induction steps as [|s0 steps IH]; intros lo hi H i j s s' Hi Hj Hij.
  - destruct i; discriminate.
  - simpl in H. destruct H as (Hlo & Hlt & Hrest).
    destruct j as [|j]; [lia|]. simpl in Hj.
    destruct i as [|i].
    + simpl in Hi. injection Hi as <-.
      pose proof (tiles_bounds _ _ _ Hrest) as [_ Hall].
      rewrite Forall_forall in Hall.
      apply nth_error_In in Hj. specialize (Hall _ Hj). lia.
    + simpl in Hi. apply (IH _ _ Hrest i j); [assumption|assumption|lia].
Qed.

(** ** The decomposition within the address space *)

Lemma pow2_gt_lin (k : Z) : 0 <= k -> k < 2 ^ k.
Proof. intros. apply Z.pow_gt_lin_r; lia. Qed.

Lemma v4_block_steps_tiles :
  log_not_above ->
  forall fuel n c,
    0 <= n -> 0 <= c -> n + c <= 2 ^ 32 -> (Z.to_nat c < fuel)%nat ->
    tiles n (n + c) (fst (v4_block_steps fuel (IPv4Address n) c)) /\
    snd (v4_block_steps fuel (IPv4Address n) c) =
      (if (0 <? c) && (n + c =? 2 ^ 32) then Raised AddressValueError
       else Returned).
Proof.
  intros Hlog.
  induction fuel as [|fuel IH]; intros n c Hn Hc Hsum Hfuel; [lia|].
  cbn [v4_block_steps].
  destruct (Z.gtb_spec c 0) as [Hpos|Hzero].
  2:{ assert (c = 0) by lia. subst. simpl. split; [lia|reflexivity]. }
  destruct (Hlog c) as [Hl0 Hl1]; [lia|].
  pose proof (pow2_gt_lin _ Hl0) as Hlin.
  destruct (find_prefix_size_total n fuel (32 - int_log2 c)) as [p Hf];
    [lia|lia|].
  rewrite Hf.
  pose proof (find_prefix_size_sound _ _ _ _ Hf) as (Hge & _ & _).
  pose proof (find_prefix_size_range _ _ _ _ Hf) as (Hp & Hu & _).
  assert (Huc : used_addrcount_of p <= c).
  { unfold used_addrcount_of.
    transitivity (2 ^ int_log2 c); [apply Z.pow_le_mono_r; lia|lia]. }
  cbn [ip_addr_add].
  destruct (Z.leb_spec 0 (n + used_addrcount_of p)); [|lia].
  destruct (Z.ltb_spec (n + used_addrcount_of p) (2 ^ 32)) as [Hin|Hout];
    cbn [andb].
  - specialize (IH (n + used_addrcount_of p) (c - used_addrcount_of p)).
    destruct IH as [IHt IHr]; try lia.
    destruct (v4_block_steps fuel (IPv4Address (n + used_addrcount_of p))
                (c - used_addrcount_of p)) as [l res].
    cbn [fst snd] in *. split.
    + simpl. unfold step_hi, step_lo, step_used.
      cbn [step_addr step_size addr_int].
      repeat split; [lia|].
      replace (n + c) with (n + used_addrcount_of p + (c - used_addrcount_of p))
        by lia. exact IHt.
    + rewrite IHr.
      replace (n + used_addrcount_of p + (c - used_addrcount_of p))
        with (n + c) by lia.
      destruct (Z.ltb_spec 0 c); [|lia].
      destruct (Z.ltb_spec 0 (c - used_addrcount_of p)); cbn [andb];
        [reflexivity|].
      destruct (Z.eqb_spec (n + c) (2 ^ 32)); [lia|reflexivity].
  - cbn [fst snd]. assert (used_addrcount_of p = c) by lia.
    split.
    + simpl. unfold step_hi, step_lo, step_used.
      cbn [step_addr step_size addr_int].
      repeat split; lia.
    + destruct (Z.ltb_spec 0 c); [|lia].
      destruct (Z.eqb_spec (n + c) (2 ^ 32)); [reflexivity|lia].
Qed.

Lemma ip_addr_add_v4 (n k : Z) (a' : ip_addr) :
  ip_addr_add (IPv4Address n) k = Some a' ->
  a' = IPv4Address (n + k) /\ 0 <= n + k < 2 ^ 32.
Proof.
  cbn [ip_addr_add].
  destruct (Z.leb_spec 0 (n + k)); destruct (Z.ltb_spec (n + k) (2 ^ 32));
    cbn [andb]; intros E; try discriminate.
  injection E as <-. split; [reflexivity|lia].
Qed.

Lemma ip_addr_add_int (a a' : ip_addr) (k : Z) :
  ip_addr_add a k = Some a' -> addr_int a' = addr_int a + k.
Proof.
  destruct a as [n|n]; cbn [ip_addr_add];
    match goal with |- context [if ?b then _ else _] => destruct b end;
    intros E; try discriminate; injection E as <-; reflexivity.
Qed.

Lemma v4_block_steps_trace (fuel : nat) :
  forall a c,
    trace_from (addr_int a) c (fst (v4_block_steps fuel a c)).
Proof.
  induction fuel as [|fuel IH]; intros a c; cbn [v4_block_steps];
    [exact I|].
  destruct (c >? 0); [|exact I].
  destruct (find_prefix_size fuel a (32 - int_log2 c)) as [p|]; [|exact I].
  destruct (ip_addr_add a (used_addrcount_of p)) as [a'|] eqn:Ha.
  - specialize (IH a' (c - used_addrcount_of p)).
    rewrite (ip_addr_add_int _ _ _ Ha) in IH.
    destruct (v4_block_steps fuel a' (c - used_addrcount_of p)) as [l res].
    cbn [fst] in *. simpl. repeat split; assumption.
  - simpl. repeat split; exact I.
Qed.

(** Every step of a trace is the outcome of the alignment search at the
    state the step starts from. *)
Lemma v4_block_steps_found (fuel : nat) :
  forall a c,
    Forall (fun s => 1 <= step_count s /\
                     exists f, find_prefix_size f (step_addr s)
                                 (32 - int_log2 (step_count s))
                               = Some (step_size s))
      (fst (v4_block_steps fuel a c)).
Proof.
  induction fuel as [|fuel IH]; intros a c; cbn [v4_block_steps];
    [constructor|].
  destruct (Z.gtb_spec c 0) as [Hpos|]; [|constructor].
  destruct (find_prefix_size fuel a (32 - int_log2 c)) as [p|] eqn:Hf;
    [|constructor].
  assert (Hs : 1 <= c /\ exists f,
             find_prefix_size f a (32 - int_log2 c) = Some p)
    by (split; [lia|eauto]).
  destruct (ip_addr_add a (used_addrcount_of p)) as [a'|].
  - specialize (IH a' (c - used_addrcount_of p)).
    destruct (v4_block_steps fuel a' (c - used_addrcount_of p)) as [l res].
    cbn [fst] in *. constructor; assumption.
  - cbn [fst]. constructor; [assumption|constructor].
Qed.

Lemma v4_block_steps_outcome (fuel : nat) :
  forall a c,
    snd (v4_block_steps fuel a c) = Returned
    \/ snd (v4_block_steps fuel a c) = Raised AddressValueError
    \/ snd (v4_block_steps fuel a c) = OutOfFuel.
Proof.
  induction fuel as [|fuel IH]; intros a c; cbn [v4_block_steps];
    [auto|].
  destruct (c >? 0); [|auto].
  destruct (find_prefix_size fuel a (32 - int_log2 c)) as [p|]; [|auto].
  destruct (ip_addr_add a (used_addrcount_of p)) as [a'|]; [|auto].
  specialize (IH a' (c - used_addrcount_of p)).
  destruct (v4_block_steps fuel a' (c - used_addrcount_of p)) as [l res].
  exact IH.
Qed.

(** Enough fuel lets the loop end. *)
Lemma v4_block_steps_ends :
  log_nonneg ->
  forall (m : nat) c n,
    (Z.to_nat c <= m)%nat -> 0 <= n < 2 ^ 32 ->
    exists fuel0, snd (v4_block_steps fuel0 (IPv4Address n) c) <> OutOfFuel.
Proof.
  intros Hlog.
  induction m as [|m IH]; intros c n Hm Hn.
  - exists 1%nat. cbn [v4_block_steps].
    destruct (Z.gtb_spec c 0); [lia|]. discriminate.
  - destruct (Z_le_gt_dec c 0) as [Hz|Hpos].
    { exists 1%nat. cbn [v4_block_steps].
      destruct (Z.gtb_spec c 0); [lia|]. discriminate. }
    pose proof (Hlog c ltac:(lia)) as Hl.
    set (F := Z.to_nat (33 - (32 - int_log2 c))).
    destruct (find_prefix_size_total n F (32 - int_log2 c)) as [p Hf];
      [lia|reflexivity|].
    pose proof (find_prefix_size_range _ _ _ _ Hf) as (Hp & Hu & _).
    destruct (ip_addr_add (IPv4Address n) (used_addrcount_of p))
      as [a'|] eqn:Ha.
    + destruct (ip_addr_add_v4 _ _ _ Ha) as [-> Hr].
      destruct (IH (c - used_addrcount_of p) (n + used_addrcount_of p))
        as [fuel1 H1]; [lia|lia|].
      exists (S (Nat.max F fuel1)). cbn [v4_block_steps].
      destruct (Z.gtb_spec c 0); [|lia].
      rewrite (find_prefix_size_mono F _ (Nat.max F fuel1) _ _ Hf) by lia.
      rewrite Ha.
      rewrite (v4_block_steps_mono fuel1 (Nat.max F fuel1) _ _ H1) by lia.
      destruct (v4_block_steps fuel1 _ _). exact H1.
    + exists (S F). cbn [v4_block_steps].
      destruct (Z.gtb_spec c 0); [|lia].
      rewrite Hf, Ha. discriminate.
Qed.

(** ** The size of a block *)

Lemma pow2_le_log2 (k c : Z) : 0 <= k -> 2 ^ k <= c -> k <= Z.log2 c.
Proof.
  intros Hk Hc. apply Z.log2_le_pow2; [|assumption].
  assert (0 < 2 ^ k) by (apply Z.pow_pos_nonneg; lia). lia.
Qed.

Lemma find_prefix_size_maximal :
  log_exact ->
  forall fuel n c p,
    1 <= c ->
    find_prefix_size fuel (IPv4Address n) (32 - int_log2 c) = Some p ->
    used_addrcount_of p <= c
    /\ (used_addrcount_of p | n)
    /\ forall k, 0 <= k -> 2 ^ k <= c -> 2 ^ k <= 2 ^ 32 -> (2 ^ k | n) ->
                 2 ^ k <= used_addrcount_of p.
Proof.
  intros [Hex Hbig] fuel n c p Hc Hf.
  pose proof (find_prefix_size_sound _ _ _ _ Hf) as (Hge & Hok & Hmin).
  pose proof (find_prefix_size_range _ _ _ _ Hf) as (Hp & Hu & Hmod).
  cbn [addr_int] in Hmod.
  assert (Hlog : 32 - p <= int_log2 c) by lia.
  split; [|split].
  - destruct (Z_lt_ge_dec c (2 ^ 32)) as [Hlt|Hge32]; [|lia].
    rewrite Hex in Hlog by lia.
    unfold used_addrcount_of.
    transitivity (2 ^ Z.log2 c); [apply Z.pow_le_mono_r; lia|].
    apply Z.log2_spec. lia.
  - apply Z.mod_divide; [lia|assumption].
  - intros k Hk Hkc Hk32 Hdiv.
    assert (k <= 32) by (apply (Z.pow_le_mono_r_iff 2); lia).
    unfold used_addrcount_of. apply Z.pow_le_mono_r; [lia|].
    destruct (Z_le_gt_dec k (32 - p)) as [|Hgt]; [assumption|exfalso].
    assert (Hq : 32 - int_log2 c <= 32 - k < p).
    { split; [|lia].
      destruct (Z_lt_ge_dec c (2 ^ 32)) as [Hlt|Hge32].
      - rewrite Hex by lia. pose proof (pow2_le_log2 k c Hk Hkc). lia.
      - pose proof (Hbig c ltac:(lia)). lia. }
    specialize (Hmin _ Hq).
    assert (Ht : IPv4Network_ok (IPv4Address n) (32 - k) = true).
    { apply IPv4Network_ok_spec. split; [lia|].
      replace (32 - (32 - k)) with k by lia.
      apply Z.mod_divide; [|assumption].
      assert (0 < 2 ^ k) by (apply Z.pow_pos_nonneg; lia). lia. }
    congruence.
Qed.

(** ** The decomposition beyond the address space *)

Lemma aligned_block_fits (n p : Z) :
  0 <= p <= 32 -> 0 <= n < 2 ^ 32 -> n mod used_addrcount_of p = 0 ->
  n + used_addrcount_of p <= 2 ^ 32.
Proof.
  unfold used_addrcount_of. intros Hp Hn Hm.
  assert (Hu : 0 < 2 ^ (32 - p)) by (apply Z.pow_pos_nonneg; lia).
  assert (Hs : 2 ^ 32 = 2 ^ (32 - p) * 2 ^ p).
  { rewrite <- Z.pow_add_r by lia. f_equal. lia. }
  apply Z.mod_divide in Hm; [|lia]. destruct Hm as [q Hq].
  assert (0 < 2 ^ p) by (apply Z.pow_pos_nonneg; lia).
  assert (q < 2 ^ p) by nia.
  nia.
Qed.

Lemma v4_block_steps_raised (fuel : nat) :
  forall a c e,
    snd (v4_block_steps fuel a c) = Raised e ->
    e = AddressValueError /\ fst (v4_block_steps fuel a c) <> [].
Proof.
  induction fuel as [|fuel IH]; intros a c e; cbn [v4_block_steps];
    [discriminate|].
  destruct (c >? 0); [|discriminate].
  destruct (find_prefix_size fuel a (32 - int_log2 c)) as [p|];
    [|discriminate].
  destruct (ip_addr_add a (used_addrcount_of p)) as [a'|].
  - specialize (IH a' (c - used_addrcount_of p) e).
    destruct (v4_block_steps fuel a' (c - used_addrcount_of p)) as [l res].
    cbn [fst snd] in *. intros E. split; [apply IH; exact E|discriminate].
  - cbn [fst snd]. intros E. injection E as <-.
    split; [reflexivity|discriminate].
Qed.

(** A block that reaches the end of the address space is decomposed up to
    that end, and then the address cannot be advanced. *)
Lemma v4_block_steps_to_the_end :
  log_not_above ->
  forall fuel n c,
    0 <= n < 2 ^ 32 -> 2 ^ 32 <= n + c ->
    snd (v4_block_steps fuel (IPv4Address n) c) <> OutOfFuel ->
    tiles n (2 ^ 32) (fst (v4_block_steps fuel (IPv4Address n) c)) /\
    snd (v4_block_steps fuel (IPv4Address n) c) = Raised AddressValueError.
Proof.
  intros Hlog.
  induction fuel as [|fuel IH]; intros n c Hn Hc; cbn [v4_block_steps];
    [cbn [snd]; congruence|].
  destruct (Z.gtb_spec c 0) as [Hpos|]; [|lia].
  destruct (find_prefix_size fuel (IPv4Address n) (32 - int_log2 c))
    as [p|] eqn:Hf; [|cbn [snd]; congruence].
  pose proof (find_prefix_size_range _ _ _ _ Hf) as (Hp & Hu & Hmod).
  cbn [addr_int] in Hmod.
  pose proof (aligned_block_fits n p Hp Hn Hmod) as Hfit.
  destruct (ip_addr_add (IPv4Address n) (used_addrcount_of p))
    as [a'|] eqn:Ha.
  - destruct (ip_addr_add_v4 _ _ _ Ha) as [-> Hr].
    specialize (IH (n + used_addrcount_of p) (c - used_addrcount_of p)).
    destruct (v4_block_steps fuel (IPv4Address (n + used_addrcount_of p))
                (c - used_addrcount_of p)) as [l res].
    cbn [fst snd] in *. intros Hne.
    destruct IH as [IHt IHr]; [lia|lia|assumption|].
    split; [|assumption].
    simpl. unfold step_hi, step_lo, step_used.
    cbn [step_addr step_size addr_int]. repeat split; [lia|assumption].
  - cbn [fst snd]. intros _. split; [|reflexivity].
    assert (n + used_addrcount_of p = 2 ^ 32).
    { cbn [ip_addr_add] in Ha.
      destruct (Z.leb_spec 0 (n + used_addrcount_of p)); [|lia].
      destruct (Z.ltb_spec (n + used_addrcount_of p) (2 ^ 32));
        [discriminate|lia]. }
    simpl. unfold step_hi, step_lo, step_used.
    cbn [step_addr step_size addr_int]. repeat split; lia.
Qed.

Lemma add_v4_block_to_radix_steps (fuel : nat) (t : Radix) (addr : string)
    (a : ip_addr) (c : Z) (pinfo : prefix_info) :
  ip_address addr = Some a ->
  exists t' out,
    add_v4_block_to_radix fuel t addr c pinfo =
      (t', out, snd (v4_block_steps fuel a c))
    /\ add_prefixes t (map (step_call pinfo) (fst (v4_block_steps fuel a c)))
       = (t', out, Returned)
    /\ t' = attach_all t (map (step_op pinfo) (fst (v4_block_steps fuel a c))).
Proof.
  intros Ha. unfold add_v4_block_to_radix. rewrite Ha.
  rewrite add_v4_block_loop_steps.
  pose proof (v4_block_steps_valid fuel a c) as Hv.
  destruct (v4_block_steps fuel a c) as [steps res]. cbn [fst snd] in *.
  destruct (add_prefixes_steps pinfo _ Hv t) as [out Hout].
  rewrite Hout. eauto.
Qed.

(** ** The claims on the decomposition *)

(** C1, amended.  For an IPv4 start address and a count above zero whose
    block ends within the address space, the calls that
    [add_v4_block_to_radix] makes to [add_prefix_to_radix] are those of a
    list of prefixes whose ranges cover the block exactly: an address lies
    in the block if and only if it lies in one of the ranges, a range that
    comes earlier ends where or before a later one starts, and each range is
    a non-empty aligned prefix.  The call returns when the block ends below
    the top of the address space. *)
Theorem v4_block_exact_coverage :
  log_not_above ->
  forall fuel v4radix addr n count pinfo,
    ip_address addr = Some (IPv4Address n) ->
    0 <= n -> 0 < count -> n + count <= 2 ^ 32 ->
    (Z.to_nat count < fuel)%nat ->
    exists steps t' out res,
      add_v4_block_to_radix fuel v4radix addr count pinfo = (t', out, res)
      /\ (n + count < 2 ^ 32 -> res = Returned)
      /\ add_prefixes v4radix (map (step_call pinfo) steps)
         = (t', out, Returned)
      /\ (forall x, n <= x < n + count <->
                    exists s, In s steps /\ step_lo s <= x < step_hi s)
      /\ (forall i j s s',
            nth_error steps i = Some s -> nth_error steps j = Some s' ->
            (i < j)%nat -> step_hi s <= step_lo s')
      /\ Forall (fun s => IPv4Network_ok (step_addr s) (step_size s) = true
                          /\ step_lo s < step_hi s) steps.
Proof.
  intros Hlog fuel t addr n c pinfo Ha Hn Hc Hsum Hfuel.
  destruct (add_v4_block_to_radix_steps fuel t addr _ c pinfo Ha)
    as (t' & out & Hrun & Hcalls & _).
  destruct (v4_block_steps_tiles Hlog fuel n c) as [Ht Hr]; try lia.
  pose proof (v4_block_steps_valid fuel (IPv4Address n) c) as Hv.
  exists (fst (v4_block_steps fuel (IPv4Address n) c)), t', out,
    (snd (v4_block_steps fuel (IPv4Address n) c)).
  split; [exact Hrun|].
  split; [|split; [exact Hcalls|split; [|split]]].
  - intros Hlt. rewrite Hr.
    destruct (Z.eqb_spec (n + c) (2 ^ 32)); [lia|].
    rewrite andb_false_r. reflexivity.
  - apply (tiles_cover _ _ _ Ht).
  - apply (tiles_ascending _ _ _ Ht).
  - pose proof (tiles_bounds _ _ _ Ht) as [_ Hb].
    rewrite Forall_forall in *. intros s Hs.
    split; [apply Hv; assumption|]. apply (Hb s Hs).
Qed.

(** The first iteration: with a count of at least one and enough fuel for
    the alignment search, the trace starts with a step at the given address
    and count. *)
Lemma v4_block_steps_first (fuel : nat) (n c : Z) :
  1 <= c -> 0 <= int_log2 c -> (Z.to_nat (int_log2 c + 1) < fuel)%nat ->
  exists s rest,
    fst (v4_block_steps fuel (IPv4Address n) c) = s :: rest
    /\ step_addr s = IPv4Address n /\ step_count s = c.
Proof.
  intros Hc Hlog Hfuel. destruct fuel as [|fuel]; [lia|].
  cbn [v4_block_steps]. destruct (Z.gtb_spec c 0); [|lia].
  destruct (find_prefix_size_total n fuel (32 - int_log2 c)) as [p Hp];
    [lia|lia|].
  rewrite Hp.
  destruct (ip_addr_add (IPv4Address n) (used_addrcount_of p)) as [a'|].
  - destruct (v4_block_steps fuel a' (c - used_addrcount_of p)) as [l res].
    cbn [fst]. eauto.
  - cbn [fst]. eauto.
Qed.

(** C2, amended.  The calls that [add_v4_block_to_radix] makes to
    [add_prefix_to_radix] are those of a list of steps, one per iteration,
    which starts at the given address and count (and is not empty when the
    count is at least one and the bound on the iterations lets the first
    alignment search end), in which each iteration hands on the address
    advanced by its block and the count reduced by it.  At every step the
    block size is a power of two that does not exceed the remaining count
    and divides the current address, and it is the largest such size of a
    CIDR block: every power of two up to [2 ^ 32] with these two properties
    is at most the block size. *)
Theorem v4_block_step_is_greedy :
  log_exact ->
  forall fuel v4radix addr n count pinfo,
    ip_address addr = Some (IPv4Address n) ->
    exists steps t' out res,
      add_v4_block_to_radix fuel v4radix addr count pinfo = (t', out, res)
      /\ add_prefixes v4radix (map (step_call pinfo) steps)
         = (t', out, Returned)
      /\ trace_from n count steps
      /\ (1 <= count -> (Z.to_nat (int_log2 count + 1) < fuel)%nat ->
          exists s rest,
            steps = s :: rest /\ step_lo s = n /\ step_count s = count)
      /\ Forall
           (fun s =>
              step_used s = 2 ^ (32 - step_size s)
              /\ 0 <= step_size s <= 32
              /\ step_used s <= step_count s
              /\ (step_used s | step_lo s)
              /\ forall k, 0 <= k -> 2 ^ k <= step_count s ->
                           2 ^ k <= 2 ^ 32 -> (2 ^ k | step_lo s) ->
                           2 ^ k <= step_used s)
           steps.
Proof.
  intros Hlog fuel t addr n c pinfo Ha.
  destruct (add_v4_block_to_radix_steps fuel t addr _ c pinfo Ha)
    as (t' & out & Hrun & Hcalls & _).
  exists (fst (v4_block_steps fuel (IPv4Address n) c)), t', out,
    (snd (v4_block_steps fuel (IPv4Address n) c)).
  split; [exact Hrun|]. split; [exact Hcalls|].
  split; [apply (v4_block_steps_trace fuel (IPv4Address n) c)|].
  split.
  - intros Hc Hfuel.
    assert (H0 : 0 <= int_log2 c).
    { destruct Hlog as [Hex Hbig].
      destruct (Z_lt_ge_dec c (2 ^ 32)) as [Hlt|Hge].
      - rewrite Hex by lia. apply Z.log2_nonneg.
      - specialize (Hbig c ltac:(lia)). lia. }
    destruct (v4_block_steps_first fuel n c Hc H0 Hfuel)
      as (s & rest & Hs & Hsa & Hsc).
    exists s, rest. unfold step_lo. rewrite Hsa. auto.
  - pose proof (v4_block_steps_found fuel (IPv4Address n) c) as Hf.
    pose proof (v4_block_steps_valid fuel (IPv4Address n) c) as Hv.
    rewrite Forall_forall in *. intros s Hs.
    destruct (Hf s Hs) as (Hc & f & Hfind).
    destruct (IPv4Network_ok_v4 _ _ (Hv s Hs)) as [a Ha'].
    unfold step_used, step_lo. rewrite Ha' in *. cbn [addr_int].
    pose proof (find_prefix_size_range _ _ _ _ Hfind) as (Hp & _ & _).
    destruct (find_prefix_size_maximal Hlog f a _ _ Hc Hfind)
      as (H1 & H2 & H3).
    repeat split; try assumption; lia.
Qed.


(** C5, amended.  A call of [add_v4_block_to_radix] that raises does not
    take back what it has inserted.  Either the start address could not be
    read, and then nothing was inserted; or the address left the address
    space, and then the tree holds, next to what it held before, one entry
    for each of the prefixes (at least one) emitted before the failure.  An
    exception met while the files are parsed ends the run of [main] with no
    row written. *)
Theorem add_v4_block_failure_keeps_fragments :
  forall fuel v4radix addr count pinfo t' out e,
    add_v4_block_to_radix fuel v4radix addr count pinfo
    = (t', out, Raised e) ->
    ((ip_address addr = None /\ e = ValueError /\ t' = v4radix)
     \/ (exists a steps,
           ip_address addr = Some a /\ e = AddressValueError
           /\ steps = fst (v4_block_steps fuel a count)
           /\ steps <> []
           /\ add_prefixes v4radix (map (step_call pinfo) steps)
              = (t', out, Returned)
           /\ Permutation (entries t')
                (entries v4radix ++ map (step_op pinfo) steps)))
    /\ (forall files st out',
          parse_files fuel files empty_tries = (st, out', Raised e) ->
          merge_files fuel files = (([], []), Raised e)).
Proof.
  intros fuel t addr c pinfo t' out e Hrun. split.
  - destruct (ip_address addr) as [a|] eqn:Ha.
    + right.
      destruct (add_v4_block_to_radix_steps fuel t addr a c pinfo Ha)
        as (t2 & out2 & Hrun2 & Hcalls & Ht2).
      rewrite Hrun in Hrun2. injection Hrun2 as <- <- Hres.
      destruct (v4_block_steps_raised fuel a c e (eq_sym Hres)) as [-> Hne].
      exists a, (fst (v4_block_steps fuel a c)).
      repeat split; try assumption; try reflexivity.
      rewrite Ht2. apply entries_attach_all.
    + left. unfold add_v4_block_to_radix in Hrun. rewrite Ha in Hrun.
      injection Hrun as <- <- <-. auto.
  - intros files st out' Hp. unfold merge_files. rewrite Hp. reflexivity.
Qed.

(** C6, amended.  For an IPv4 record whose block extends past the end of the
    address space the call raises, with the error of the address addition
    and not of a validation of the record, after it has inserted the
    prefixes (at least one) that cover the block from its start to the end
    of the address space. *)
Theorem add_v4_block_past_space_raises :
  log_nonneg -> log_not_above ->
  forall v4radix addr n count pinfo,
    ip_address addr = Some (IPv4Address n) ->
    0 <= n < 2 ^ 32 -> 2 ^ 32 < n + count ->
    exists fuel0 steps t' out,
      (forall fuel, (fuel0 <= fuel)%nat ->
         add_v4_block_to_radix fuel v4radix addr count pinfo
         = (t', out, Raised AddressValueError))
      /\ add_prefixes v4radix (map (step_call pinfo) steps)
         = (t', out, Returned)
      /\ steps <> []
      /\ (forall x, n <= x < 2 ^ 32 <->
                    exists s, In s steps /\ step_lo s <= x < step_hi s).
Proof.
  intros Hnn Hlog t addr n c pinfo Ha Hn Hc.
  destruct (v4_block_steps_ends Hnn (Z.to_nat c) c n (le_n _) Hn)
    as [fuel0 Hend].
  destruct (v4_block_steps_to_the_end Hlog fuel0 n c Hn ltac:(lia) Hend)
    as [Ht Hr].
  destruct (add_v4_block_to_radix_steps fuel0 t addr _ c pinfo Ha)
    as (t' & out & Hrun & Hcalls & _).
  exists fuel0, (fst (v4_block_steps fuel0 (IPv4Address n) c)), t', out.
  split; [|split; [exact Hcalls|split]].
  - intros fuel Hle.
    unfold add_v4_block_to_radix in *. rewrite Ha in *.
    rewrite add_v4_block_loop_steps in *.
    rewrite (v4_block_steps_mono fuel0 fuel _ _ Hend Hle).
    rewrite Hrun. rewrite Hr. reflexivity.
  - intros E. rewrite E in Ht. simpl in Ht. lia.
  - apply (tiles_cover _ _ _ Ht).
Qed.

(** ** Lines, files and the attachments they make *)

Lemma attach_all_app (ops ops' : list (key * prefix_info)) (t : Radix) :
  attach_all t (ops ++ ops') = attach_all (attach_all t ops) ops'.
Proof. apply fold_left_app. Qed.

Lemma attached_nil (st : tries) : attached st [] [] = st.
Proof. destruct st; reflexivity. Qed.

Lemma attached_app (st : tries) (a4 a6 b4 b6 : list (key * prefix_info)) :
  attached (attached st a4 a6) b4 b6 = attached st (a4 ++ b4) (a6 ++ b6).
Proof. unfold attached. simpl. rewrite !attach_all_app. reflexivity. Qed.

Lemma outcome_eq_dec (x y : outcome) : {x = y} + {x <> y}.
Proof. repeat decide equality. Qed.

(** A line changes the trees by its attachments and ends as [line_ops]
    says, whatever the trees hold. *)
Lemma parse_line_ops (fuel : nat) (st : tries) (line : string) :
  exists out,
    parse_line fuel st line =
      (attached st (line_ops4 fuel line) (line_ops6 fuel line), out,
       snd (line_ops fuel line)).
Proof.
  unfold parse_line, line_ops4, line_ops6, line_ops, ingest_fields.
  destruct (skipped (line_fields line)).
  { exists []. rewrite attached_nil. reflexivity. }
  destruct (py_int (field (line_fields line) 4)) as [n|].
  2:{ exists []. rewrite attached_nil. reflexivity. }
  destruct (String.eqb (field (line_fields line) 2) "ipv4").
  - unfold add_v4_block_to_radix.
    destruct (ip_address (field (line_fields line) 3)) as [a|].
    + destruct (add_v4_block_loop_attach
                  (line_info (line_fields line) n) fuel (v4radix st) a n)
        as [out ->].
      destruct (v4_block_steps fuel a n) as [steps res].
      exists out. destruct st; reflexivity.
    + exists []. destruct st; reflexivity.
  - destruct (String.eqb (field (line_fields line) 2) "ipv6").
    2:{ exists []. rewrite attached_nil. reflexivity. }
    destruct (ip_address (field (line_fields line) 3)) as [a|].
    2:{ exists []. rewrite attached_nil. reflexivity. }
    destruct (radix_key (a, n)) as [k|] eqn:Hk.
    + rewrite (add_prefix_to_radix_attach _ _ _ _ Hk). eexists.
      destruct st; reflexivity.
    + rewrite (add_prefix_to_radix_invalid _ _ _ Hk). exists [].
      destruct st; reflexivity.
Qed.

Lemma parse_nro_stats_ops (fuel : nat) (fd : list string) :
  forall st,
    (file_ok fuel fd /\
     exists out,
       parse_nro_stats fuel fd st =
         (attached st (file_ops4 fuel fd) (file_ops6 fuel fd), out, Returned))
    \/ (~ file_ok fuel fd /\ snd (parse_nro_stats fuel fd st) <> Returned).
Proof.
  induction fd as [|line fd IH]; intros st.
  - left. split; [constructor|]. exists []. simpl. rewrite attached_nil.
    reflexivity.
  - cbn [parse_nro_stats].
    destruct (parse_line_ops fuel st line) as [out1 ->].
    destruct (outcome_eq_dec (snd (line_ops fuel line)) Returned) as [Hl|Hl].
    + rewrite Hl.
      destruct (IH (attached st (line_ops4 fuel line) (line_ops6 fuel line)))
        as [[Hok [out2 Hrun]]|[Hbad Hrun]].
      * left. split; [constructor; assumption|].
        rewrite Hrun. rewrite attached_app. eexists. reflexivity.
      * right. split.
        { intros H. inversion H; subst. contradiction. }
        destruct (parse_nro_stats fuel fd _) as [[st2 out2] res].
        exact Hrun.
    + right. split.
      { intros H. inversion H; subst. contradiction. }
      destruct (snd (line_ops fuel line)); [congruence| |]; cbn [snd];
        discriminate.
Qed.

Lemma parse_files_ops (fuel : nat) (files : list (list string)) :
  forall st,
    (Forall (file_ok fuel) files /\
     exists out,
       parse_files fuel files st =
         (attached st (files_ops4 fuel files) (files_ops6 fuel files), out,
          Returned))
    \/ (~ Forall (file_ok fuel) files
        /\ snd (parse_files fuel files st) <> Returned).
Proof.
  induction files as [|fd files IH]; intros st.
  - left. split; [constructor|]. exists []. simpl. rewrite attached_nil.
    reflexivity.
  - cbn [parse_files].
    destruct (parse_nro_stats_ops fuel fd st)
      as [[Hok [out1 Hrun1]]|[Hbad Hrun1]].
    + rewrite Hrun1.
      destruct (IH (attached st (file_ops4 fuel fd) (file_ops6 fuel fd)))
        as [[Hoks [out2 Hrun]]|[Hbads Hrun]].
      * left. split; [constructor; assumption|].
        rewrite Hrun. rewrite attached_app. eexists. reflexivity.
      * right. split.
        { intros H. inversion H; subst. contradiction. }
        destruct (parse_files fuel files _) as [[st2 out2] res].
        exact Hrun.
    + right. split.
      { intros H. inversion H; subst. contradiction. }
      destruct (parse_nro_stats fuel fd st) as [[st1 out1] res].
      cbn [snd] in *. destruct res; [congruence| |]; cbn [snd]; discriminate.
Qed.

(** ** Writing the rows *)

Lemma search_exact_radix_iter (t : Radix) :
  forall k d, In (k, d) (radix_iter t) -> search_exact t k = Some d.
Proof.
  induction t as [|d0 z IHz o IHo]; intros k d H; simpl in H; [contradiction|].
  rewrite !in_app_iff, !in_map_iff in H.
  destruct H as [H|[(e & He & Hin)|(e & He & Hin)]].
  - destruct d0 as [x|]; [|contradiction].
    destruct H as [H|[]]. injection H as <- <-. reflexivity.
  - destruct e as [k' d']. unfold at_bit in He. injection He as <- <-.
    simpl. apply IHz. assumption.
  - destruct e as [k' d']. unfold at_bit in He. injection He as <- <-.
    simpl. apply IHo. assumption.
Qed.

Lemma node_entries_at_bit (b : bool) (l : list (key * rnode_data)) :
  flat_map node_entries (map (at_bit b) l)
  = map (under_bit b) (flat_map node_entries l).
Proof.
  induction l as [|e l IH]; simpl; [reflexivity|].
  rewrite map_app, IH. f_equal.
  unfold node_entries. rewrite map_map. reflexivity.
Qed.

Lemma entries_radix_iter (t : Radix) :
  entries t = flat_map node_entries (radix_iter t).
Proof.
  induction t as [|d z IHz o IHo]; simpl; [reflexivity|].
  rewrite !flat_map_app, !node_entries_at_bit, <- IHz, <- IHo.
  f_equal. destruct d as [x|]; simpl; [|reflexivity].
  rewrite app_nil_r. reflexivity.
Qed.

Lemma rows_of_app fmt (es es' : list (key * prefix_info)) :
  rows_of fmt (es ++ es') = rows_of fmt es ++ rows_of fmt es'.
Proof.
  induction es as [|e es IH]; simpl; [reflexivity|].
  destruct (fmt (fst e) (snd e)); rewrite IH; reflexivity.
Qed.

Lemma write_infos_ok fmt (k : key) (l : list prefix_info) :
  Forall (fun i => fmt k i <> None) l ->
  write_infos fmt k l = (rows_of fmt (map (pair k) l), Returned).
Proof.
  induction 1 as [|i l Hi _ IH]; simpl; [reflexivity|].
  destruct (fmt k i); [|congruence]. rewrite IH. reflexivity.
Qed.

Lemma write_nodes_ok fmt (nodes : list (key * rnode_data)) :
  Forall (fun e => exists l, info (snd e) = Some l
                             /\ Forall (fun i => fmt (fst e) i <> None) l)
         nodes ->
  write_nodes fmt nodes = (rows_of fmt (flat_map node_entries nodes), Returned).
Proof.
  induction 1 as [|[k d] nodes (l & Hl & Hf) _ IH]; simpl; [reflexivity|].
  cbn [fst snd] in *. rewrite rows_of_app.
  unfold node_entries at 1, node_infos. cbn [fst snd]. rewrite Hl.
  rewrite (write_infos_ok fmt k l Hf). rewrite IH. reflexivity.
Qed.

Lemma write_rows_ok fmt (t : Radix) :
  tree_ok fmt t -> write_rows fmt t = (rows_of fmt (entries t), Returned).
Proof.
  intros Hok. unfold write_rows. rewrite entries_radix_iter.
  apply write_nodes_ok. rewrite Forall_forall. intros [k d] Hin.
  apply (Hok k d). apply search_exact_radix_iter. assumption.
Qed.

Lemma tree_ok_Leaf fmt : tree_ok fmt Leaf.
Proof. intros k d H. discriminate. Qed.

Lemma tree_ok_attach fmt (t : Radix) (op : key * prefix_info) :
  tree_ok fmt t -> fmt (fst op) (snd op) <> None -> tree_ok fmt (attach t op).
Proof.
  intros Hok Hop k d. unfold attach.
  destruct (key_eqb_spec (fst op) k) as [<-|Hne].
  - rewrite search_exact_alter_same. intros H. injection H as <-.
    eexists. split; [reflexivity|].
    apply Forall_app. split; [|constructor; [assumption|constructor]].
    destruct (search_exact t (fst op)) as [d|] eqn:Hs; [|constructor].
    destruct (Hok _ _ Hs) as (l & Hl & Hf). simpl. rewrite Hl. assumption.
  - rewrite search_exact_alter_other by assumption. apply Hok.
Qed.

Lemma tree_ok_attach_all fmt (ops : list (key * prefix_info)) :
  Forall (fun op => fmt (fst op) (snd op) <> None) ops ->
  forall t, tree_ok fmt t -> tree_ok fmt (attach_all t ops).
Proof.
  induction 1 as [|op ops Hop _ IH]; intros t Hok; simpl; [assumption|].
  apply IH. apply tree_ok_attach; assumption.
Qed.

Lemma rows_of_perm fmt (es es' : list (key * prefix_info)) :
  Permutation es es' -> Permutation (rows_of fmt es) (rows_of fmt es').
Proof.
  induction 1 as [|e l l' _ IH|e e' l|l l' l'' _ IH1 _ IH2]; simpl.
  - constructor.
  - destruct (fmt (fst e) (snd e)); [constructor|]; assumption.
  - destruct (fmt (fst e) (snd e)), (fmt (fst e') (snd e'));
      try reflexivity. constructor.
  - etransitivity; eassumption.
Qed.

Lemma rows_of_In fmt (es : list (key * prefix_info)) (r : row) :
  In r (rows_of fmt es) ->
  exists e, In e es /\ fmt (fst e) (snd e) = Some r.
Proof.
  induction es as [|e es IH]; simpl; [contradiction|].
  destruct (fmt (fst e) (snd e)) as [r'|] eqn:He.
  - intros [<-|H]; [eauto|]. destruct (IH H) as (e' & ? & ?). eauto.
  - intros H. destruct (IH H) as (e' & ? & ?). eauto.
Qed.

Lemma rows_of_keys (fmt : key -> prefix_info -> option row)
    (es : list (key * prefix_info)) :
  Forall (fun e => exists cells, fmt (fst e) (snd e) = Some (fst e, cells))
         es ->
  map fst (rows_of fmt es) = map fst es.
Proof.
  induction 1 as [|e es (cells & He) _ IH]; simpl; [reflexivity|].
  rewrite He. simpl. rewrite IH. reflexivity.
Qed.

(** ** The shape of the attachments of a line *)

(** An attachment to the IPv4 tree comes from an accepted [ipv4] line and a
    step of the decomposition of its block. *)
Lemma line_ops4_shape (fuel : nat) (line : string) (op : key * prefix_info) :
  In op (line_ops4 fuel line) ->
  exists n a s,
    skipped (line_fields line) = false
    /\ field (line_fields line) 2 = "ipv4"%string
    /\ py_int (field (line_fields line) 4) = Some n
    /\ ip_address (field (line_fields line) 3) = Some a
    /\ In s (fst (v4_block_steps fuel a n))
    /\ op = step_op (line_info (line_fields line) n) s.
Proof.
  unfold line_ops4, line_ops.
  destruct (skipped (line_fields line)) eqn:Hsk; [contradiction|].
  destruct (py_int (field (line_fields line) 4)) as [n|]; [|contradiction].
  destruct (String.eqb_spec (field (line_fields line) 2) "ipv4") as [H4|H4].
  - destruct (ip_address (field (line_fields line) 3)) as [a|];
      [|contradiction].
    destruct (v4_block_steps fuel a n) as [steps res] eqn:Hst.
    cbn [fst snd]. rewrite in_map_iff. intros (s & <- & Hin).
    exists n, a, s. rewrite Hst. auto 10.
  - destruct (String.eqb (field (line_fields line) 2) "ipv6");
      [|contradiction].
    destruct (ip_address (field (line_fields line) 3)) as [a|];
      [|contradiction].
    destruct (radix_key (a, n)); contradiction.
Qed.

(** An attachment to the IPv6 tree comes from an accepted [ipv6] line. *)
Lemma line_ops6_shape (fuel : nat) (line : string) (op : key * prefix_info) :
  In op (line_ops6 fuel line) ->
  exists n a k,
    skipped (line_fields line) = false
    /\ field (line_fields line) 2 = "ipv6"%string
    /\ py_int (field (line_fields line) 4) = Some n
    /\ ip_address (field (line_fields line) 3) = Some a
    /\ radix_key (a, n) = Some k
    /\ op = (k, line_info (line_fields line) n).
Proof.
  unfold line_ops6, line_ops.
  destruct (skipped (line_fields line)) eqn:Hsk; [contradiction|].
  destruct (py_int (field (line_fields line) 4)) as [n|]; [|contradiction].
  destruct (String.eqb_spec (field (line_fields line) 2) "ipv4") as [H4|H4].
  - destruct (ip_address (field (line_fields line) 3)) as [a|];
      [|contradiction].
    destruct (v4_block_steps fuel a n) as [steps res]. contradiction.
  - destruct (String.eqb_spec (field (line_fields line) 2) "ipv6") as [H6|H6];
      [|contradiction].
    destruct (ip_address (field (line_fields line) 3)) as [a|];
      [|contradiction].
    destruct (radix_key (a, n)) as [k|] eqn:Hk; [|contradiction].
    cbn [fst snd]. intros [<-|[]]. exists n, a, k. auto 10.
Qed.

Lemma files_ops4_In (fuel : nat) (files : list (list string))
    (op : key * prefix_info) :
  In op (files_ops4 fuel files) ->
  exists fd line, In fd files /\ In line fd /\ In op (line_ops4 fuel line).
Proof.
  unfold files_ops4, file_ops4. rewrite in_flat_map.
  intros (fd & Hfd & H). rewrite in_flat_map in H.
  destruct H as (line & Hl & H). eauto.
Qed.

Lemma files_ops6_In (fuel : nat) (files : list (list string))
    (op : key * prefix_info) :
  In op (files_ops6 fuel files) ->
  exists fd line, In fd files /\ In line fd /\ In op (line_ops6 fuel line).
Proof.
  unfold files_ops6, file_ops6. rewrite in_flat_map.
  intros (fd & Hfd & H). rewrite in_flat_map in H.
  destruct H as (line & Hl & H). eauto.
Qed.

Lemma v4_row_step_op (fields : list string) (n : Z) (s : block_step) :
  v4_row (fst (step_op (line_info fields n) s))
    (snd (step_op (line_info fields n) s)) =
    Some (step_key s,
          [PyStr (field fields 0); PyStr (field fields 5);
           PyStr (field fields 1); PyStr (field fields 6);
           PyStr (field fields 3); PyInt n]).
Proof. reflexivity. Qed.

Lemma v6_row_line_info (k : key) (fields : list string) (n : Z) :
  v6_row k (line_info fields n) =
    Some (k, [PyStr (field fields 0); PyStr (field fields 5);
              PyStr (field fields 1); PyStr (field fields 6)]).
Proof. reflexivity. Qed.

Lemma files_ops4_rows (fuel : nat) (files : list (list string)) :
  Forall (fun e => exists cells, v4_row (fst e) (snd e) = Some (fst e, cells))
         (files_ops4 fuel files).
Proof.
  rewrite Forall_forall. intros op Hin.
  destruct (files_ops4_In _ _ _ Hin) as (fd & line & _ & _ & Hop).
  destruct (line_ops4_shape _ _ _ Hop) as (n & a & s & _ & _ & _ & _ & _ & ->).
  eexists. apply v4_row_step_op.
Qed.

Lemma files_ops6_rows (fuel : nat) (files : list (list string)) :
  Forall (fun e => exists cells, v6_row (fst e) (snd e) = Some (fst e, cells))
         (files_ops6 fuel files).
Proof.
  rewrite Forall_forall. intros op Hin.
  destruct (files_ops6_In _ _ _ Hin) as (fd & line & _ & _ & Hop).
  destruct (line_ops6_shape _ _ _ Hop) as (n & a & k & _ & _ & _ & _ & _ & ->).
  eexists. apply v6_row_line_info.
Qed.

Lemma rows_some_not_none (fmt : key -> prefix_info -> option row)
    (es : list (key * prefix_info)) :
  Forall (fun e => exists cells, fmt (fst e) (snd e) = Some (fst e, cells))
         es ->
  Forall (fun op => fmt (fst op) (snd op) <> None) es.
Proof.
  apply Forall_impl. intros e (cells & H). congruence.
Qed.

(** A run whose lines all parse writes the rows of the entries of the two
    trees; any other run writes none and does not return. *)
Lemma merge_files_rows (fuel : nat) (files : list (list string)) :
  (Forall (file_ok fuel) files /\
   merge_files fuel files =
     ((rows_of v4_row (entries (attach_all Leaf (files_ops4 fuel files))),
       rows_of v6_row (entries (attach_all Leaf (files_ops6 fuel files)))),
      Returned))
  \/ (~ Forall (file_ok fuel) files
      /\ snd (merge_files fuel files) <> Returned).
Proof.
  unfold merge_files.
  destruct (parse_files_ops fuel files empty_tries)
    as [[Hok [out Hrun]]|[Hbad Hrun]].
  - left. split; [assumption|]. rewrite Hrun.
    cbn [attached v4radix v6radix empty_tries].
    rewrite (write_rows_ok v4_row).
    2:{ apply tree_ok_attach_all; [|apply tree_ok_Leaf].
        apply rows_some_not_none, files_ops4_rows. }
    rewrite (write_rows_ok v6_row).
    2:{ apply tree_ok_attach_all; [|apply tree_ok_Leaf].
        apply rows_some_not_none, files_ops6_rows. }
    reflexivity.
  - right. split; [assumption|].
    destruct (parse_files fuel files empty_tries) as [[st out] res].
    cbn [snd] in Hrun. destruct res; [congruence| |]; cbn [snd]; discriminate.
Qed.

(** ** Keys of aligned prefixes *)

Lemma prefix_bits_length (w : nat) (n : Z) (len : nat) :
  List.length (prefix_bits w n len) = len.
Proof. unfold prefix_bits. rewrite length_map, length_seq. reflexivity. Qed.

(** Two aligned IPv4 prefixes with the same key are the same prefix. *)
Lemma aligned_key_inj (n n' p p' : Z) :
  0 <= p <= 32 -> 0 <= p' <= 32 ->
  0 <= n < 2 ^ 32 -> 0 <= n' < 2 ^ 32 ->
  n mod 2 ^ (32 - p) = 0 -> n' mod 2 ^ (32 - p') = 0 ->
  prefix_bits 32 n (Z.to_nat p) = prefix_bits 32 n' (Z.to_nat p') ->
  p = p' /\ n = n'.
Proof.
  intros Hp Hp' Hn Hn' Hm Hm' Hk.
  assert (Hpp : p = p').
  { apply (f_equal (@List.length bool)) in Hk.
    rewrite !prefix_bits_length in Hk. lia. }
  subst p'. split; [reflexivity|].
  assert (Hpow : 0 < 2 ^ (32 - p)) by (apply Z.pow_pos_nonneg; lia).
  apply Z.mod_divide in Hm; [|lia]. apply Z.mod_divide in Hm'; [|lia].
  destruct Hm as [q Hq]. destruct Hm' as [q' Hq'].
  apply Z.bits_inj'. intros i Hi.
  destruct (Z_lt_ge_dec i (32 - p)) as [Hlow|Hhigh].
  - rewrite Hq, Hq'. rewrite !Z.mul_pow2_bits_low by lia. reflexivity.
  - destruct (Z_lt_ge_dec i 32) as [Hin|Hout].
    + unfold prefix_bits in Hk.
      assert (Hj : In (Z.to_nat (31 - i)) (seq 0 (Z.to_nat p)))
        by (apply in_seq; lia).
      pose proof (ext_in_map Hk _ Hj) as Hb. unfold addr_bit in Hb.
      replace (Z.of_nat (32 - 1 - Z.to_nat (31 - i))) with i in Hb by lia.
      exact Hb.
    + assert (Hbig : 2 ^ 32 <= 2 ^ i) by (apply Z.pow_le_mono_r; lia).
      assert (Hz : forall m, 0 <= m < 2 ^ 32 -> Z.testbit m i = false).
      { intros m Hm. apply Z.testbit_false; [lia|].
        rewrite Z.div_small by lia. reflexivity. }
      rewrite (Hz n Hn), (Hz n' Hn'). reflexivity.
Qed.

Lemma v4_block_steps_in_space (fuel : nat) :
  forall n c,
    0 <= n < 2 ^ 32 ->
    Forall (fun s => 0 <= step_lo s < 2 ^ 32)
      (fst (v4_block_steps fuel (IPv4Address n) c)).
Proof.
  induction fuel as [|fuel IH]; intros n c Hn; cbn [v4_block_steps];
    [constructor|].
  destruct (c >? 0); [|constructor].
  destruct (find_prefix_size fuel (IPv4Address n) (32 - int_log2 c))
    as [p|]; [|constructor].
  destruct (ip_addr_add (IPv4Address n) (used_addrcount_of p))
    as [a'|] eqn:Ha.
  - destruct (ip_addr_add_v4 _ _ _ Ha) as [-> Hr].
    specialize (IH (n + used_addrcount_of p) (c - used_addrcount_of p) Hr).
    destruct (v4_block_steps fuel _ _) as [l res].
    cbn [fst] in *. constructor; assumption.
  - cbn [fst]. constructor; [assumption|constructor].
Qed.

Lemma trace_from_above (steps : list block_step) :
  forall a c,
    trace_from a c steps -> Forall (fun s => 1 <= step_used s) steps ->
    Forall (fun s => a <= step_lo s) steps.
Proof.
  induction steps as [|s steps IH]; intros a c Ht Hu; [constructor|].
  simpl in Ht. destruct Ht as (Hlo & _ & Hrest).
  inversion Hu as [|? ? Hs Hus]; subst.
  constructor; [lia|].
  eapply Forall_impl; [|apply (IH _ _ Hrest Hus)].
  simpl. intros; lia.
Qed.

(** The steps of a run that starts inside the address space have pairwise
    different keys. *)
Lemma v4_block_steps_keys (fuel : nat) (n c : Z) :
  0 <= n < 2 ^ 32 ->
  NoDup (map step_key (fst (v4_block_steps fuel (IPv4Address n) c))).
Proof.
  intros Hn.
  pose proof (v4_block_steps_trace fuel (IPv4Address n) c) as Ht.
  pose proof (v4_block_steps_valid fuel (IPv4Address n) c) as Hv.
  pose proof (v4_block_steps_in_space fuel n c Hn) as Hs.
  cbn [addr_int] in Ht.
  revert Ht Hv Hs.
  generalize (fst (v4_block_steps fuel (IPv4Address n) c)). clear Hn.
  revert c. generalize n. clear n.
  intros a c steps. revert a c.
  induction steps as [|s steps IH]; intros a c Ht Hv Hs; simpl;
    [constructor|].
  simpl in Ht. destruct Ht as (Hlo & _ & Hrest).
  inversion Hv as [|? ? Hvs Hvr]; subst.
  inversion Hs as [|? ? Hss Hsr]; subst.
  constructor; [|apply (IH _ _ Hrest Hvr Hsr)].
  intros Hin. rewrite in_map_iff in Hin. destruct Hin as (s' & Hk & Hin').
  assert (Hused : Forall (fun s => 1 <= step_used s) (s :: steps)).
  { eapply Forall_impl; [|exact Hv]. intros x Hx. cbv beta in Hx.
    destruct (IPv4Network_ok_v4 _ _ Hx) as [m Hm]. rewrite Hm in Hx.
    apply IPv4Network_ok_spec in Hx. unfold step_used, used_addrcount_of.
    assert (0 < 2 ^ (32 - step_size x))
      by (apply Z.pow_pos_nonneg; lia). lia. }
  inversion Hused as [|? ? Hu1 Hur]; subst.
  pose proof (trace_from_above _ _ _ Hrest Hur) as Habove.
  rewrite Forall_forall in Habove, Hvr, Hsr.
  specialize (Habove _ Hin'). specialize (Hvr _ Hin'). specialize (Hsr _ Hin').
  unfold step_key in Hk. injection Hk as Hk.
  destruct (IPv4Network_ok_v4 _ _ Hvs) as [m Hm].
  destruct (IPv4Network_ok_v4 _ _ Hvr) as [m' Hm'].
  unfold step_lo in *. rewrite Hm, Hm' in *. cbn [addr_int] in *.
  apply IPv4Network_ok_spec in Hvs, Hvr.
  destruct Hvs as [Hp Hmod]. destruct Hvr as [Hp' Hmod'].
  destruct (aligned_key_inj m' m _ _ Hp' Hp Hsr Hss Hmod' Hmod Hk) as [_ E].
  lia.
Qed.

(** ** The entries at a key *)

Lemma at_key_app (k : key) (ops ops' : list (key * prefix_info)) :
  at_key k (ops ++ ops') = at_key k ops ++ at_key k ops'.
Proof. unfold at_key. rewrite filter_app, map_app. reflexivity. Qed.

Lemma at_key_cons (k : key) (op : key * prefix_info)
    (ops : list (key * prefix_info)) :
  at_key k (op :: ops)
  = (if key_eqb (fst op) k then [snd op] else []) ++ at_key k ops.
Proof.
  unfold at_key. cbn [filter]. destruct (key_eqb (fst op) k); reflexivity.
Qed.

Lemma at_key_absent (k : key) (ops : list (key * prefix_info)) :
  ~ In k (map fst ops) -> at_key k ops = [].
Proof.
  induction ops as [|op ops IH]; intros Hn; [reflexivity|].
  rewrite at_key_cons. cbn [map In] in Hn.
  destruct (key_eqb_spec (fst op) k); [tauto|]. apply IH. tauto.
Qed.

Lemma node_infos_attach_all (k : key) (ops : list (key * prefix_info)) :
  forall t,
    node_infos (search_exact (attach_all t ops) k)
    = node_infos (search_exact t k) ++ at_key k ops.
Proof.
  induction ops as [|op ops IH]; intros t; simpl.
  - rewrite app_nil_r. reflexivity.
  - rewrite IH, node_infos_attach, <- app_assoc, at_key_cons. reflexivity.
Qed.

Lemma search_exact_attach_all_absent (k : key)
    (ops : list (key * prefix_info)) :
  forall t,
    ~ In k (map fst ops) ->
    search_exact (attach_all t ops) k = search_exact t k.
Proof.
  induction ops as [|op ops IH]; intros t Hn; simpl in *; [reflexivity|].
  rewrite IH by tauto. unfold attach.
  apply search_exact_alter_other. tauto.
Qed.

Lemma search_exact_attach_all_listed (k : key)
    (ops : list (key * prefix_info)) :
  forall t,
    (In k (map fst ops)
     \/ exists l, search_exact t k = Some {| info := Some l |}) ->
    exists l, search_exact (attach_all t ops) k = Some {| info := Some l |}.
Proof.
  induction ops as [|op ops IH]; intros t H; simpl in *.
  - destruct H as [[]|H]. exact H.
  - apply IH.
    destruct (key_eqb_spec (fst op) k) as [E|Hne].
    + right. unfold attach. rewrite E, search_exact_alter_same. eauto.
    + destruct H as [[E|Hin]|Hl]; [contradiction|auto|].
      right. unfold attach. rewrite search_exact_alter_other by assumption.
      exact Hl.
Qed.

Lemma search_exact_attach_all_some (k : key)
    (ops : list (key * prefix_info)) (t : Radix) :
  In k (map fst ops) ->
  search_exact (attach_all t ops) k
  = Some {| info := Some (node_infos (search_exact t k) ++ at_key k ops) |}.
Proof.
  intros Hin.
  destruct (search_exact_attach_all_listed k ops t (or_introl Hin)) as [l Hl].
  pose proof (node_infos_attach_all k ops t) as Hn.
  rewrite Hl in Hn. simpl in Hn. rewrite Hl, Hn. reflexivity.
Qed.

Lemma at_key_step (pinfo : prefix_info) (steps : list block_step)
    (s : block_step) :
  NoDup (map step_key steps) -> In s steps ->
  at_key (step_key s) (map (step_op pinfo) steps)
  = [pinfo ++ [PyInt (step_used s)]].
Proof.
  induction steps as [|s0 steps IH]; intros Hnd Hin; [contradiction|].
  cbn [map] in *. inversion Hnd as [|? ? Hnot Hnd']; subst.
  rewrite at_key_cons. unfold step_op at 1 2. cbn [fst snd].
  destruct Hin as [->|Hin].
  - destruct (key_eqb_spec (step_key s) (step_key s)); [|congruence].
    rewrite at_key_absent; [reflexivity|].
    rewrite map_map. exact Hnot.
  - destruct (key_eqb_spec (step_key s0) (step_key s)) as [E|_].
    + exfalso. apply Hnot. rewrite E. apply in_map. assumption.
    + apply IH; assumption.
Qed.

(** ** The warnings of a run of calls *)

Lemma add_prefixes_fresh (pinfo : prefix_info) (steps : list block_step) :
  Forall (fun s => IPv4Network_ok (step_addr s) (step_size s) = true) steps ->
  NoDup (map step_key steps) ->
  forall t,
    (forall s, In s steps -> search_exact t (step_key s) = None) ->
    add_prefixes t (map (step_call pinfo) steps)
    = (attach_all t (map (step_op pinfo) steps), [], Returned).
Proof.
  induction 1 as [|s steps Hs _ IH]; intros Hnd t Hfresh; simpl;
    [reflexivity|].
  inversion Hnd as [|? ? Hnot Hnd']; subst.
  rewrite (add_prefix_to_radix_attach t _ _ _ (step_prefix_key _ Hs)).
  rewrite (Hfresh s (or_introl eq_refl)).
  rewrite (IH Hnd').
  - reflexivity.
  - intros s' Hin. unfold attach. cbn [fst snd].
    rewrite search_exact_alter_other; [apply Hfresh; right; assumption|].
    intros E. apply Hnot. rewrite E. apply in_map. assumption.
Qed.

Lemma add_prefixes_present (pinfo : prefix_info) (steps : list block_step) :
  Forall (fun s => IPv4Network_ok (step_addr s) (step_size s) = true) steps ->
  forall t,
    (forall s, In s steps -> search_exact t (step_key s) <> None) ->
    add_prefixes t (map (step_call pinfo) steps)
    = (attach_all t (map (step_op pinfo) steps),
       map (fun s => Warning_already_in_radix (step_prefix s)) steps,
       Returned).
Proof.
  induction 1 as [|s steps Hs _ IH]; intros t Hthere; simpl;
    [reflexivity|].
  rewrite (add_prefix_to_radix_attach t _ _ _ (step_prefix_key _ Hs)).
  destruct (search_exact t (step_key s)) as [d|] eqn:Hd.
  2:{ exfalso. apply (Hthere s (or_introl eq_refl)). assumption. }
  rewrite IH.
  - reflexivity.
  - intros s' Hin. unfold attach. cbn [fst snd].
    destruct (key_eqb_spec (step_key s) (step_key s')) as [E|Hne].
    + rewrite <- E, search_exact_alter_same. discriminate.
    + rewrite search_exact_alter_other by assumption.
      apply Hthere. right. assumption.
Qed.

(** ** The entries of a tree, key by key *)

Lemma entries_none (t : Radix) :
  (forall k, node_infos (search_exact t k) = []) -> entries t = [].
Proof.
  induction t as [|d z IHz o IHo]; intros H; [reflexivity|].
  cbn [entries].
  rewrite IHz by (intros k; apply (H (false :: k))).
  rewrite IHo by (intros k; apply (H (true :: k))).
  specialize (H []). cbn [search_exact] in H. rewrite H. reflexivity.
Qed.

(** Two trees that hold the same tuples at every key have the same entries,
    in the same order. *)
Lemma entries_ext (t : Radix) :
  forall t',
    (forall k,
       node_infos (search_exact t k) = node_infos (search_exact t' k)) ->
    entries t = entries t'.
Proof.
  induction t as [|d z IHz o IHo]; intros t' H.
  - symmetry. apply entries_none. intros k. symmetry. apply H.
  - destruct t' as [|d' z' o'].
    + apply entries_none. intros k. apply H.
    + cbn [entries].
      rewrite (IHz z') by (intros k; apply (H (false :: k))).
      rewrite (IHo o') by (intros k; apply (H (true :: k))).
      specialize (H []). cbn [search_exact] in H. rewrite H. reflexivity.
Qed.

Lemma map_fst_pair (k : key) (l : list prefix_info) :
  map fst (map (pair k) l) = repeat k (List.length l).
Proof.
  induction l as [|i l IH]; simpl; [reflexivity|]. rewrite IH. reflexivity.
Qed.

Lemma map_fst_under_bit (b : bool) (es : list (key * prefix_info)) :
  map fst (map (under_bit b) es) = map (cons b) (map fst es).
Proof. rewrite !map_map. reflexivity. Qed.

(** Two trees that hold as many tuples at every key have the same column of
    keys. *)
Lemma entries_keys_ext (t : Radix) :
  forall t',
    (forall k, List.length (node_infos (search_exact t k))
               = List.length (node_infos (search_exact t' k))) ->
    map fst (entries t) = map fst (entries t').
Proof.
  assert (Hnone : forall s,
            (forall k, List.length (node_infos (search_exact s k)) = 0%nat) ->
            entries s = []).
  { intros s H. apply entries_none. intros k. apply length_zero_iff_nil, H. }
  induction t as [|d z IHz o IHo]; intros t' H.
  - rewrite (Hnone t'); [reflexivity|]. intros k. symmetry. apply H.
  - destruct t' as [|d' z' o'].
    + rewrite (Hnone (Node d z o)); [reflexivity|]. intros k. apply H.
    + cbn [entries]. rewrite !map_app, !map_fst_under_bit, !map_fst_pair.
      rewrite (IHz z') by (intros k; apply (H (false :: k))).
      rewrite (IHo o') by (intros k; apply (H (true :: k))).
      specialize (H []). cbn [search_exact] in H. rewrite H. reflexivity.
Qed.

Lemma has_key_spec {A : Type} (k : key) (e : key * A) :
  reflect (fst e = k) (has_key k e).
Proof. apply key_eqb_spec. Qed.

Lemma has_key_under_bit (b b' : bool) (k : key) (e : key * prefix_info) :
  has_key (b' :: k) (under_bit b e) = Bool.eqb b b' && has_key k e.
Proof.
  destruct (has_key_spec (b' :: k) (under_bit b e)) as [E|N],
           (has_key_spec k e) as [E'|N'];
    cbn [under_bit fst] in *.
  - injection E as -> _. rewrite eqb_reflx. reflexivity.
  - injection E as _ E. contradiction.
  - destruct (Bool.eqb_spec b b') as [->|]; [|reflexivity].
    subst k. contradiction.
  - rewrite andb_false_r. reflexivity.
Qed.

Lemma filter_key_under_bit_other (b b' : bool) (k : key)
    (es : list (key * prefix_info)) :
  b <> b' ->
  filter (has_key (b' :: k)) (map (under_bit b) es) = [].
Proof.
  intros Hb. induction es as [|e es IH]; [reflexivity|].
  cbn [map filter]. rewrite has_key_under_bit.
  destruct (Bool.eqb_spec b b'); [contradiction|]. exact IH.
Qed.

Lemma filter_key_under_bit_same (b : bool) (k : key)
    (es : list (key * prefix_info)) :
  filter (has_key (b :: k)) (map (under_bit b) es)
  = map (under_bit b) (filter (has_key k) es).
Proof.
  induction es as [|e es IH]; [reflexivity|].
  cbn [map filter]. rewrite has_key_under_bit, eqb_reflx. cbn [andb].
  destruct (has_key k e); cbn [map]; rewrite IH; reflexivity.
Qed.

Lemma filter_key_under_bit_nil (b : bool) (es : list (key * prefix_info)) :
  filter (has_key []) (map (under_bit b) es) = [].
Proof.
  induction es as [|e es IH]; [reflexivity|].
  cbn [map filter].
  destruct (has_key_spec [] (under_bit b e)) as [E|_]; [discriminate|].
  exact IH.
Qed.

Lemma filter_key_pair_same (k : key) (l : list prefix_info) :
  filter (has_key k) (map (pair k) l) = map (pair k) l.
Proof.
  induction l as [|i l IH]; [reflexivity|].
  cbn [map filter].
  destruct (has_key_spec k (k, i)) as [_|N]; [|contradiction N; reflexivity].
  rewrite IH. reflexivity.
Qed.

Lemma filter_key_pair_other (k k' : key) (l : list prefix_info) :
  k <> k' ->
  filter (has_key k') (map (pair k) l) = [].
Proof.
  intros Hne. induction l as [|i l IH]; [reflexivity|].
  cbn [map filter].
  destruct (has_key_spec k' (k, i)) as [E|_]; [contradiction|]. exact IH.
Qed.

(** The entries at one key, in iteration order, are the tuples of its
    node. *)
Lemma filter_key_entries (t : Radix) :
  forall k,
    filter (has_key k) (entries t)
    = map (pair k) (node_infos (search_exact t k)).
Proof.
  induction t as [|d z IHz o IHo]; intros k; [reflexivity|].
  cbn [entries]. rewrite !filter_app.
  destruct k as [|b k].
  - rewrite filter_key_pair_same, !filter_key_under_bit_nil, !app_nil_r.
    reflexivity.
  - rewrite filter_key_pair_other by discriminate.
    destruct b; cbn [search_exact app].
    + rewrite filter_key_under_bit_other by discriminate.
      rewrite filter_key_under_bit_same, IHo. cbn [app].
      rewrite map_map. reflexivity.
    + rewrite (filter_key_under_bit_other true false) by discriminate.
      rewrite filter_key_under_bit_same, IHz, app_nil_r.
      rewrite map_map. reflexivity.
Qed.

Lemma filter_key_ops (k : key) (ops : list (key * prefix_info)) :
  filter (has_key k) ops = map (pair k) (at_key k ops).
Proof.
  induction ops as [|op ops IH]; [reflexivity|].
  rewrite at_key_cons. cbn [filter]. fold (has_key k op).
  destruct (has_key_spec k op) as [E|_]; [|exact IH].
  cbn [app map]. rewrite IH. destruct op as [k0 i]. cbn [fst snd] in *.
  subst. reflexivity.
Qed.

(** The entries of a tree built from nothing are, at each key, the
    attachments at that key in the order in which they were made. *)
Lemma filter_key_attach_all (k : key) (ops : list (key * prefix_info)) :
  filter (has_key k) (entries (attach_all Leaf ops))
  = filter (has_key k) ops.
Proof.
  rewrite filter_key_entries, node_infos_attach_all, filter_key_ops.
  reflexivity.
Qed.

Lemma at_key_perm (k : key) (ops ops' : list (key * prefix_info)) :
  Permutation ops ops' -> Permutation (at_key k ops) (at_key k ops').
Proof.
  intros HP. unfold at_key. apply Permutation_map.
  induction HP as [|e l l' _ IH|e e' l|l l' l'' _ IH1 _ IH2]; cbn [filter].
  - constructor.
  - destruct (key_eqb (fst e) k); [constructor|]; assumption.
  - destruct (key_eqb (fst e) k), (key_eqb (fst e') k);
      try reflexivity. constructor.
  - etransitivity; eassumption.
Qed.

Lemma entries_keys_perm (ops ops' : list (key * prefix_info)) :
  Permutation ops ops' ->
  map fst (entries (attach_all Leaf ops))
  = map fst (entries (attach_all Leaf ops')).
Proof.
  intros HP. apply entries_keys_ext. intros k.
  rewrite !node_infos_attach_all. cbn [search_exact node_infos app].
  apply Permutation_length, at_key_perm, HP.
Qed.

Lemma rows_of_filter_key (fmt : key -> prefix_info -> option row)
    (k : key) (es : list (key * prefix_info)) :
  Forall (fun e => exists cells, fmt (fst e) (snd e) = Some (fst e, cells))
         es ->
  filter (has_key k) (rows_of fmt es) = rows_of fmt (filter (has_key k) es).
Proof.
  induction 1 as [|e es (cells & He) _ IH]; [reflexivity|].
  cbn [rows_of filter]. rewrite He. cbn [filter].
  change (has_key k (fst e, cells)) with (has_key k e).
  destruct (has_key k e).
  - cbn [rows_of]. rewrite He, IH. reflexivity.
  - exact IH.
Qed.

(** ** The claims on the merge *)

(** C3, amended.  When the registry files are ingested in another order,
    the run returns again, and each output holds the same rows with the same
    column of prefixes; only rows that stand at one prefix can change places.
    In either order the rows at a prefix are the rows of the attachments
    made at that prefix, in the order of ingestion.  An output in which no
    prefix has two rows is therefore the same row sequence in every order
    of ingestion. *)
Theorem merge_files_order :
  forall fuel files files' rows4 rows6,
    Permutation files files' ->
    merge_files fuel files = ((rows4, rows6), Returned) ->
    exists rows4' rows6',
      merge_files fuel files' = ((rows4', rows6'), Returned)
      /\ Permutation rows4 rows4' /\ Permutation rows6 rows6'
      /\ map fst rows4' = map fst rows4 /\ map fst rows6' = map fst rows6
      /\ (forall k,
            filter (has_key k) rows4
            = rows_of v4_row (filter (has_key k) (files_ops4 fuel files))
            /\ filter (has_key k) rows4'
               = rows_of v4_row (filter (has_key k) (files_ops4 fuel files'))
            /\ filter (has_key k) rows6
               = rows_of v6_row (filter (has_key k) (files_ops6 fuel files))
            /\ filter (has_key k) rows6'
               = rows_of v6_row (filter (has_key k) (files_ops6 fuel files')))
      /\ (NoDup (map fst rows4) -> rows4' = rows4)
      /\ (NoDup (map fst rows6) -> rows6' = rows6).
Proof.
  intros fuel files files' rows4 rows6 HP Hrun.
  destruct (merge_files_rows fuel files) as [[Hok Hrows]|[_ Hbad]].
  2:{ rewrite Hrun in Hbad. exfalso. apply Hbad. reflexivity. }
  rewrite Hrows in Hrun. injection Hrun as <- <-.
  destruct (merge_files_rows fuel files') as [[Hok' Hrows']|[Hbad' _]].
  2:{ exfalso. apply Hbad'. apply (Permutation_Forall HP). assumption. }
  rewrite Hrows'.
  assert (HP4 : Permutation (files_ops4 fuel files) (files_ops4 fuel files'))
    by (apply Permutation_flat_map; assumption).
  assert (HP6 : Permutation (files_ops6 fuel files) (files_ops6 fuel files'))
    by (apply Permutation_flat_map; assumption).
  assert (HE : forall ops, Permutation (entries (attach_all Leaf ops)) ops).
  { intros ops. apply (entries_attach_all ops Leaf). }
  assert (HF : forall (fmt : key -> prefix_info -> option row) ops,
             Forall (fun e => exists cells,
                       fmt (fst e) (snd e) = Some (fst e, cells)) ops ->
             Forall (fun e => exists cells,
                       fmt (fst e) (snd e) = Some (fst e, cells))
               (entries (attach_all Leaf ops))).
  { intros fmt ops Hfmt.
    apply (Permutation_Forall (Permutation_sym (HE ops))). assumption. }
  assert (HK : forall (fmt : key -> prefix_info -> option row) ops ops',
             Forall (fun e => exists cells,
                       fmt (fst e) (snd e) = Some (fst e, cells)) ops ->
             Permutation ops ops' ->
             NoDup (map fst (rows_of fmt (entries (attach_all Leaf ops)))) ->
             attach_all Leaf ops' = attach_all Leaf ops).
  { intros fmt ops ops' Hfmt Hperm Hnd. symmetry.
    apply attach_all_perm; [assumption|].
    rewrite rows_of_keys in Hnd by (apply HF; assumption).
    apply (Permutation_NoDup (Permutation_map fst (HE ops))). assumption. }
  assert (HA : forall (fmt : key -> prefix_info -> option row) ops k,
             Forall (fun e => exists cells,
                       fmt (fst e) (snd e) = Some (fst e, cells)) ops ->
             filter (has_key k) (rows_of fmt (entries (attach_all Leaf ops)))
             = rows_of fmt (filter (has_key k) ops)).
  { intros fmt ops k Hfmt.
    rewrite rows_of_filter_key by (apply HF; assumption).
    rewrite filter_key_attach_all. reflexivity. }
  pose proof (files_ops4_rows fuel files) as G4.
  pose proof (files_ops4_rows fuel files') as G4'.
  pose proof (files_ops6_rows fuel files) as G6.
  pose proof (files_ops6_rows fuel files') as G6'.
  eexists. eexists. split; [reflexivity|].
  split; [|split; [|split; [|split; [|split; [|split]]]]].
  - apply rows_of_perm. rewrite (HE (files_ops4 fuel files)).
    rewrite (HE (files_ops4 fuel files')). assumption.
  - apply rows_of_perm. rewrite (HE (files_ops6 fuel files)).
    rewrite (HE (files_ops6 fuel files')). assumption.
  - rewrite !rows_of_keys by (apply HF; assumption).
    symmetry. apply entries_keys_perm. assumption.
  - rewrite !rows_of_keys by (apply HF; assumption).
    symmetry. apply entries_keys_perm. assumption.
  - intros k. repeat split; apply HA; assumption.
  - intros Hnd. rewrite (HK v4_row _ _ G4 HP4 Hnd). reflexivity.
  - intros Hnd. rewrite (HK v6_row _ _ G6 HP6 Hnd). reflexivity.
Qed.

(** C8.  Every row written has its cells in the order of the header.  An
    IPv4 row is the prefix of one step of the decomposition of the block of
    an ingested [ipv4] record, followed by the registry, the date, the
    country code and the status of the record and by the start and the count
    of its block as the record gives them.  An IPv6 row is the prefix of an
    ingested [ipv6] record followed by its registry, date, country code and
    status. *)
Theorem rows_follow_the_header :
  forall fuel files rows4 rows6,
    merge_files fuel files = ((rows4, rows6), Returned) ->
    (forall r, In r rows4 ->
       exists fd line rec a s,
         In fd files /\ In line fd
         /\ line_record line = Some rec
         /\ protocol rec = "ipv4"%string
         /\ ip_address (block_start rec) = Some a
         /\ In s (fst (v4_block_steps fuel a (block_size rec)))
         /\ radix_key (step_prefix s) = Some (fst r)
         /\ snd r = [PyStr (registry rec); PyStr (modified_date rec);
                     PyStr (country_code rec); PyStr (status rec);
                     PyStr (block_start rec); PyInt (block_size rec)]
         /\ S (List.length (snd r)) = List.length v4_header)
    /\ (forall r, In r rows6 ->
          exists fd line rec a,
            In fd files /\ In line fd
            /\ line_record line = Some rec
            /\ protocol rec = "ipv6"%string
            /\ ip_address (block_start rec) = Some a
            /\ radix_key (a, block_size rec) = Some (fst r)
            /\ snd r = [PyStr (registry rec); PyStr (modified_date rec);
                        PyStr (country_code rec); PyStr (status rec)]
            /\ S (List.length (snd r)) = List.length v6_header).
Proof.
  intros fuel files rows4 rows6 Hrun.
  destruct (merge_files_rows fuel files) as [[Hok Hrows]|[_ Hbad]].
  2:{ rewrite Hrun in Hbad. exfalso. apply Hbad. reflexivity. }
  rewrite Hrows in Hrun. injection Hrun as <- <-.
  assert (HE : forall ops, Permutation (entries (attach_all Leaf ops)) ops).
  { intros ops. apply (entries_attach_all ops Leaf). }
  split; intros r Hr.
  - destruct (rows_of_In _ _ _ Hr) as (e & He & Hfmt).
    apply (Permutation_in _ (HE _)) in He.
    destruct (files_ops4_In _ _ _ He) as (fd & line & Hfd & Hline & Hop).
    destruct (line_ops4_shape _ _ _ Hop)
      as (n & a & s & Hsk & H4 & Hint & Hadr & Hs & ->).
    pose proof (v4_block_steps_valid fuel a n) as Hv.
    rewrite Forall_forall in Hv. specialize (Hv s Hs).
    rewrite v4_row_step_op in Hfmt. injection Hfmt as <-.
    exists fd, line.
    eexists. exists a, s. unfold line_record. rewrite Hsk, Hint.
    cbn [registry country_code protocol block_start block_size
         modified_date status fst snd].
    repeat split; try assumption; try reflexivity.
    apply step_prefix_key. assumption.
  - destruct (rows_of_In _ _ _ Hr) as (e & He & Hfmt).
    apply (Permutation_in _ (HE _)) in He.
    destruct (files_ops6_In _ _ _ He) as (fd & line & Hfd & Hline & Hop).
    destruct (line_ops6_shape _ _ _ Hop)
      as (n & a & k & Hsk & H6 & Hint & Hadr & Hk & ->).
    cbn [fst snd] in Hfmt. rewrite v6_row_line_info in Hfmt.
    injection Hfmt as <-.
    exists fd, line.
    eexists. exists a. unfold line_record. rewrite Hsk, Hint.
    cbn [registry country_code protocol block_start block_size
         modified_date status fst snd].
    repeat split; try assumption; reflexivity.
Qed.

(** ** The claims on the line parser *)

Lemma skipped_false_iff (fields : list string) :
  skipped fields = false <->
  (7 <= List.length fields)%nat
  /\ (field fields 2 = "ipv4"%string \/ field fields 2 = "ipv6"%string).
Proof.
  unfold skipped. rewrite orb_false_iff, andb_false_iff, !negb_false_iff.
  rewrite Nat.ltb_ge, !String.eqb_eq. reflexivity.
Qed.

(** C9, amended.  An accepted [ipv6] line makes one call of
    [add_prefix_to_radix], on the IPv6 tree, with the prefix made of the
    start address and the prefix length of the record as they stand.  When
    the tree takes the prefix, the IPv6 tree gains exactly one entry at its
    node and the IPv4 tree is untouched.  The entry is the tuple of six
    fields built for every record: registry, country code, date and status,
    and after them the start and the size of the block. *)
Theorem ipv6_line_inserts_one_prefix :
  forall fuel st line rec a,
    line_record line = Some rec ->
    protocol rec = "ipv6"%string ->
    ip_address (block_start rec) = Some a ->
    parse_line fuel st line =
      (let '(r, out, res) :=
         add_prefix_to_radix (v6radix st) (a, block_size rec)
           (record_info rec) in
       ({| v4radix := v4radix st; v6radix := r |}, out, res))
    /\ forall k,
         radix_key (a, block_size rec) = Some k ->
         exists st' out,
           parse_line fuel st line = (st', out, Returned)
           /\ v4radix st' = v4radix st
           /\ Permutation (entries (v6radix st'))
                ((k, record_info rec) :: entries (v6radix st))
           /\ node_infos (search_exact (v6radix st') k)
              = node_infos (search_exact (v6radix st) k) ++ [record_info rec].
Proof.
  intros fuel st line rec a Hrec H6 Ha.
  unfold line_record in Hrec.
  destruct (skipped (line_fields line)) eqn:Hsk; [discriminate|].
  destruct (py_int (field (line_fields line) 4)) as [n|] eqn:Hint;
    [|discriminate].
  injection Hrec as <-.
  cbn [protocol block_start block_size] in *.
  assert (Hrun : parse_line fuel st line =
      (let '(r, out, res) :=
         add_prefix_to_radix (v6radix st) (a, n)
           (line_info (line_fields line) n) in
       ({| v4radix := v4radix st; v6radix := r |}, out, res))).
  { unfold parse_line, ingest_fields. rewrite Hsk, Hint, H6, Ha.
    reflexivity. }
  split; [exact Hrun|].
  intros k Hk. rewrite Hrun.
  change (record_info _) with (line_info (line_fields line) n).
  rewrite (add_prefix_to_radix_attach _ _ _ _ Hk).
  eexists. eexists. split; [reflexivity|]. cbn [v4radix v6radix].
  split; [reflexivity|]. split.
  - apply entries_attach.
  - rewrite node_infos_attach. cbn [fst snd].
    destruct (key_eqb_spec k k); [reflexivity|congruence].
Qed.

(** ** The claim on duplicate prefixes *)

(** C4.  Inserting a prefix again is not an error.  Two calls of
    [add_prefix_to_radix] with the same prefix both return; the second one
    prints the warning; the node of the prefix then holds what it held
    before followed by the two tuples in the order of the calls, and no other
    node has changed.  When an IPv4 record that is ingested into an empty
    tree without an error is ingested once more, the second ingestion
    returns too and warns once for each prefix of the record; the nodes of
    the tree are then the nodes of these prefixes, and each holds exactly
    the two entries of the two ingestions. *)
Theorem duplicate_prefix_keeps_both :
  (forall t p k i1 i2,
     radix_key p = Some k ->
     exists t1 out1 t2,
       add_prefix_to_radix t p i1 = (t1, out1, Returned)
       /\ add_prefix_to_radix t1 p i2
          = (t2, [Warning_already_in_radix p], Returned)
       /\ search_exact t2 k
          = Some {| info := Some (node_infos (search_exact t k) ++ [i1; i2]) |}
       /\ (forall k', k' <> k -> search_exact t2 k' = search_exact t k'))
  /\ (forall fuel addr n count pinfo t1 out1,
        ip_address addr = Some (IPv4Address n) -> 0 <= n < 2 ^ 32 ->
        add_v4_block_to_radix fuel Leaf addr count pinfo
        = (t1, out1, Returned) ->
        exists t2,
          add_v4_block_to_radix fuel t1 addr count pinfo
          = (t2,
             map (fun s => Warning_already_in_radix (step_prefix s))
               (fst (v4_block_steps fuel (IPv4Address n) count)),
             Returned)
          /\ out1 = []
          /\ (forall s,
                In s (fst (v4_block_steps fuel (IPv4Address n) count)) ->
                search_exact t2 (step_key s)
                = Some {| info := Some [pinfo ++ [PyInt (step_used s)];
                                        pinfo ++ [PyInt (step_used s)]] |})
          /\ (forall k,
                ~ In k (map step_key
                          (fst (v4_block_steps fuel (IPv4Address n) count))) ->
                search_exact t2 k = None)).
Proof.
  split.
  - intros t p k i1 i2 Hk.
    exists (attach t (k, i1)),
      (match search_exact t k with
       | Some _ => [Warning_already_in_radix p]
       | None => []
       end),
      (attach (attach t (k, i1)) (k, i2)).
    split; [apply (add_prefix_to_radix_attach t p k i1 Hk)|].
    split; [|split].
    + rewrite (add_prefix_to_radix_attach (attach t (k, i1)) p k i2 Hk).
      unfold attach. cbn [fst snd].
      rewrite search_exact_alter_same. reflexivity.
    + unfold attach. cbn [fst snd]. rewrite !search_exact_alter_same.
      cbn [node_infos info]. rewrite <- app_assoc. reflexivity.
    + intros k' Hne. unfold attach. cbn [fst snd].
      rewrite !search_exact_alter_other by congruence. reflexivity.
  - intros fuel addr n c pinfo t1 out1 Ha Hn Hrun.
    set (steps := fst (v4_block_steps fuel (IPv4Address n) c)).
    pose proof (v4_block_steps_valid fuel (IPv4Address n) c) as Hv.
    pose proof (v4_block_steps_keys fuel n c Hn) as Hnd.
    fold steps in Hv, Hnd.
    assert (Hfirst : add_v4_block_to_radix fuel Leaf addr c pinfo
                     = (attach_all Leaf (map (step_op pinfo) steps), [],
                        snd (v4_block_steps fuel (IPv4Address n) c))).
    { destruct (add_v4_block_to_radix_steps fuel Leaf addr _ c pinfo Ha)
        as (t' & out & Hr & Hcalls & Ht').
      fold steps in Hcalls.
      rewrite (add_prefixes_fresh pinfo steps Hv Hnd Leaf) in Hcalls
        by reflexivity.
      injection Hcalls as <- <-. exact Hr. }
    rewrite Hfirst in Hrun. injection Hrun as <- <- Hres.
    assert (Hthere : forall s, In s steps ->
              search_exact (attach_all Leaf (map (step_op pinfo) steps))
                (step_key s)
              = Some {| info := Some [pinfo ++ [PyInt (step_used s)]] |}).
    { intros s Hs. rewrite search_exact_attach_all_some.
      - rewrite (at_key_step pinfo steps s Hnd Hs). reflexivity.
      - rewrite map_map. apply (in_map step_key). assumption. }
    destruct (add_v4_block_to_radix_steps fuel
                (attach_all Leaf (map (step_op pinfo) steps)) addr _ c pinfo Ha)
      as (t2 & out2 & Hr2 & Hcalls2 & Ht2).
    fold steps in Hcalls2, Ht2.
    rewrite (add_prefixes_present pinfo steps Hv) in Hcalls2.
    2:{ intros s Hs. rewrite (Hthere s Hs). discriminate. }
    injection Hcalls2 as _ <-.
    exists t2. rewrite Hr2, Hres.
    split; [reflexivity|]. split; [reflexivity|]. split.
    + intros s Hs. rewrite Ht2.
      rewrite search_exact_attach_all_some.
      * rewrite (Hthere s Hs). cbn [node_infos info].
        rewrite (at_key_step pinfo steps s Hnd Hs). reflexivity.
      * rewrite map_map. apply (in_map step_key). assumption.
    + intros k Hk. rewrite Ht2.
      rewrite !search_exact_attach_all_absent;
        [reflexivity|rewrite map_map; exact Hk|rewrite map_map; exact Hk].
Qed.

End Properties.

(** * Examples with the reference instance *)

(** The exact logarithm meets what the results assume of [int_log2]. *)
Lemma ref_log_nonneg : log_nonneg (py := ref_pylib).
Proof. intros c Hc. apply Z.log2_nonneg. Qed.

Lemma ref_log_not_above : log_not_above (py := ref_pylib).
Proof.
  intros c Hc. split; [apply Z.log2_nonneg|].
  apply Z.log2_spec. lia.
Qed.

Lemma ref_log_exact : log_exact (py := ref_pylib).
Proof.
  split; [reflexivity|].
  intros c Hc. change 32 with (Z.log2 (2 ^ 32)). apply Z.log2_le_mono.
  exact Hc.
Qed.

(** The decomposition scenarios of the specification: [10.0.0.0] with 4
    addresses is one /30; with 3 addresses it is a /31 of two addresses and
    a /32; [10.0.0.4] with 4 addresses is one /30. *)
Lemma decomposition_scenarios :
  v4_block_steps (py := ref_pylib) 5 (IPv4Address 167772160) 4
  = ([{| step_addr := IPv4Address 167772160; step_count := 4;
         step_size := 30 |}], Returned)
  /\ v4_block_steps (py := ref_pylib) 5 (IPv4Address 167772160) 3
     = ([{| step_addr := IPv4Address 167772160; step_count := 3;
            step_size := 31 |};
         {| step_addr := IPv4Address 167772162; step_count := 1;
            step_size := 32 |}], Returned)
  /\ v4_block_steps (py := ref_pylib) 5 (IPv4Address 167772164) 4
     = ([{| step_addr := IPv4Address 167772164; step_count := 4;
            step_size := 30 |}], Returned)
  /\ ip_address (PyLib := ref_pylib) "10.0.0.0" = Some (IPv4Address 167772160)
  /\ ip_address (PyLib := ref_pylib) "10.0.0.4" = Some (IPv4Address 167772164)
  /\ ip_address (PyLib := ref_pylib) "10.0.0.2" = Some (IPv4Address 167772162).
Proof. repeat split; vm_compute; reflexivity. Qed.

(** The IPv6 scenario of the specification: one [ipv6] record for
    [2001:db8::/32] gives no IPv4 row and exactly one IPv6 row, with the
    registry, the date, the country code and the status in this order. *)
Lemma ipv6_scenario :
  radix_key (IPv6Address (536939960 * 2 ^ 96), 32)
  = Some (true :: prefix_bits 128 (536939960 * 2 ^ 96) 32)
  /\ merge_files (py := ref_pylib) 1
       [["ripencc|NL|ipv6|2001:db8::|32|20200101|allocated"%string]]
     = (([], [(true :: prefix_bits 128 (536939960 * 2 ^ 96) 32,
               [PyStr "ripencc"; PyStr "20200101"; PyStr "NL";
                PyStr "allocated"])]), Returned).
Proof. split; vm_compute; reflexivity. Qed.

(** C1, as stated, fails for a block that runs past the address space:
    from [255.255.255.255] with a count of 2 only the /32 at the start is
    emitted before the call raises, and the second address of the block lies
    in no emitted range. *)
Lemma v4_block_coverage_fails_past_the_space :
  v4_block_steps (py := ref_pylib) 10 (IPv4Address 4294967295) 2
  = ([{| step_addr := IPv4Address 4294967295; step_count := 2;
         step_size := 32 |}], Raised AddressValueError)
  /\ snd (add_v4_block_to_radix (py := ref_pylib) 10 Leaf "255.255.255.255"
            2 [])
     = Raised AddressValueError
  /\ 4294967295 <= 4294967296 < 4294967295 + 2
  /\ ~ exists s,
         In s (fst (v4_block_steps (py := ref_pylib) 10
                      (IPv4Address 4294967295) 2))
         /\ step_lo s <= 4294967296 < step_hi s.
Proof.
  split; [vm_compute; reflexivity|].
  split; [vm_compute; reflexivity|].
  split; [lia|].
  intros (s & Hin & Hr).
  vm_compute in Hin. destruct Hin as [<-|[]].
  vm_compute in Hr. destruct Hr as [_ Hr]. discriminate.
Qed.

(** The coverage theorem at [10.0.0.0] with a count of 3. *)
Lemma v4_block_exact_coverage_witness :
  log_not_above (py := ref_pylib)
  /\ ip_address (PyLib := ref_pylib) "10.0.0.0" = Some (IPv4Address 167772160)
  /\ 0 <= 167772160 /\ 0 < 3 /\ 167772160 + 3 <= 2 ^ 32
  /\ (Z.to_nat 3 < 5)%nat
  /\ exists steps t' out res,
       add_v4_block_to_radix (py := ref_pylib) 5 Leaf "10.0.0.0" 3 []
       = (t', out, res)
       /\ (167772160 + 3 < 2 ^ 32 -> res = Returned)
       /\ add_prefixes Leaf (map (step_call []) steps) = (t', out, Returned)
       /\ (forall x, 167772160 <= x < 167772160 + 3 <->
                     exists s, In s steps /\ step_lo s <= x < step_hi s)
       /\ (forall i j s s',
             nth_error steps i = Some s -> nth_error steps j = Some s' ->
             (i < j)%nat -> step_hi s <= step_lo s')
       /\ Forall (fun s => IPv4Network_ok (step_addr s) (step_size s) = true
                           /\ step_lo s < step_hi s) steps.
Proof.
  assert (Ha : ip_address (PyLib := ref_pylib) "10.0.0.0"
               = Some (IPv4Address 167772160)) by (vm_compute; reflexivity).
  assert (H0 : 0 <= 167772160) by lia.
  assert (H1 : 0 < 3) by lia.
  assert (H2 : 167772160 + 3 <= 2 ^ 32) by lia.
  assert (H3 : (Z.to_nat 3 < 5)%nat) by (vm_compute; lia).
  repeat (split; [assumption || exact ref_log_not_above|]).
  exact (v4_block_exact_coverage (py := ref_pylib) ref_log_not_above
           5 Leaf "10.0.0.0" 167772160 3 [] Ha H0 H1 H2 H3).
Defined.

(** The amended step property at [10.0.0.0] with a count of 3. *)
Lemma v4_block_step_is_greedy_witness :
  log_exact (py := ref_pylib)
  /\ ip_address (PyLib := ref_pylib) "10.0.0.0" = Some (IPv4Address 167772160)
  /\ exists steps t' out res,
       add_v4_block_to_radix (py := ref_pylib) 5 Leaf "10.0.0.0" 3 []
       = (t', out, res)
       /\ add_prefixes Leaf (map (step_call []) steps) = (t', out, Returned)
       /\ trace_from 167772160 3 steps
       /\ (1 <= 3 ->
           (Z.to_nat (int_log2 (PyLib := ref_pylib) 3 + 1) < 5)%nat ->
           exists s rest,
             steps = s :: rest /\ step_lo s = 167772160 /\ step_count s = 3)
       /\ Forall
            (fun s =>
               step_used s = 2 ^ (32 - step_size s)
               /\ 0 <= step_size s <= 32
               /\ step_used s <= step_count s
               /\ (step_used s | step_lo s)
               /\ forall k, 0 <= k -> 2 ^ k <= step_count s ->
                            2 ^ k <= 2 ^ 32 -> (2 ^ k | step_lo s) ->
                            2 ^ k <= step_used s)
            steps.
Proof.
  assert (Ha : ip_address (PyLib := ref_pylib) "10.0.0.0"
               = Some (IPv4Address 167772160)) by (vm_compute; reflexivity).
  split; [exact ref_log_exact|]. split; [exact Ha|].
  exact (v4_block_step_is_greedy (py := ref_pylib) ref_log_exact
           5 Leaf "10.0.0.0" 167772160 3 [] Ha).
Defined.

(** From [0.0.0.0] with a count of [2 ^ 33] the only block emitted is the
    whole address space, [2 ^ 32] addresses, although [2 ^ 33] is a power of
    two that does not exceed the count and divides the address. *)
Lemma v4_block_step_misses_a_larger_power :
  ip_address (PyLib := ref_pylib) "0.0.0.0" = Some (IPv4Address 0)
  /\ (exists t' out,
        add_v4_block_to_radix (py := ref_pylib) 5 Leaf "0.0.0.0" (2 ^ 33) []
        = (t', out, Raised AddressValueError)
        /\ add_prefixes Leaf [((IPv4Address 0, 0), [] ++ [PyInt (2 ^ 32)])]
           = (t', out, Returned))
  /\ 2 ^ 33 <= 2 ^ 33 /\ (2 ^ 33 | 0) /\ 2 ^ 32 < 2 ^ 33.
Proof.
  split; [vm_compute; reflexivity|]. split.
  - do 2 eexists. split; vm_compute; reflexivity.
  - split; [lia|]. split; [apply Z.divide_0_r|reflexivity].
Qed.


(** C5, as stated, fails: from [255.255.255.253] with a count of 4 the call
    raises when the address would leave the address space, and the /32 and
    the /31 inserted before that are still in the tree. *)
Lemma add_v4_block_is_not_atomic :
  exists t',
    add_v4_block_to_radix (py := ref_pylib) 10 Leaf "255.255.255.253" 4
      [PyStr "arin"]
    = (t', [], Raised AddressValueError)
    /\ t' <> Leaf
    /\ map snd (entries t')
       = [[PyStr "arin"; PyInt 1]; [PyStr "arin"; PyInt 2]].
Proof.
  eexists. split; [vm_compute; reflexivity|].
  split; [discriminate|]. vm_compute. reflexivity.
Qed.

(** The theorem on failing calls at [255.255.255.253] with a count of 4. *)
Lemma add_v4_block_failure_keeps_fragments_witness :
  add_v4_block_to_radix (py := ref_pylib) 10 Leaf "255.255.255.253" 4 []
  = (fst (fst (add_v4_block_to_radix (py := ref_pylib) 10 Leaf
                 "255.255.255.253" 4 [])),
     [], Raised AddressValueError)
  /\ exists a steps,
       ip_address (PyLib := ref_pylib) "255.255.255.253" = Some a
       /\ steps = fst (v4_block_steps (py := ref_pylib) 10 a 4)
       /\ steps <> []
       /\ Permutation
            (entries (fst (fst (add_v4_block_to_radix (py := ref_pylib) 10
                                  Leaf "255.255.255.253" 4 []))))
            (entries Leaf ++ map (step_op []) steps).
Proof.
  assert (Hrun :
    add_v4_block_to_radix (py := ref_pylib) 10 Leaf "255.255.255.253" 4 []
    = (fst (fst (add_v4_block_to_radix (py := ref_pylib) 10 Leaf
                   "255.255.255.253" 4 [])),
       [], Raised AddressValueError)) by (vm_compute; reflexivity).
  split; [exact Hrun|].
  destruct (add_v4_block_failure_keeps_fragments (py := ref_pylib)
              10 Leaf "255.255.255.253" 4 [] _ _ _ Hrun)
    as [[(Hnone & _)|(a & steps & Ha & _ & Hs & Hne & _ & Hp)] _].
  - vm_compute in Hnone. discriminate.
  - exists a, steps. auto.
Defined.

(** C6, as stated, fails: a count of [2 ^ 32 + 1] from [0.0.0.0] is not
    turned down; the prefix [0.0.0.0/0] is inserted and only then the call
    raises. *)
Lemma add_v4_block_emits_before_raising :
  exists t',
    add_v4_block_to_radix (py := ref_pylib) 5 Leaf "0.0.0.0" 4294967297
      [PyStr "arin"]
    = (t', [], Raised AddressValueError)
    /\ radix_key (IPv4Address 0, 0) = Some [false]
    /\ entries t' = [([false], [PyStr "arin"; PyInt 4294967296])].
Proof.
  eexists. split; [vm_compute; reflexivity|].
  split; vm_compute; reflexivity.
Qed.

(** The theorem on blocks past the address space at [0.0.0.0] with a count
    of [2 ^ 32 + 1]. *)
Lemma add_v4_block_past_space_raises_witness :
  log_nonneg (py := ref_pylib) /\ log_not_above (py := ref_pylib)
  /\ ip_address (PyLib := ref_pylib) "0.0.0.0" = Some (IPv4Address 0)
  /\ 0 <= 0 < 2 ^ 32 /\ 2 ^ 32 < 0 + 4294967297
  /\ exists fuel0 steps t' out,
       (forall fuel, (fuel0 <= fuel)%nat ->
          add_v4_block_to_radix (py := ref_pylib) fuel Leaf "0.0.0.0"
            4294967297 []
          = (t', out, Raised AddressValueError))
       /\ add_prefixes Leaf (map (step_call []) steps) = (t', out, Returned)
       /\ steps <> []
       /\ (forall x, 0 <= x < 2 ^ 32 <->
                     exists s, In s steps /\ step_lo s <= x < step_hi s).
Proof.
  assert (Ha : ip_address (PyLib := ref_pylib) "0.0.0.0"
               = Some (IPv4Address 0)) by (vm_compute; reflexivity).
  assert (H0 : 0 <= 0 < 2 ^ 32) by lia.
  assert (H1 : 2 ^ 32 < 0 + 4294967297) by lia.
  split; [exact ref_log_nonneg|]. split; [exact ref_log_not_above|].
  repeat (split; [assumption|]).
  exact (add_v4_block_past_space_raises (py := ref_pylib) ref_log_nonneg
           ref_log_not_above Leaf "0.0.0.0" 0 4294967297 [] Ha H0 H1).
Defined.

(** C3, as stated, fails: two registries that both list [10.0.0.0/30] give
    two rows at the one prefix, and the two rows come in the order in which
    the registries were ingested. *)
Lemma merge_files_order_matters :
  Permutation [example_ripencc_4; example_arin_4]
    [example_arin_4; example_ripencc_4]
  /\ snd (merge_files (py := ref_pylib) 6
            [example_ripencc_4; example_arin_4]) = Returned
  /\ snd (merge_files (py := ref_pylib) 6
            [example_arin_4; example_ripencc_4]) = Returned
  /\ map snd (fst (fst (merge_files (py := ref_pylib) 6
                          [example_ripencc_4; example_arin_4])))
     = [[PyStr "ripencc"; PyStr "20200101"; PyStr "NL"; PyStr "allocated";
         PyStr "10.0.0.0"; PyInt 4];
        [PyStr "arin"; PyStr "20200102"; PyStr "US"; PyStr "assigned";
         PyStr "10.0.0.0"; PyInt 4]]
  /\ map snd (fst (fst (merge_files (py := ref_pylib) 6
                          [example_arin_4; example_ripencc_4])))
     = [[PyStr "arin"; PyStr "20200102"; PyStr "US"; PyStr "assigned";
         PyStr "10.0.0.0"; PyInt 4];
        [PyStr "ripencc"; PyStr "20200101"; PyStr "NL"; PyStr "allocated";
         PyStr "10.0.0.0"; PyInt 4]]
  /\ fst (merge_files (py := ref_pylib) 6 [example_ripencc_4; example_arin_4])
     <> fst (merge_files (py := ref_pylib) 6
               [example_arin_4; example_ripencc_4]).
Proof.
  split; [apply perm_swap|].
  repeat (split; [vm_compute; reflexivity|]).
  vm_compute. discriminate.
Qed.

(** The theorem on the order of ingestion at two files with no prefix in
    common. *)
Lemma merge_files_order_witness :
  let files := [example_ripencc_3; example_arin_v6] in
  let files' := [example_arin_v6; example_ripencc_3] in
  let rows4 := fst (fst (merge_files (py := ref_pylib) 6 files)) in
  let rows6 := snd (fst (merge_files (py := ref_pylib) 6 files)) in
  Permutation files files'
  /\ merge_files (py := ref_pylib) 6 files = ((rows4, rows6), Returned)
  /\ exists rows4' rows6',
       merge_files (py := ref_pylib) 6 files' = ((rows4', rows6'), Returned)
       /\ Permutation rows4 rows4' /\ Permutation rows6 rows6'
       /\ map fst rows4' = map fst rows4 /\ map fst rows6' = map fst rows6
       /\ (NoDup (map fst rows4) -> rows4' = rows4)
       /\ (NoDup (map fst rows6) -> rows6' = rows6).
Proof.
  intros files files' rows4 rows6.
  assert (HP : Permutation files files') by apply perm_swap.
  assert (Hrun : merge_files (py := ref_pylib) 6 files
                 = ((rows4, rows6), Returned)) by (vm_compute; reflexivity).
  split; [exact HP|]. split; [exact Hrun|].
  destruct (merge_files_order (py := ref_pylib) 6 files files' rows4 rows6
              HP Hrun)
    as (rows4' & rows6' & H1 & H2 & H3 & H4 & H5 & _ & H6 & H7).
  exists rows4', rows6'. auto 10.
Defined.

(** The theorem on the rows at a file with an IPv4 block of three addresses
    and a file with an IPv6 delegation. *)
Lemma rows_follow_the_header_witness :
  let files := [example_ripencc_3; example_arin_v6] in
  let rows4 := fst (fst (merge_files (py := ref_pylib) 6 files)) in
  let rows6 := snd (fst (merge_files (py := ref_pylib) 6 files)) in
  merge_files (py := ref_pylib) 6 files = ((rows4, rows6), Returned)
  /\ map snd rows4
     = [[PyStr "ripencc"; PyStr "20200101"; PyStr "NL"; PyStr "allocated";
         PyStr "10.0.0.0"; PyInt 3];
        [PyStr "ripencc"; PyStr "20200101"; PyStr "NL"; PyStr "allocated";
         PyStr "10.0.0.0"; PyInt 3]]
  /\ map snd rows6
     = [[PyStr "arin"; PyStr "20200102"; PyStr "US"; PyStr "assigned"]]
  /\ (forall r, In r rows6 ->
        exists fd line rec a,
          In fd files /\ In line fd
          /\ line_record (py := ref_pylib) line = Some rec
          /\ protocol rec = "ipv6"%string
          /\ ip_address (PyLib := ref_pylib) (block_start rec) = Some a
          /\ radix_key (a, block_size rec) = Some (fst r)
          /\ snd r = [PyStr (registry rec); PyStr (modified_date rec);
                      PyStr (country_code rec); PyStr (status rec)]
          /\ S (List.length (snd r)) = List.length v6_header).
Proof.
  intros files rows4 rows6.
  assert (Hrun : merge_files (py := ref_pylib) 6 files
                 = ((rows4, rows6), Returned)) by (vm_compute; reflexivity).
  split; [exact Hrun|].
  split; [vm_compute; reflexivity|].
  split; [vm_compute; reflexivity|].
  exact (proj2 (rows_follow_the_header (py := ref_pylib) 6 files rows4 rows6
                  Hrun)).
Defined.

(** C9, as stated, fails on the entry: the tuple attached for an [ipv6] line
    has six fields, the four of the claim and after them the start and the
    size of the block. *)
Lemma ipv6_entry_has_six_fields :
  exists k,
    map (fun st => entries (v6radix st))
      [fst (fst (parse_line (py := ref_pylib) 6 empty_tries
                   "arin|US|ipv6|2001:db8::|32|20200102|assigned"))]
    = [[(k, [PyStr "arin"; PyStr "US"; PyStr "20200102"; PyStr "assigned";
             PyStr "2001:db8::"; PyInt 32])]]
    /\ [PyStr "arin"; PyStr "US"; PyStr "20200102"; PyStr "assigned";
        PyStr "2001:db8::"; PyInt 32]
       <> [PyStr "arin"; PyStr "US"; PyStr "20200102"; PyStr "assigned"].
Proof.
  eexists. split; [vm_compute; reflexivity|discriminate].
Qed.

(** The theorem on [ipv6] lines at the delegation of [2001:db8::/32]. *)
Lemma ipv6_line_inserts_one_prefix_witness :
  let line := "arin|US|ipv6|2001:db8::|32|20200102|assigned"%string in
  let rec := {| registry := "arin"; country_code := "US"; protocol := "ipv6";
                block_start := "2001:db8::"; block_size := 32;
                modified_date := "20200102"; status := "assigned" |} in
  let a := IPv6Address (536939960 * 2 ^ 96) in
  line_record (py := ref_pylib) line = Some rec
  /\ protocol rec = "ipv6"%string
  /\ ip_address (PyLib := ref_pylib) (block_start rec) = Some a
  /\ parse_line (py := ref_pylib) 6 empty_tries line =
       (let '(r, out, res) :=
          add_prefix_to_radix (v6radix empty_tries) (a, block_size rec)
            (record_info rec) in
        ({| v4radix := v4radix empty_tries; v6radix := r |}, out, res)).
Proof.
  intros line rec a.
  assert (H1 : line_record (py := ref_pylib) line = Some rec)
    by (vm_compute; reflexivity).
  assert (H2 : protocol rec = "ipv6"%string) by reflexivity.
  assert (H3 : ip_address (PyLib := ref_pylib) (block_start rec) = Some a)
    by (vm_compute; reflexivity).
  repeat (split; [assumption|]).
  exact (proj1 (ipv6_line_inserts_one_prefix (py := ref_pylib) 6 empty_tries
                  line rec a H1 H2 H3)).
Defined.

(** The theorem on duplicates at [10.0.0.0] with a count of 3, ingested
    twice. *)
Lemma duplicate_prefix_keeps_both_witness :
  ip_address (PyLib := ref_pylib) "10.0.0.0" = Some (IPv4Address 167772160)
  /\ 0 <= 167772160 < 2 ^ 32
  /\ add_v4_block_to_radix (py := ref_pylib) 5 Leaf "10.0.0.0" 3
       [PyStr "arin"]
     = (fst (fst (add_v4_block_to_radix (py := ref_pylib) 5 Leaf "10.0.0.0"
                    3 [PyStr "arin"])), [], Returned)
  /\ exists t2,
       add_v4_block_to_radix (py := ref_pylib) 5
         (fst (fst (add_v4_block_to_radix (py := ref_pylib) 5 Leaf "10.0.0.0"
                      3 [PyStr "arin"])))
         "10.0.0.0" 3 [PyStr "arin"]
       = (t2,
          [Warning_already_in_radix (IPv4Address 167772160, 31);
           Warning_already_in_radix (IPv4Address 167772162, 32)],
          Returned)
       /\ map snd (entries t2)
          = [[PyStr "arin"; PyInt 2]; [PyStr "arin"; PyInt 2];
             [PyStr "arin"; PyInt 1]; [PyStr "arin"; PyInt 1]].
Proof.
  assert (Ha : ip_address (PyLib := ref_pylib) "10.0.0.0"
               = Some (IPv4Address 167772160)) by (vm_compute; reflexivity).
  assert (H0 : 0 <= 167772160 < 2 ^ 32) by lia.
  assert (Hrun :
    add_v4_block_to_radix (py := ref_pylib) 5 Leaf "10.0.0.0" 3 [PyStr "arin"]
    = (fst (fst (add_v4_block_to_radix (py := ref_pylib) 5 Leaf "10.0.0.0"
                   3 [PyStr "arin"])), [], Returned))
    by (vm_compute; reflexivity).
  repeat (split; [assumption|]).
  destruct (proj2 (duplicate_prefix_keeps_both (py := ref_pylib))
              5%nat "10.0.0.0"%string 167772160 3 [PyStr "arin"] _ _ Ha H0 Hrun)
    as (t2 & Hrun2 & _).
  exists t2. split; [exact Hrun2|].
  vm_compute in Hrun2. injection Hrun2 as <-. vm_compute. reflexivity.
Defined.

(** * Further properties of the parser and of the merge *)

Section Behaviour.

Context {py : PyLib}.

(** ** One insertion *)

(** X1.  What one call of [add_prefix_to_radix] does.  With a prefix the
    tree can take, the call returns; looking the prefix up afterwards finds
    the tuples that were at its node before, followed by the new tuple; every
    other node is found as before; and the warning is printed exactly when
    the node was already there.  With a prefix the tree cannot take, the call
    raises [ValueError], prints nothing and leaves the tree as it was. *)
Theorem add_prefix_to_radix_lookup :
  forall t p i,
    match radix_key p with
    | Some k =>
        exists t' out,
          add_prefix_to_radix t p i = (t', out, Returned)
          /\ search_exact t' k
             = Some {| info := Some (node_infos (search_exact t k) ++ [i]) |}
          /\ (forall k', k' <> k -> search_exact t' k' = search_exact t k')
          /\ (out = [] <-> search_exact t k = None)
          /\ (out = [Warning_already_in_radix p]
              <-> search_exact t k <> None)
    | None => add_prefix_to_radix t p i = (t, [], Raised ValueError)
    end.
Proof.
  intros t p i. destruct (radix_key p) as [k|] eqn:Hk.
  - rewrite (add_prefix_to_radix_attach t p k i Hk).
    do 2 eexists. split; [reflexivity|].
    unfold attach. cbn [fst snd]. rewrite search_exact_alter_same.
    split; [reflexivity|]. split; [|split].
    + intros k' Hne. apply search_exact_alter_other. congruence.
    + destruct (search_exact t k); split; congruence.
    + destruct (search_exact t k); split; congruence.
  - apply add_prefix_to_radix_invalid. exact Hk.
Qed.

(** ** Files one after the other *)

Lemma parse_nro_stats_app (fuel : nat) (fd1 fd2 : list string) :
  forall st,
    parse_nro_stats fuel (fd1 ++ fd2) st =
      match parse_nro_stats fuel fd1 st with
      | (st1, out1, Returned) =>
          let '(st2, out2, res) := parse_nro_stats fuel fd2 st1 in
          (st2, out1 ++ out2, res)
      | stopped => stopped
      end.
Proof.
  induction fd1 as [|line fd1 IH]; intros st.
  - cbn [app parse_nro_stats].
    destruct (parse_nro_stats fuel fd2 st) as [[st2 out2] res]. reflexivity.
  - cbn [app parse_nro_stats].
    destruct (parse_line fuel st line) as [[st1 out1] res1].
    destruct res1; try reflexivity.
    rewrite IH.
    destruct (parse_nro_stats fuel fd1 st1) as [[st2 out2] res2].
    destruct res2; try reflexivity.
    destruct (parse_nro_stats fuel fd2 st2) as [[st3 out3] res3].
    rewrite app_assoc. reflexivity.
Qed.

(** X2.  Parsing the registry files one after the other into the same two
    trees is parsing the one file made of their lines in that order: the
    trees, what is printed and the way the run ends are the same. *)
Theorem parse_files_concat :
  forall fuel files st,
    parse_files fuel files st = parse_nro_stats fuel (List.concat files) st.
Proof.
  intros fuel files. induction files as [|fd files IH]; intros st.
  - reflexivity.
  - cbn [parse_files List.concat]. rewrite parse_nro_stats_app.
    destruct (parse_nro_stats fuel fd st) as [[st1 out1] res1].
    destruct res1; try reflexivity.
    rewrite IH. reflexivity.
Qed.

(** X3.  A line that does not return ends the parsing of its file: whatever
    lines follow, the trees, the output and the outcome are those reached at
    that line. *)
Theorem parse_nro_stats_stops_at_failure :
  forall fuel fd1 fd2 st,
    snd (parse_nro_stats fuel fd1 st) <> Returned ->
    parse_nro_stats fuel (fd1 ++ fd2) st = parse_nro_stats fuel fd1 st.
Proof.
  intros fuel fd1 fd2 st H. rewrite parse_nro_stats_app.
  destruct (parse_nro_stats fuel fd1 st) as [[st1 out1] res1].
  cbn [snd] in H. destruct res1; [contradiction|reflexivity|reflexivity].
Qed.

(** ** Edges of the decomposition *)

(** X4.  An [ipv4] line whose count is zero or negative is accepted and does
    nothing: when its start address can be read, the loop is never entered,
    no prefix is inserted, nothing is printed and the line returns. *)
Theorem ipv4_line_without_addresses :
  forall fuel st line rec a,
    line_record line = Some rec ->
    protocol rec = "ipv4"%string ->
    block_size rec <= 0 ->
    ip_address (block_start rec) = Some a ->
    (1 <= fuel)%nat ->
    parse_line fuel st line = (st, [], Returned).
Proof.
  intros fuel st line rec a Hrec H4 Hc Ha Hfuel.
  unfold line_record in Hrec. unfold parse_line, ingest_fields.
  destruct (skipped (line_fields line)); [discriminate|].
  destruct (py_int (field (line_fields line) 4)) as [n|]; [|discriminate].
  injection Hrec as <-. cbn [protocol block_size block_start] in *.
  rewrite H4. cbn [String.eqb Ascii.eqb Bool.eqb].
  unfold add_v4_block_to_radix. rewrite Ha.
  destruct fuel as [|fuel]; [lia|]. cbn [add_v4_block_loop].
  destruct (Z.gtb_spec n 0); [lia|]. destruct st; reflexivity.
Qed.

Lemma find_prefix_size_v6 (fuel : nat) (n : Z) :
  forall ps, find_prefix_size fuel (IPv6Address n) ps = None.
Proof.
  induction fuel as [|fuel IH]; intros ps; [reflexivity|].
  cbn [find_prefix_size]. unfold IPv4Network_ok. apply IH.
Qed.

(** X5.  When the start address of an [ipv4] record reads as an IPv6
    address and the count is above zero, the decomposition does not end:
    [IPv4Network] refuses the address at every prefix length, so the inner
    loop goes on for ever, and no bound on the iterations lets the call
    return or raise.  Nothing is inserted. *)
Theorem add_v4_block_with_ipv6_address_diverges :
  forall fuel v4radix addr n count pinfo,
    ip_address addr = Some (IPv6Address n) ->
    0 < count ->
    add_v4_block_to_radix fuel v4radix addr count pinfo
    = (v4radix, [], OutOfFuel).
Proof.
  intros fuel t addr n c pinfo Ha Hc.
  unfold add_v4_block_to_radix. rewrite Ha.
  destruct fuel as [|fuel]; [reflexivity|]. cbn [add_v4_block_loop].
  destruct (Z.gtb_spec c 0); [|lia].
  rewrite find_prefix_size_v6. reflexivity.
Qed.

(** X6.  A block that ends exactly at the top of the IPv4 address space is
    inserted in full, by prefixes that cover it exactly, and then the call
    raises [AddressValueError]: advancing the address after the last prefix
    gives [2 ^ 32], which is not an address. *)
Theorem add_v4_block_at_top_raises :
  log_not_above ->
  forall fuel v4radix addr n count pinfo,
    ip_address addr = Some (IPv4Address n) ->
    0 <= n -> 0 < count -> n + count = 2 ^ 32 ->
    (Z.to_nat count < fuel)%nat ->
    exists steps t' out,
      add_v4_block_to_radix fuel v4radix addr count pinfo
      = (t', out, Raised AddressValueError)
      /\ add_prefixes v4radix (map (step_call pinfo) steps)
         = (t', out, Returned)
      /\ steps <> []
      /\ (forall x, n <= x < 2 ^ 32 <->
                    exists s, In s steps /\ step_lo s <= x < step_hi s).
Proof.
  intros Hlog fuel t addr n c pinfo Ha Hn Hc Hsum Hfuel.
  destruct (add_v4_block_to_radix_steps fuel t addr _ c pinfo Ha)
    as (t' & out & Hrun & Hcalls & _).
  destruct (v4_block_steps_tiles Hlog fuel n c) as [Ht Hr]; try lia.
  exists (fst (v4_block_steps fuel (IPv4Address n) c)), t', out.
  split; [|split; [exact Hcalls|split]].
  - rewrite Hrun, Hr.
    destruct (Z.ltb_spec 0 c); [|lia].
    destruct (Z.eqb_spec (n + c) (2 ^ 32)); [reflexivity|lia].
  - intros E. rewrite E in Ht. simpl in Ht. lia.
  - rewrite <- Hsum. apply (tiles_cover _ _ _ Ht).
Qed.

Lemma tiles_total (steps : list block_step) :
  forall lo hi, tiles lo hi steps -> used_total steps = hi - lo.
Proof.
  induction steps as [|s steps IH]; intros lo hi H; simpl in H.
  - subst. unfold used_total. simpl. lia.
  - destruct H as (Hlo & _ & Hrest). apply IH in Hrest.
    unfold used_total in *. cbn [map fold_right]. rewrite Hrest.
    unfold step_hi. lia.
Qed.

(** X7.  The counts written with the prefixes of a record add up to the
    count of the record.  For a block within the address space, the calls
    that [add_v4_block_to_radix] makes to [add_prefix_to_radix] are those of
    a list of steps whose numbers of addresses, each [2 ^ (32 - size)] and
    passed as seventh field of the tuple, sum to the count the call was
    given; and the tree the call leaves holds what it held before and one
    entry per step, with that number as seventh field. *)
Theorem used_addrcounts_sum_to_count :
  log_not_above ->
  forall fuel v4radix addr n count pinfo,
    ip_address addr = Some (IPv4Address n) ->
    0 <= n -> 0 <= count -> n + count <= 2 ^ 32 ->
    (Z.to_nat count < fuel)%nat ->
    exists steps t' out res,
      add_v4_block_to_radix fuel v4radix addr count pinfo = (t', out, res)
      /\ add_prefixes v4radix (map (step_call pinfo) steps)
         = (t', out, Returned)
      /\ used_total steps = count
      /\ Forall (fun s => step_used s = 2 ^ (32 - step_size s)
                          /\ 0 <= step_size s <= 32) steps
      /\ Permutation (entries t')
           (entries v4radix
            ++ map (fun s => (step_key s, pinfo ++ [PyInt (step_used s)]))
                 steps).
Proof.
  intros Hlog fuel t addr n c pinfo Ha Hn Hc Hsum Hfuel.
  destruct (add_v4_block_to_radix_steps fuel t addr _ c pinfo Ha)
    as (t' & out & Hrun & Hcalls & Ht').
  destruct (v4_block_steps_tiles Hlog fuel n c Hn Hc Hsum Hfuel) as [Ht _].
  exists (fst (v4_block_steps fuel (IPv4Address n) c)), t', out,
    (snd (v4_block_steps fuel (IPv4Address n) c)).
  split; [exact Hrun|]. split; [exact Hcalls|]. split; [|split].
  - rewrite (tiles_total _ _ _ Ht). lia.
  - pose proof (v4_block_steps_valid fuel (IPv4Address n) c) as Hv.
    eapply Forall_impl; [|exact Hv]. intros s Hs. cbv beta in Hs.
    destruct (IPv4Network_ok_v4 _ _ Hs) as [m Hm]. rewrite Hm in Hs.
    apply IPv4Network_ok_spec in Hs. split; [reflexivity|tauto].
  - rewrite Ht'. apply entries_attach_all.
Qed.

(** ** What a run can end with *)

(** The outcomes of parsing: a return, the [ValueError] of a field that
    cannot be read, the [AddressValueError] of the address addition, or a
    loop that goes on. *)
Lemma line_ops_outcome (fuel : nat) (line : string) :
  snd (line_ops fuel line) <> Raised KeyError
  /\ snd (line_ops fuel line) <> Raised IndexError.
Proof.
  unfold line_ops.
  destruct (skipped (line_fields line)); [split; discriminate|].
  destruct (py_int (field (line_fields line) 4)) as [n|];
    [|split; discriminate].
  destruct (String.eqb (field (line_fields line) 2) "ipv4").
  - destruct (ip_address (field (line_fields line) 3)) as [a|];
      [|split; discriminate].
    pose proof (v4_block_steps_outcome fuel a n) as H.
    destruct (v4_block_steps fuel a n) as [steps res].
    cbn [snd] in *. destruct H as [->|[->| ->]]; split; discriminate.
  - destruct (String.eqb (field (line_fields line) 2) "ipv6");
      [|split; discriminate].
    destruct (ip_address (field (line_fields line) 3)) as [a|];
      [|split; discriminate].
    destruct (radix_key (a, n)); split; discriminate.
Qed.

(** However a file ends, the trees hold what they held before and some of
    the attachments of its lines. *)
Lemma parse_nro_stats_state (fuel : nat) (fd : list string) :
  forall st, exists ops4 ops6,
    fst (fst (parse_nro_stats fuel fd st)) = attached st ops4 ops6
    /\ incl ops4 (file_ops4 fuel fd) /\ incl ops6 (file_ops6 fuel fd)
    /\ snd (parse_nro_stats fuel fd st) <> Raised KeyError
    /\ snd (parse_nro_stats fuel fd st) <> Raised IndexError.
Proof.
  induction fd as [|line fd IH]; intros st.
  - exists [], []. cbn [parse_nro_stats fst snd]. rewrite attached_nil.
    repeat split; try apply incl_nil_l; discriminate.
  - cbn [parse_nro_stats].
    destruct (parse_line_ops fuel st line) as [out1 ->].
    pose proof (line_ops_outcome fuel line) as [Hk Hi].
    destruct (snd (line_ops fuel line)) as [|e|] eqn:Hl.
    + destruct (IH (attached st (line_ops4 fuel line) (line_ops6 fuel line)))
        as (ops4 & ops6 & Hst & H4 & H6 & Hk' & Hi').
      destruct (parse_nro_stats fuel fd _) as [[st2 out2] res].
      cbn [fst snd] in *. subst st2. rewrite attached_app.
      exists (line_ops4 fuel line ++ ops4), (line_ops6 fuel line ++ ops6).
      unfold file_ops4, file_ops6. cbn [flat_map].
      repeat split; try assumption;
        (apply incl_app; [apply incl_appl, incl_refl|apply incl_appr]);
        assumption.
    + exists (line_ops4 fuel line), (line_ops6 fuel line).
      unfold file_ops4, file_ops6. cbn [flat_map fst snd].
      repeat split; try assumption; apply incl_appl, incl_refl.
    + exists (line_ops4 fuel line), (line_ops6 fuel line).
      unfold file_ops4, file_ops6. cbn [flat_map fst snd].
      repeat split; try discriminate; apply incl_appl, incl_refl.
Qed.

Lemma parse_files_state (fuel : nat) (files : list (list string)) :
  forall st, exists ops4 ops6,
    fst (fst (parse_files fuel files st)) = attached st ops4 ops6
    /\ incl ops4 (files_ops4 fuel files) /\ incl ops6 (files_ops6 fuel files)
    /\ snd (parse_files fuel files st) <> Raised KeyError
    /\ snd (parse_files fuel files st) <> Raised IndexError.
Proof.
  induction files as [|fd files IH]; intros st.
  - exists [], []. cbn [parse_files fst snd]. rewrite attached_nil.
    repeat split; try apply incl_nil_l; discriminate.
  - cbn [parse_files].
    destruct (parse_nro_stats_state fuel fd st)
      as (a4 & a6 & Hst1 & Ha4 & Ha6 & Hk1 & Hi1).
    destruct (parse_nro_stats fuel fd st) as [[st1 out1] res1].
    cbn [fst snd] in *. subst st1.
    destruct res1 as [|e|].
    + destruct (IH (attached st a4 a6))
        as (ops4 & ops6 & Hst & H4 & H6 & Hk' & Hi').
      destruct (parse_files fuel files _) as [[st2 out2] res].
      cbn [fst snd] in *. subst st2. rewrite attached_app.
      exists (a4 ++ ops4), (a6 ++ ops6).
      unfold files_ops4, files_ops6. cbn [flat_map].
      repeat split; try assumption;
        (apply incl_app; [apply incl_appl|apply incl_appr]); assumption.
    + exists a4, a6. unfold files_ops4, files_ops6. cbn [flat_map fst snd].
      repeat split; try assumption; apply incl_appl; assumption.
    + exists a4, a6. unfold files_ops4, files_ops6. cbn [flat_map fst snd].
      repeat split; try discriminate; apply incl_appl; assumption.
Qed.

(** X8.  The two writing loops of [main] never fail.  The run ends the way
    the parsing ends; that is never a [KeyError] (a node without its [info]
    list) nor an [IndexError] (a tuple too short for the format); and when
    the parsing returns, the IPv4 file and the IPv6 file get one row for
    every tuple attached to the tree, with the prefix of its node, in the
    order the tree is walked. *)
Theorem main_writes_every_entry :
  forall fuel files,
    snd (merge_files fuel files)
    = snd (parse_files fuel files empty_tries)
    /\ snd (merge_files fuel files) <> Raised KeyError
    /\ snd (merge_files fuel files) <> Raised IndexError
    /\ (snd (parse_files fuel files empty_tries) = Returned ->
        map fst (fst (fst (merge_files fuel files)))
        = map fst (entries
                     (v4radix (fst (fst (parse_files fuel files empty_tries)))))
        /\ map fst (snd (fst (merge_files fuel files)))
           = map fst (entries
                     (v6radix (fst (fst (parse_files fuel files empty_tries)))))).
Proof.
  intros fuel files.
  destruct (parse_files_state fuel files empty_tries)
    as (_ & _ & _ & _ & _ & Hk & Hi).
  assert (Hsame : snd (merge_files fuel files)
                  = snd (parse_files fuel files empty_tries)
          /\ (snd (parse_files fuel files empty_tries) = Returned ->
        map fst (fst (fst (merge_files fuel files)))
        = map fst (entries
                     (v4radix (fst (fst (parse_files fuel files empty_tries)))))
        /\ map fst (snd (fst (merge_files fuel files)))
           = map fst (entries
                     (v6radix (fst (fst (parse_files fuel files empty_tries))))))).
  { destruct (merge_files_rows fuel files) as [[Hok Hrun]|[Hbad Hrun]].
    - destruct (parse_files_ops fuel files empty_tries)
        as [[_ [out Hp]]|[Hbad _]]; [|contradiction].
      rewrite Hrun, Hp. cbn [fst snd attached v4radix v6radix empty_tries].
      split; [reflexivity|]. intros _. split.
      + apply rows_of_keys.
        pose proof (files_ops4_rows fuel files) as H.
        rewrite Forall_forall in *. intros e He. apply H.
        pose proof (entries_attach_all (files_ops4 fuel files) Leaf) as HP.
        apply (Permutation_in _ HP) in He. exact He.
      + apply rows_of_keys.
        pose proof (files_ops6_rows fuel files) as H.
        rewrite Forall_forall in *. intros e He. apply H.
        pose proof (entries_attach_all (files_ops6 fuel files) Leaf) as HP.
        apply (Permutation_in _ HP) in He. exact He.
    - destruct (parse_files_ops fuel files empty_tries)
        as [[Hok _]|[_ Hp]]; [contradiction|].
      split; [|intros E; contradiction].
      unfold merge_files in *.
      destruct (parse_files fuel files empty_tries) as [[st out] res].
      cbn [snd] in *. destruct res; [contradiction|reflexivity|reflexivity]. }
  destruct Hsame as [Hs Hrows]. rewrite Hs. auto.
Qed.

(** ** What the trees hold *)

(** X9.  However the parsing ends, every tuple in the IPv4 tree sits at an
    IPv4 prefix of a length between 0 and 32 and has seven fields, the
    seventh being the number of addresses of that prefix; every tuple in the
    IPv6 tree has the six fields built for a line. *)
Theorem trees_hold_well_formed_entries :
  forall fuel files,
    Forall (fun e =>
              exists size,
                0 <= size <= 32
                /\ hd true (fst e) = false
                /\ List.length (fst e) = S (Z.to_nat size)
                /\ List.length (snd e) = 7%nat
                /\ nth 6 (snd e) (PyInt 0) = PyInt (2 ^ (32 - size)))
      (entries (v4radix (fst (fst (parse_files fuel files empty_tries)))))
    /\ Forall (fun e => List.length (snd e) = 6%nat)
         (entries (v6radix (fst (fst (parse_files fuel files empty_tries))))).
Proof.
  intros fuel files.
  destruct (parse_files_state fuel files empty_tries)
    as (ops4 & ops6 & -> & H4 & H6 & _).
  cbn [attached v4radix v6radix empty_tries].
  split; rewrite Forall_forall; intros e He.
  - pose proof (entries_attach_all ops4 Leaf) as HP.
    apply (Permutation_in _ HP) in He. cbn [entries app] in He.
    apply H4 in He.
    destruct (files_ops4_In _ _ _ He) as (fd & line & _ & _ & Hop).
    destruct (line_ops4_shape _ _ _ Hop)
      as (n & a & s & _ & _ & _ & _ & Hs & ->).
    pose proof (v4_block_steps_valid fuel a n) as Hv.
    rewrite Forall_forall in Hv. specialize (Hv s Hs).
    destruct (IPv4Network_ok_v4 _ _ Hv) as [m Hm]. rewrite Hm in Hv.
    apply IPv4Network_ok_spec in Hv.
    exists (step_size s). unfold step_op, step_key. cbn [fst snd hd].
    split; [tauto|]. split; [reflexivity|]. split; [|split; reflexivity].
    cbn [List.length]. rewrite prefix_bits_length. reflexivity.
  - pose proof (entries_attach_all ops6 Leaf) as HP.
    apply (Permutation_in _ HP) in He. cbn [entries app] in He.
    apply H6 in He.
    destruct (files_ops6_In _ _ _ He) as (fd & line & _ & _ & Hop).
    destruct (line_ops6_shape _ _ _ Hop)
      as (n & a & k & _ & _ & _ & _ & _ & ->).
    reflexivity.
Qed.

(** ** Line endings and fields *)

Lemma list_ascii_of_string_app (s1 s2 : string) :
  list_ascii_of_string (s1 ++ s2)
  = (list_ascii_of_string s1 ++ list_ascii_of_string s2)%list.
Proof.
  induction s1 as [|a s1 IH]; cbn [String.append list_ascii_of_string app];
    [reflexivity|].
  rewrite IH. reflexivity.
Qed.

Lemma string_of_list_ascii_app (l1 l2 : list ascii) :
  string_of_list_ascii (l1 ++ l2)
  = (string_of_list_ascii l1 ++ string_of_list_ascii l2)%string.
Proof.
  induction l1 as [|a l1 IH]; cbn [String.append string_of_list_ascii app];
    [reflexivity|].
  rewrite IH. reflexivity.
Qed.

Lemma lstrip_head (c a : ascii) (l : list ascii) :
  a <> c -> lstrip c (a :: l) = a :: l.
Proof.
  intros H. cbn [lstrip]. destruct (Ascii.eqb_spec a c); [contradiction|].
  reflexivity.
Qed.

(** Stripping a character leaves a text that neither starts nor ends with
    it as it is. *)
Lemma strip_keeps (c a z : ascii) (l : list ascii) :
  a <> c -> z <> c ->
  strip c (string_of_list_ascii (a :: l ++ [z]))
  = string_of_list_ascii (a :: l ++ [z]).
Proof.
  intros Ha Hz. unfold strip.
  rewrite list_ascii_of_string_of_list_ascii.
  rewrite (lstrip_head c a _ Ha).
  replace (rev (a :: l ++ [z])) with (z :: rev (a :: l)).
  2:{ change (a :: l ++ [z]) with ((a :: l) ++ [z]).
      rewrite rev_app_distr. reflexivity. }
  rewrite (lstrip_head c z _ Hz).
  change (z :: rev (a :: l)) with ([z] ++ rev (a :: l))%list.
  rewrite rev_app_distr, rev_involutive. reflexivity.
Qed.

(** Stripping a character removes it from the end of a text that does not
    start with it and has another character before its last. *)
Lemma strip_last (c a z : ascii) (l : list ascii) :
  a <> c -> z <> c ->
  strip c (string_of_list_ascii (a :: l ++ [z; c]))
  = string_of_list_ascii (a :: l ++ [z]).
Proof.
  intros Ha Hz. unfold strip.
  rewrite list_ascii_of_string_of_list_ascii.
  rewrite (lstrip_head c a _ Ha).
  replace (rev (a :: l ++ [z; c])) with (c :: z :: rev (a :: l)).
  2:{ change (a :: l ++ [z; c]) with ((a :: l) ++ [z; c]).
      rewrite rev_app_distr. reflexivity. }
  cbn [lstrip]. rewrite Ascii.eqb_refl.
  destruct (Ascii.eqb_spec z c); [contradiction|].
  change (z :: rev (a :: l)) with ([z] ++ rev (a :: l))%list.
  rewrite rev_app_distr, rev_involutive. reflexivity.
Qed.

Lemma split_not_nil (sep : ascii) (s : string) : split sep s <> [].
Proof.
  destruct s as [|a s]; cbn [split]; [discriminate|].
  destruct (Ascii.eqb a sep); [discriminate|].
  destruct (split sep s); discriminate.
Qed.

(** A character other than the separator, put at the end of a text, goes
    to the end of the last field. *)
Lemma split_snoc (sep z : ascii) (s : string) :
  z <> sep ->
  split sep (s ++ String z EmptyString)
  = (removelast (split sep s)
     ++ [(last (split sep s) EmptyString ++ String z EmptyString)%string])%list.
Proof.
  intros Hz. induction s as [|a s IH].
  - cbn [String.append split removelast last app].
    destruct (Ascii.eqb_spec z sep); [contradiction|]. reflexivity.
  - cbn [String.append split]. rewrite IH.
    pose proof (split_not_nil sep s) as Hne.
    destruct (Ascii.eqb a sep).
    + destruct (split sep s) as [|f fs]; [contradiction|]. reflexivity.
    + destruct (split sep s) as [|f fs]; [contradiction|].
      destruct fs as [|g fs]; reflexivity.
Qed.

(** X10.  A line that ends in a carriage return and a line feed keeps the
    carriage return: [strip] is called for the carriage return first, when
    the line still ends in the line feed, so only the line feed is removed,
    and the last field of the line (the status column of a record with seven
    fields) ends in the carriage return. *)
Theorem crlf_line_keeps_carriage_return :
  forall c body,
    c <> CR -> c <> LF ->
    strip LF (strip CR (String c body ++ CRLF))
    = (String c body ++ String CR EmptyString)%string
    /\ line_fields (String c body ++ CRLF)
       = (removelast (split "|" (String c body))
          ++ [(last (split "|" (String c body)) EmptyString
               ++ String CR EmptyString)%string])%list.
Proof.
  intros c body Hc1 Hc2.
  assert (Hstrip : strip LF (strip CR (String c body ++ CRLF))
                   = (String c body ++ String CR EmptyString)%string).
  { rewrite <- (string_of_list_ascii_of_string body).
    set (l := list_ascii_of_string body).
    assert (E1 : (String c (string_of_list_ascii l) ++ CRLF)%string
                 = string_of_list_ascii (c :: l ++ [CR; LF])).
    { cbn [string_of_list_ascii String.append].
      rewrite string_of_list_ascii_app. reflexivity. }
    assert (E2 : (String c (string_of_list_ascii l)
                  ++ String CR EmptyString)%string
                 = string_of_list_ascii (c :: l ++ [CR])).
    { cbn [string_of_list_ascii String.append].
      rewrite string_of_list_ascii_app. reflexivity. }
    rewrite E1, E2.
    replace (l ++ [CR; LF])%list with ((l ++ [CR]) ++ [LF])%list
      by (rewrite <- app_assoc; reflexivity).
    rewrite (strip_keeps CR c LF (l ++ [CR]) Hc1) by discriminate.
    rewrite <- app_assoc. cbn [app].
    apply (strip_last LF c CR l Hc2). discriminate. }
  split; [exact Hstrip|].
  unfold line_fields. rewrite Hstrip. apply split_snoc. discriminate.
Qed.

Lemma split_length (sep : ascii) (s : string) :
  List.length (split sep s) = S (count_char sep s).
Proof.
  induction s as [|a s IH]; cbn [split count_char]; [reflexivity|].
  destruct (Ascii.eqb a sep); cbn [List.length]; [rewrite IH; reflexivity|].
  destruct (split sep s) as [|f fs]; [discriminate|]. exact IH.
Qed.

Lemma split_concat (sep : ascii) (s : string) :
  String.concat (String sep EmptyString) (split sep s) = s.
Proof.
  induction s as [|a s IH]; cbn [split]; [reflexivity|].
  pose proof (split_not_nil sep s) as Hne.
  destruct (Ascii.eqb_spec a sep) as [->|Hn].
  - destruct (split sep s) as [|f fs]; [contradiction|].
    cbn [String.concat String.append] in *. rewrite IH. reflexivity.
  - destruct (split sep s) as [|f fs]; [contradiction|].
    destruct fs as [|g fs]; cbn [String.concat String.append] in *;
      rewrite IH; reflexivity.
Qed.

(** X11.  The fields of a line lose nothing of it: joined again with the
    bar they give back the stripped line, and there is one field more than
    there are bars.  So a line with fewer than six bars is skipped, whatever
    else it holds: the trees stay as they are and nothing is raised. *)
Theorem line_fields_follow_the_bars :
  forall fuel st line,
    String.concat "|" (line_fields line) = strip LF (strip CR line)
    /\ List.length (line_fields line)
       = S (count_char "|" (strip LF (strip CR line)))
    /\ ((count_char "|" (strip LF (strip CR line)) < 6)%nat ->
        parse_line fuel st line = (st, [], Returned)).
Proof.
  intros fuel st line. unfold line_fields.
  split; [apply split_concat|]. split; [apply split_length|].
  intros Hlt. unfold parse_line, line_fields, skipped.
  rewrite split_length.
  destruct (Nat.ltb_spec (S (count_char "|" (strip LF (strip CR line)))) 7);
    [reflexivity|lia].
Qed.

(** ** Lines that are processed, passed over or refused *)

(** No field of a split text holds the separator. *)
Lemma split_no_sep (sep : ascii) (s : string) :
  Forall (fun f => count_char sep f = 0%nat) (split sep s).
Proof.
  induction s as [|a s IH]; cbn [split]; [repeat constructor|].
  destruct (Ascii.eqb a sep) eqn:E.
  - constructor; [reflexivity|exact IH].
  - pose proof (split_not_nil sep s) as Hne.
    destruct (split sep s) as [|f fs]; [contradiction|].
    inversion IH as [|? ? Hf Hfs]; subst.
    constructor; [|exact Hfs]. cbn [count_char]. rewrite E. exact Hf.
Qed.

(** A file of strings is parsed as [parse_nro_stats] says. *)
Lemma parse_nro_stats_fd_text (fuel : nat) (fd : list string) :
  forall st,
    parse_nro_stats_fd fuel (map Str_line fd) st = parse_nro_stats fuel fd st.
Proof.
  induction fd as [|line fd IH]; intros st; [reflexivity|].
  cbn [map parse_nro_stats_fd parse_nro_stats].
  unfold parse_file_line. cbn [line_text].
  destruct (parse_line fuel st line) as [[st1 out1] res1].
  destruct res1; try reflexivity. rewrite IH. reflexivity.
Qed.

(** C7, amended.  A line of bytes that is not valid UTF-8 raises
    [UnicodeDecodeError] and leaves the two trees as they are.  Any other
    line is a text, which is cut at every bar: the fields hold no bar and,
    joined by bars, give back the text without its line ending.  The line is
    processed if and only if there are at least seven fields and the third
    is [ipv4] or [ipv6].  A line that is not processed is passed over: the
    two trees stay as they are, nothing is printed and nothing is raised.  A
    line that is processed has its count read, which raises [ValueError] if
    it is not a number, and is then handed to [add_v4_block_to_radix] with
    the IPv4 tree, or, once its address is read, to [add_prefix_to_radix]
    with the IPv6 tree, which then holds the tuple of the line at the
    prefix. *)
Theorem parse_file_line_accepts :
  forall fuel st l,
    match line_text l with
    | None =>
        (exists data, l = Bytes_line data /\ utf8_valid data = false)
        /\ parse_file_line fuel st l = (st, [], Raised UnicodeDecodeError)
    | Some line =>
        let fields := line_fields line in
        let accepted :=
          (7 <= List.length fields)%nat
          /\ (field fields 2 = "ipv4"%string
              \/ field fields 2 = "ipv6"%string) in
        String.concat "|" fields = strip LF (strip CR line)
        /\ Forall (fun f => count_char "|" f = 0%nat) fields
        /\ (~ accepted -> parse_file_line fuel st l = (st, [], Returned))
        /\ (accepted ->
            parse_file_line fuel st l =
              match py_int (field fields 4) with
              | None => (st, [], Raised ValueError)
              | Some n =>
                  if String.eqb (field fields 2) "ipv4" then
                    let '(r, out, res) :=
                      add_v4_block_to_radix fuel (v4radix st)
                        (field fields 3) n (line_info fields n) in
                    ({| v4radix := r; v6radix := v6radix st |}, out, res)
                  else
                    match ip_address (field fields 3) with
                    | None => (st, [], Raised ValueError)
                    | Some a =>
                        let '(r, out, res) :=
                          add_prefix_to_radix (v6radix st) (a, n)
                            (line_info fields n) in
                        ({| v4radix := v4radix st; v6radix := r |}, out, res)
                    end
              end)
        /\ (accepted -> field fields 2 = "ipv6"%string ->
            forall n a k,
              py_int (field fields 4) = Some n ->
              ip_address (field fields 3) = Some a ->
              radix_key (a, n) = Some k ->
              snd (parse_file_line fuel st l) = Returned
              /\ v4radix (fst (fst (parse_file_line fuel st l))) = v4radix st
              /\ search_exact
                   (v6radix (fst (fst (parse_file_line fuel st l)))) k
                 = Some {| info :=
                             Some (node_infos (search_exact (v6radix st) k)
                                   ++ [line_info fields n]) |})
    end.
Proof.
  intros fuel st l. unfold parse_file_line.
  destruct (line_text l) as [line|] eqn:Hl.
  2:{ split; [|reflexivity]. destruct l as [text|data]; [discriminate|].
      exists data. split; [reflexivity|]. cbn [line_text] in Hl.
      unfold utf8_decode in Hl. destruct (utf8_valid data);
        [discriminate|reflexivity]. }
  cbv zeta. pose proof (skipped_false_iff (line_fields line)) as Hiff.
  split; [apply split_concat|]. split; [apply split_no_sep|].
  split; [|split].
  - intros Hn. unfold parse_line.
    destruct (skipped (line_fields line)); [reflexivity|].
    exfalso. apply Hn, Hiff. reflexivity.
  - intros Hacc. pose proof (proj2 Hiff Hacc) as Hsk.
    unfold parse_line, ingest_fields. rewrite Hsk.
    destruct (py_int (field (line_fields line) 4)) as [n|]; [|reflexivity].
    destruct Hacc as [_ [H4|H6]].
    + rewrite H4. reflexivity.
    + rewrite H6. reflexivity.
  - intros Hacc H6 n a k Hn Ha Hk. pose proof (proj2 Hiff Hacc) as Hsk.
    unfold parse_line, ingest_fields. rewrite Hsk, Hn, H6, Ha.
    cbn [String.eqb Ascii.eqb Bool.eqb].
    rewrite (add_prefix_to_radix_attach _ _ _ _ Hk).
    cbn [fst snd v4radix v6radix]. split; [reflexivity|].
    split; [reflexivity|]. unfold attach. cbn [fst snd].
    apply search_exact_alter_same.
Qed.

(** ** Blocks that are prefixes already *)

(** X12.  A record whose block is a CIDR block is inserted as that one
    prefix: when the count is [2 ^ k], the start address is a multiple of
    it and the logarithm of [2 ^ k] is read as [k], the whole call is the
    single insertion of [start/(32 - k)] with the count as seventh field. *)
Theorem cidr_block_is_one_prefix :
  forall fuel v4radix addr n k pinfo,
    ip_address addr = Some (IPv4Address n) ->
    0 <= k <= 32 -> int_log2 (2 ^ k) = k ->
    0 <= n -> n mod 2 ^ k = 0 -> n + 2 ^ k < 2 ^ 32 ->
    (2 <= fuel)%nat ->
    add_v4_block_to_radix fuel v4radix addr (2 ^ k) pinfo
    = add_prefix_to_radix v4radix (IPv4Address n, 32 - k)
        (pinfo ++ [PyInt (2 ^ k)])
    /\ snd (add_v4_block_to_radix fuel v4radix addr (2 ^ k) pinfo)
       = Returned.
Proof.
  intros fuel t addr n k pinfo Ha Hk Hlog Hn Hal Hsp Hfuel.
  assert (Hpos : 0 < 2 ^ k) by (apply Z.pow_pos_nonneg; lia).
  assert (Hok : IPv4Network_ok (IPv4Address n) (32 - k) = true).
  { apply IPv4Network_ok_spec. replace (32 - (32 - k)) with k by lia. lia. }
  assert (Hused : used_addrcount_of (32 - k) = 2 ^ k).
  { unfold used_addrcount_of. f_equal. lia. }
  assert (Hrun : add_v4_block_to_radix fuel t addr (2 ^ k) pinfo
                 = add_prefix_to_radix t (IPv4Address n, 32 - k)
                     (pinfo ++ [PyInt (2 ^ k)])).
  { unfold add_v4_block_to_radix. rewrite Ha.
    destruct fuel as [|[|fuel]]; try lia.
    cbn [add_v4_block_loop find_prefix_size].
    destruct (Z.gtb_spec (2 ^ k) 0); [|lia].
    rewrite Hlog, Hok, Hused.
    rewrite (add_prefix_to_radix_attach t _ _ _ (IPv4Network_ok_key _ _ Hok)).
    unfold ip_addr_add.
    destruct (Z.leb_spec 0 (n + 2 ^ k)); [|lia].
    destruct (Z.ltb_spec (n + 2 ^ k) (2 ^ 32)); [|lia].
    cbn [andb]. rewrite Z.sub_diag.
    destruct (Z.gtb_spec 0 0); [lia|]. rewrite app_nil_r. reflexivity. }
  split; [exact Hrun|]. rewrite Hrun.
  rewrite (add_prefix_to_radix_attach t _ _ _ (IPv4Network_ok_key _ _ Hok)).
  reflexivity.
Qed.

(** ** Nothing is lost, and nothing is written after a failure *)

Lemma rows_of_complete (fmt : key -> prefix_info -> option row)
    (es : list (key * prefix_info)) (e : key * prefix_info) (r : row) :
  In e es -> fmt (fst e) (snd e) = Some r -> In r (rows_of fmt es).
Proof.
  induction es as [|e' es IH]; cbn [In rows_of]; [contradiction|].
  intros [->|Hin] He.
  - rewrite He. left. reflexivity.
  - destruct (fmt (fst e') (snd e')); [right|]; apply IH; assumption.
Qed.

Lemma rows_of_length (fmt : key -> prefix_info -> option row)
    (es : list (key * prefix_info)) :
  Forall (fun e => exists cells, fmt (fst e) (snd e) = Some (fst e, cells))
         es ->
  List.length (rows_of fmt es) = List.length es.
Proof.
  induction 1 as [|e es (cells & He) _ IH]; cbn [rows_of List.length];
    [reflexivity|].
  rewrite He. cbn [List.length]. rewrite IH. reflexivity.
Qed.

Lemma line_ops4_complete (fuel : nat) (line : string)
    (rec : DelegationRecord) (a : ip_addr) (s : block_step) :
  line_record line = Some rec ->
  protocol rec = "ipv4"%string ->
  ip_address (block_start rec) = Some a ->
  In s (fst (v4_block_steps fuel a (block_size rec))) ->
  In (step_op (record_info rec) s) (line_ops4 fuel line).
Proof.
  unfold line_record, line_ops4, line_ops.
  destruct (skipped (line_fields line)); [discriminate|].
  destruct (py_int (field (line_fields line) 4)) as [n|]; [|discriminate].
  intros H. injection H as <-. cbn [protocol block_start block_size].
  intros -> ->. cbn [String.eqb Ascii.eqb Bool.eqb].
  destruct (v4_block_steps fuel a n) as [steps res]. cbn [fst].
  intros Hs. apply in_map. exact Hs.
Qed.

Lemma line_ops6_complete (fuel : nat) (line : string)
    (rec : DelegationRecord) (a : ip_addr) (k : key) :
  line_record line = Some rec ->
  protocol rec = "ipv6"%string ->
  ip_address (block_start rec) = Some a ->
  radix_key (a, block_size rec) = Some k ->
  In (k, record_info rec) (line_ops6 fuel line).
Proof.
  unfold line_record, line_ops6, line_ops.
  destruct (skipped (line_fields line)); [discriminate|].
  destruct (py_int (field (line_fields line) 4)) as [n|]; [|discriminate].
  intros H. injection H as <-. cbn [protocol block_start block_size].
  intros -> -> ->. cbn [String.eqb Ascii.eqb Bool.eqb fst snd].
  left. reflexivity.
Qed.

(** X13.  No record is lost on the way to the output.  When the run
    returns, the IPv4 file has a row for every prefix of the decomposition
    of every accepted [ipv4] line, and the IPv6 file a row for every
    accepted [ipv6] line, each with the cells of its line; and neither file
    has any other row: there are as many rows as insertions into the
    tree. *)
Theorem every_record_is_written :
  forall fuel files rows4 rows6,
    merge_files fuel files = ((rows4, rows6), Returned) ->
    (forall fd line rec a s,
        In fd files -> In line fd ->
        line_record line = Some rec ->
        protocol rec = "ipv4"%string ->
        ip_address (block_start rec) = Some a ->
        In s (fst (v4_block_steps fuel a (block_size rec))) ->
        In (step_key s,
            [PyStr (registry rec); PyStr (modified_date rec);
             PyStr (country_code rec); PyStr (status rec);
             PyStr (block_start rec); PyInt (block_size rec)]) rows4)
    /\ (forall fd line rec a k,
          In fd files -> In line fd ->
          line_record line = Some rec ->
          protocol rec = "ipv6"%string ->
          ip_address (block_start rec) = Some a ->
          radix_key (a, block_size rec) = Some k ->
          In (k, [PyStr (registry rec); PyStr (modified_date rec);
                  PyStr (country_code rec); PyStr (status rec)]) rows6)
    /\ List.length rows4 = List.length (files_ops4 fuel files)
    /\ List.length rows6 = List.length (files_ops6 fuel files).
Proof.
  intros fuel files rows4 rows6 Hrun.
  destruct (merge_files_rows fuel files) as [[_ Hrows]|[_ Hbad]].
  2:{ rewrite Hrun in Hbad. contradiction Hbad. reflexivity. }
  rewrite Hrun in Hrows. injection Hrows as -> ->.
  pose proof (entries_attach_all (files_ops4 fuel files) Leaf) as P4.
  pose proof (entries_attach_all (files_ops6 fuel files) Leaf) as P6.
  cbn [entries app] in P4, P6.
  split; [|split; [|split]].
  - intros fd line rec a s Hfd Hline Hrec H4 Ha Hs.
    apply (rows_of_complete v4_row _ (step_op (record_info rec) s));
      [|reflexivity].
    apply (Permutation_in _ (Permutation_sym P4)).
    unfold files_ops4, file_ops4. apply in_flat_map. exists fd.
    split; [assumption|]. apply in_flat_map. exists line.
    split; [assumption|]. apply (line_ops4_complete _ _ _ a); assumption.
  - intros fd line rec a k Hfd Hline Hrec H6 Ha Hk.
    apply (rows_of_complete v6_row _ (k, record_info rec)); [|reflexivity].
    apply (Permutation_in _ (Permutation_sym P6)).
    unfold files_ops6, file_ops6. apply in_flat_map. exists fd.
    split; [assumption|]. apply in_flat_map. exists line.
    split; [assumption|]. apply (line_ops6_complete _ _ _ a); assumption.
  - rewrite <- (Permutation_length P4). apply rows_of_length.
    pose proof (files_ops4_rows fuel files) as H.
    rewrite Forall_forall in *. intros e He. apply H.
    apply (Permutation_in _ P4 He).
  - rewrite <- (Permutation_length P6). apply rows_of_length.
    pose proof (files_ops6_rows fuel files) as H.
    rewrite Forall_forall in *. intros e He. apply H.
    apply (Permutation_in _ P6 He).
Qed.

Lemma parse_files_app (fuel : nat) (files1 files2 : list (list string)) :
  forall st,
    parse_files fuel (files1 ++ files2) st =
      match parse_files fuel files1 st with
      | (st1, out1, Returned) =>
          let '(st2, out2, res) := parse_files fuel files2 st1 in
          (st2, out1 ++ out2, res)
      | stopped => stopped
      end.
Proof.
  induction files1 as [|fd files1 IH]; intros st.
  - cbn [app parse_files].
    destruct (parse_files fuel files2 st) as [[st2 out2] res]. reflexivity.
  - cbn [app parse_files].
    destruct (parse_nro_stats fuel fd st) as [[st1 out1] res1].
    destruct res1; try reflexivity.
    rewrite IH.
    destruct (parse_files fuel files1 st1) as [[st2 out2] res2].
    destruct res2; try reflexivity.
    destruct (parse_files fuel files2 st2) as [[st3 out3] res3].
    rewrite app_assoc. reflexivity.
Qed.

(** X14.  One record that cannot be read spoils the run, in whichever file
    it is.  When an accepted line has a count that is not a number, or is an
    [ipv4] line with a start address that is not an address, and the files
    before its file and the lines before it in its file are parsed without
    an error, the run ends with [ValueError] and writes no row at all,
    whatever the lines after it and the later files hold. *)
Theorem unreadable_record_aborts_the_run :
  forall fuel earlier before line after later st1 out1,
    parse_files fuel earlier empty_tries = (st1, out1, Returned) ->
    snd (parse_nro_stats fuel before st1) = Returned ->
    skipped (line_fields line) = false ->
    (py_int (field (line_fields line) 4) = None
     \/ (field (line_fields line) 2 = "ipv4"%string
         /\ ip_address (field (line_fields line) 3) = None)) ->
    merge_files fuel (earlier ++ (before ++ line :: after) :: later)
    = (([], []), Raised ValueError).
Proof.
  intros fuel earlier before line after later st1 out1 He Hb Hsk Hbad.
  assert (Hline : forall st,
            parse_line fuel st line = (st, [], Raised ValueError)).
  { intros st. unfold parse_line, ingest_fields. rewrite Hsk.
    destruct Hbad as [->|[H4 Ha]]; [reflexivity|].
    destruct (py_int (field (line_fields line) 4)) as [n|]; [|reflexivity].
    rewrite H4. cbn [String.eqb Ascii.eqb Bool.eqb].
    unfold add_v4_block_to_radix. rewrite Ha. destruct st; reflexivity. }
  unfold merge_files. rewrite parse_files_app, He. cbn [parse_files].
  rewrite parse_nro_stats_app.
  destruct (parse_nro_stats fuel before st1) as [[st2 out2] res2].
  cbn [snd] in Hb. subst res2. cbn [parse_nro_stats]. rewrite Hline.
  reflexivity.
Qed.

End Behaviour.

(** * Properties of the fetchers *)

Section Fetchers.

(** ** The order of dates *)

Lemma date_ltb_spec (a b : date) :
  date_ltb a b = true <->
  date_year a < date_year b
  \/ (date_year a = date_year b
      /\ (date_month a < date_month b
          \/ (date_month a = date_month b /\ date_day a < date_day b))).
Proof.
  unfold date_ltb, date_compare.
  destruct (Z.compare_spec (date_year a) (date_year b));
    [|split; [lia|reflexivity]|split; [discriminate|lia]].
  destruct (Z.compare_spec (date_month a) (date_month b));
    [|split; [lia|reflexivity]|split; [discriminate|lia]].
  destruct (Z.compare_spec (date_day a) (date_day b));
    split; try discriminate; try reflexivity; lia.
Qed.

Lemma date_leb_spec (a b : date) :
  date_leb a b = true <->
  date_year a < date_year b
  \/ (date_year a = date_year b
      /\ (date_month a < date_month b
          \/ (date_month a = date_month b /\ date_day a <= date_day b))).
Proof.
  unfold date_leb, date_compare.
  destruct (Z.compare_spec (date_year a) (date_year b));
    [|split; [lia|reflexivity]|split; [discriminate|lia]].
  destruct (Z.compare_spec (date_month a) (date_month b));
    [|split; [lia|reflexivity]|split; [discriminate|lia]].
  destruct (Z.compare_spec (date_day a) (date_day b));
    split; try discriminate; try reflexivity; lia.
Qed.

Lemma date_eqb_spec (a b : date) : date_eqb a b = true <-> a = b.
Proof.
  unfold date_eqb, date_compare. destruct a as [ya ma da], b as [yb mb db].
  cbn [date_year date_month date_day].
  destruct (Z.compare_spec ya yb);
    [|split; [discriminate|intros E; injection E; lia]
     |split; [discriminate|intros E; injection E; lia]].
  destruct (Z.compare_spec ma mb);
    [|split; [discriminate|intros E; injection E; lia]
     |split; [discriminate|intros E; injection E; lia]].
  destruct (Z.compare_spec da db);
    [|split; [discriminate|intros E; injection E; lia]
     |split; [discriminate|intros E; injection E; lia]].
  subst. split; reflexivity.
Qed.

Lemma date_ltb_false (a b : date) :
  date_ltb a b = false <-> date_leb b a = true.
Proof.
  rewrite <- not_true_iff_false, date_ltb_spec, date_leb_spec. lia.
Qed.

Lemma date_leb_false (a b : date) :
  date_leb a b = false <-> date_ltb b a = true.
Proof.
  rewrite <- not_true_iff_false, date_ltb_spec, date_leb_spec. lia.
Qed.

(** Comparisons of dates, by the arithmetic of their fields. *)
Ltac date_order :=
  repeat match goal with
    | H : date_ltb _ _ = false |- _ => apply date_ltb_false in H
    | H : date_leb _ _ = false |- _ => apply date_leb_false in H
    | H : date_ltb _ _ = true |- _ => apply date_ltb_spec in H
    | H : date_leb _ _ = true |- _ => apply date_leb_spec in H
    | |- date_ltb _ _ = false => apply date_ltb_false
    | |- date_leb _ _ = false => apply date_leb_false
    end;
  try apply date_ltb_spec; try apply date_leb_spec;
  cbn [date_year date_month date_day datetime_date] in *; lia.

(** ** The days a fetcher asks for *)

Lemma in_range_split (r : date * date * date) (day : date) :
  in_range r day = true ->
  date_leb (fst (fst r)) day = true /\ date_leb day (snd (fst r)) = true.
Proof. unfold in_range. apply andb_true_iff. Qed.

Lemma replace_missing_not_listed (rir : string)
    (table : list (date * date * date)) (day : date) :
  listed_missing table day = false ->
  replace_missing rir table day = (day, []).
Proof.
  induction table as [|r rest IH]; cbn [listed_missing existsb]; intros H;
    [reflexivity|].
  apply orb_false_iff in H. destruct H as [Hr Hrest].
  cbn [replace_missing]. unfold in_range in Hr. rewrite Hr. apply IH, Hrest.
Qed.

Lemma sorted_ranges_later (r : date * date * date)
    (rest : list (date * date * date)) :
  forallb (fun r' => date_ltb (snd r) (fst (fst r'))) rest = true ->
  listed_missing rest (snd r) = false.
Proof.
  induction rest as [|r' rest IH]; cbn [forallb listed_missing existsb];
    intros H; [reflexivity|].
  apply andb_true_iff in H. destruct H as [Hlt Hrest].
  apply orb_false_iff. split; [|apply IH, Hrest].
  unfold in_range. apply andb_false_iff. left. date_order.
Qed.

(** In a sorted table the replacement of a range lies in no range. *)
Lemma sorted_ranges_replacement (table : list (date * date * date)) :
  sorted_ranges table = true ->
  forall r, In r table ->
            date_leb (fst (fst r)) (snd (fst r)) = true
            /\ date_ltb (snd (fst r)) (snd r) = true
            /\ listed_missing table (snd r) = false.
Proof.
  induction table as [|r0 rest IH]; intros Hs r Hin; [contradiction|].
  cbn [sorted_ranges] in Hs.
  apply andb_true_iff in Hs. destruct Hs as [Hs Hsrest].
  apply andb_true_iff in Hs. destruct Hs as [Hs Hlater].
  apply andb_true_iff in Hs. destruct Hs as [Hle Hlt].
  destruct Hin as [<-|Hin].
  - split; [assumption|]. split; [assumption|].
    cbn [listed_missing existsb]. apply orb_false_iff. split.
    + unfold in_range. apply andb_false_iff. right. date_order.
    + apply sorted_ranges_later, Hlater.
  - destruct (IH Hsrest r Hin) as (Hle' & Hlt' & Hn).
    split; [assumption|]. split; [assumption|].
    cbn [listed_missing existsb]. apply orb_false_iff. split; [|exact Hn].
    unfold in_range. apply andb_false_iff. right.
    rewrite forallb_forall in Hlater. specialize (Hlater r Hin).
    date_order.
Qed.

(** In a sorted table a listed day is replaced by the replacement of its
    range. *)
Lemma replace_missing_listed (rir : string)
    (table : list (date * date * date)) :
  sorted_ranges table = true ->
  forall day r, In r table -> in_range r day = true ->
                fst (replace_missing rir table day) = snd r.
Proof.
  induction table as [|r0 rest IH]; intros Hs day r Hin Hr; [contradiction|].
  cbn [sorted_ranges] in Hs.
  apply andb_true_iff in Hs. destruct Hs as [Hs Hsrest].
  apply andb_true_iff in Hs. destruct Hs as [Hs Hlater].
  apply andb_true_iff in Hs. destruct Hs as [Hle Hlt].
  cbn [replace_missing]. fold (in_range r0 day).
  destruct (in_range r0 day) eqn:H0.
  - rewrite (replace_missing_not_listed rir rest (snd r0)
               (sorted_ranges_later r0 rest Hlater)).
    cbn [fst]. destruct Hin as [<-|Hin]; [reflexivity|].
    exfalso. rewrite forallb_forall in Hlater. specialize (Hlater r Hin).
    apply in_range_split in H0, Hr. destruct H0 as [_ H0], Hr as [Hr _].
    date_order.
  - destruct Hin as [<-|Hin]; [congruence|]. apply (IH Hsrest day r Hin Hr).
Qed.

Lemma replace_missing_sorted (rir : string)
    (table : list (date * date * date)) (day : date) :
  sorted_ranges table = true ->
  listed_missing table (fst (replace_missing rir table day)) = false
  /\ date_leb day (fst (replace_missing rir table day)) = true
  /\ (listed_missing table day = false ->
      replace_missing rir table day = (day, []))
  /\ (forall r, In r table -> in_range r day = true ->
                fst (replace_missing rir table day) = snd r).
Proof.
  intros Hs.
  assert (Hlisted := replace_missing_listed rir table Hs day).
  split; [|split; [|split; [apply replace_missing_not_listed|exact Hlisted]]].
  - destruct (listed_missing table day) eqn:Hl.
    + unfold listed_missing in Hl. apply existsb_exists in Hl.
      destruct Hl as (r & Hin & Hr). rewrite (Hlisted r Hin Hr).
      apply (sorted_ranges_replacement table Hs r Hin).
    + rewrite (replace_missing_not_listed rir table day Hl). exact Hl.
  - destruct (listed_missing table day) eqn:Hl.
    + unfold listed_missing in Hl. apply existsb_exists in Hl.
      destruct Hl as (r & Hin & Hr). rewrite (Hlisted r Hin Hr).
      destruct (sorted_ranges_replacement table Hs r Hin) as (_ & Hlt & _).
      apply in_range_split in Hr. destruct Hr as [_ Hr]. date_order.
    + rewrite (replace_missing_not_listed rir table day Hl). cbn [fst].
      date_order.
Qed.

(** X15.  The fetchers of AfriNIC, ARIN, APNIC and LACNIC never ask for a
    day their table lists as missing.  The day the loop over
    [missing_dateranges] ends with lies in no range of the table; it is the
    day asked when that day is in no range, and nothing is printed then;
    otherwise it is the replacement of the range the day is in, which is a
    later day. *)
Theorem missing_days_are_replaced :
  forall rir table day,
    In table [afrinic_missing_dateranges; arin_missing_dateranges;
              apnic_missing_dateranges; lacnic_missing_dateranges] ->
    listed_missing table (fst (replace_missing rir table day)) = false
    /\ date_leb day (fst (replace_missing rir table day)) = true
    /\ (listed_missing table day = false ->
        replace_missing rir table day = (day, []))
    /\ (forall r, In r table -> in_range r day = true ->
                  fst (replace_missing rir table day) = snd r
                  /\ date_ltb day (snd r) = true).
Proof.
  intros rir table day Hin.
  assert (Hs : sorted_ranges table = true).
  { cbn [In] in Hin. destruct Hin as [<-|[<-|[<-|[<-|[]]]]]; reflexivity. }
  destruct (replace_missing_sorted rir table day Hs) as (H1 & H2 & H3 & H4).
  split; [exact H1|]. split; [exact H2|]. split; [exact H3|].
  intros r Hr Hday. split; [apply (H4 r Hr Hday)|].
  destruct (sorted_ranges_replacement table Hs r Hr) as (_ & Hlt & _).
  apply in_range_split in Hday. destruct Hday as [_ Hday]. date_order.
Qed.

(** ** Texts and their ends *)

Lemma string_length_list (s : string) :
  String.length s = List.length (list_ascii_of_string s).
Proof.
  induction s as [|a s IH]; cbn [String.length list_ascii_of_string
                                   List.length]; [reflexivity|].
  rewrite IH. reflexivity.
Qed.

Lemma string_length_app (a b : string) :
  String.length (a ++ b) = (String.length a + String.length b)%nat.
Proof.
  rewrite !string_length_list, list_ascii_of_string_app. apply length_app.
Qed.

Lemma string_app_assoc (a b c : string) :
  ((a ++ b) ++ c = a ++ (b ++ c))%string.
Proof.
  induction a as [|x a IH]; cbn [String.append]; [reflexivity|].
  rewrite IH. reflexivity.
Qed.

Lemma starts_with_app (p : list ascii) :
  forall l l',
    (List.length p <= List.length l)%nat ->
    starts_with (l ++ l') p = starts_with l p.
Proof.
  induction p as [|c p IH]; intros l l' H; [reflexivity|].
  destruct l as [|a l]; cbn [List.length] in H; [lia|].
  cbn [app starts_with]. rewrite IH by lia. reflexivity.
Qed.

Lemma starts_with_itself (p l : list ascii) : starts_with (p ++ l) p = true.
Proof.
  induction p as [|c p IH]; [reflexivity|].
  cbn [app starts_with]. rewrite Ascii.eqb_refl. exact IH.
Qed.

(** Whether a text ends with a suffix is decided by any tail of it that is
    as long as the suffix. *)
Lemma endswith_app (a b suffix : string) :
  (String.length suffix <= String.length b)%nat ->
  endswith (a ++ b) suffix = endswith b suffix.
Proof.
  intros H. unfold endswith.
  rewrite list_ascii_of_string_app, rev_app_distr.
  apply starts_with_app. rewrite !length_rev, <- !string_length_list.
  exact H.
Qed.

Lemma endswith_suffix (a suffix : string) :
  endswith (a ++ suffix) suffix = true.
Proof.
  unfold endswith. rewrite list_ascii_of_string_app, rev_app_distr.
  apply starts_with_itself.
Qed.

Lemma open_nro_stats_file_app (a b : string) :
  (4 <= String.length b)%nat ->
  open_nro_stats_file (a ++ b) = open_nro_stats_file b.
Proof.
  intros H. unfold open_nro_stats_file.
  rewrite !(endswith_app a b) by (cbn [String.length]; lia). reflexivity.
Qed.

Lemma open_nro_stats_file_gz (a : string) :
  open_nro_stats_file (a ++ ".gz") = Gzip_open.
Proof. unfold open_nro_stats_file. rewrite endswith_suffix. reflexivity. Qed.

Lemma open_nro_stats_file_bz2 (a : string) :
  open_nro_stats_file (a ++ ".bz2") = BZ2File.
Proof.
  unfold open_nro_stats_file.
  rewrite (endswith_app a ".bz2" ".gz") by (cbn [String.length]; lia).
  rewrite endswith_suffix. reflexivity.
Qed.

(** ** Digits *)

Lemma is_digit_not_z (c : ascii) :
  is_digit c = true -> Ascii.eqb c "z" = false.
Proof.
  intros H. destruct c as [[] [] [] [] [] [] [] []]; try reflexivity;
    vm_compute in H; discriminate.
Qed.

Lemma uint_digits (u : Decimal.uint) :
  Forall (fun c => is_digit c = true)
    (list_ascii_of_string (NilEmpty.string_of_uint u)).
Proof.
  induction u; cbn [NilEmpty.string_of_uint list_ascii_of_string];
    constructor; try assumption; reflexivity.
Qed.

Lemma py_str_digits (n : Z) :
  0 <= n ->
  Forall (fun c => is_digit c = true) (list_ascii_of_string (py_str n)).
Proof.
  intros H. unfold py_str. destruct n as [|p|p]; [| |lia].
  - repeat constructor.
  - cbn [Z.to_int NilZero.string_of_int]. unfold NilZero.string_of_uint.
    pose proof (uint_digits (Pos.to_uint p)) as Hd.
    destruct (Pos.to_uint p); try exact Hd. repeat constructor.
Qed.

Lemma zero_fill_digits (width : nat) (s : string) :
  Forall (fun c => is_digit c = true) (list_ascii_of_string s) ->
  Forall (fun c => is_digit c = true)
    (list_ascii_of_string (zero_fill width s)).
Proof.
  intros H. unfold zero_fill.
  rewrite list_ascii_of_string_app, list_ascii_of_string_of_list_ascii.
  apply Forall_app. split; [|exact H].
  rewrite Forall_forall. intros c Hc. apply repeat_spec in Hc. subst c.
  reflexivity.
Qed.

Lemma zero_fill_length (width : nat) (s : string) :
  (width <= String.length (zero_fill width s))%nat.
Proof.
  unfold zero_fill. rewrite string_length_app.
  rewrite (string_length_list (string_of_list_ascii _)).
  rewrite list_ascii_of_string_of_list_ascii, repeat_length. lia.
Qed.

Lemma format_d_digits (width : nat) (n : Z) :
  0 <= n ->
  Forall (fun c => is_digit c = true)
    (list_ascii_of_string (format_d width n)).
Proof.
  intros H. unfold format_d. destruct (Z.ltb_spec n 0); [lia|].
  apply zero_fill_digits, py_str_digits, H.
Qed.

Lemma format_d_length (width : nat) (n : Z) :
  (width <= String.length (format_d width n))%nat.
Proof.
  unfold format_d. destruct (n <? 0).
  - rewrite string_length_app. cbn [String.length].
    pose proof (zero_fill_length (width - 1) (py_str (- n))). lia.
  - apply zero_fill_length.
Qed.

Lemma yyyymmdd_length (day : date) : (8 <= String.length (yyyymmdd day))%nat.
Proof.
  unfold yyyymmdd. rewrite !string_length_app.
  pose proof (format_d_length 4 (date_year day)).
  pose proof (format_d_length 2 (date_month day)).
  pose proof (format_d_length 2 (date_day day)). lia.
Qed.

Lemma yyyymmdd_digits (day : date) :
  0 <= date_year day -> 0 <= date_month day -> 0 <= date_day day ->
  Forall (fun c => is_digit c = true) (list_ascii_of_string (yyyymmdd day)).
Proof.
  intros Hy Hm Hd. unfold yyyymmdd. rewrite !list_ascii_of_string_app.
  repeat (apply Forall_app; split); apply format_d_digits; assumption.
Qed.

(** A text of digits is opened as it is. *)
Lemma open_nro_stats_file_digits (a s : string) :
  Forall (fun c => is_digit c = true) (list_ascii_of_string s) ->
  (4 <= String.length s)%nat ->
  open_nro_stats_file (a ++ s) = Plain_open.
Proof.
  intros Hd Hl. rewrite (open_nro_stats_file_app a s Hl).
  unfold open_nro_stats_file, endswith.
  rewrite string_length_list in Hl. rewrite <- length_rev in Hl.
  apply Forall_rev in Hd.
  destruct (rev (list_ascii_of_string s)) as [|d1 [|d2 l]];
    cbn [List.length] in Hl; try lia.
  inversion Hd as [|? ? H1 Hd']; subst. inversion Hd' as [|? ? H2 _]; subst.
  cbn [list_ascii_of_string rev app starts_with].
  rewrite (is_digit_not_z d1 H1), (is_digit_not_z d2 H2).
  cbn [andb]. rewrite andb_false_r. reflexivity.
Qed.

(** ** What the fetchers do *)

Lemma replace_missing_prints (rir : string)
    (table : list (date * date * date)) :
  forall day e,
    In e (snd (replace_missing rir table day)) -> exists s, e = Stdout s.
Proof.
  induction table as [|r rest IH]; intros day e; cbn [replace_missing].
  - intros [].
  - destruct (date_leb (fst (fst r)) day && date_leb day (snd (fst r))).
    + specialize (IH (snd r) e).
      destruct (replace_missing rir rest (snd r)) as [d' out].
      cbn [snd] in *. intros [<-|H]; [unfold print; eauto|auto].
    + apply IH.
Qed.

Lemma adjust_year_prints (rir : string) (table : list (date * Z))
    (day : date) :
  forall year e,
    In e (snd (adjust_year rir table day year)) -> exists s, e = Stdout s.
Proof.
  induction table as [|x rest IH]; intros year e; cbn [adjust_year].
  - intros [].
  - destruct (date_eqb day (fst x)).
    + specialize (IH (snd x) e).
      destruct (adjust_year rir rest day (snd x)) as [y' out].
      cbn [snd] in *. intros [<-|H]; [unfold print; eauto|auto].
    + apply IH.
Qed.

(** What [replace_missing] keeps: a property of the day asked and of every
    replacement of the table holds of the day it ends with. *)
Lemma replace_missing_keeps (P : date -> Prop) (rir : string)
    (table : list (date * date * date)) :
  Forall (fun r => P (snd r)) table ->
  forall day, P day -> P (fst (replace_missing rir table day)).
Proof.
  induction 1 as [|r rest Hr _ IH]; intros day Hday; cbn [replace_missing];
    [exact Hday|].
  destruct (date_leb (fst (fst r)) day && date_leb day (snd (fst r))).
  - specialize (IH (snd r) Hr).
    destruct (replace_missing rir rest (snd r)) as [d' out]. exact IH.
  - apply IH, Hday.
Qed.

Lemma download_request (urlretrieve : string -> string -> bool)
    (rir url tmpfile : string) :
  (forall u p, In (Urlretrieve u p) (fst (download urlretrieve rir url tmpfile))
               -> u = url /\ p = tmpfile)
  /\ (forall f, snd (download urlretrieve rir url tmpfile) = Fetched f ->
                f = tmpfile).
Proof.
  unfold download, stdout_write, print.
  destruct (urlretrieve url tmpfile); cbn [fst snd In]; split.
  - intros u p [H|[H|[H|[]]]]; try discriminate. injection H as <- <-. auto.
  - intros f H. injection H as <-. reflexivity.
  - intros u p [H|[H|[]]]; try discriminate. injection H as <- <-. auto.
  - intros f H. discriminate.
Qed.

(** The fetchers, with the local names replaced by what they stand for. *)
Lemma fetch_afrinic_nrostats_eq (urlretrieve : string -> string -> bool)
    (day : date) :
  fetch_afrinic_nrostats urlretrieve day =
    if date_ltb day (datetime_date 2005 3 3) then
      ([Create_empty (tmpdir ++ "/afrinic-empty")],
       Fetched (tmpdir ++ "/afrinic-empty"))
    else
      let asked :=
        replace_missing "AfriNIC" afrinic_missing_dateranges day in
      let dir :=
        adjust_year "AfriNIC" afrinic_exception_dates (fst asked)
          (date_year (fst asked)) in
      let got :=
        download urlretrieve "AfriNIC"
          (ripe_base_url ++ "/" ++ afrinic_sub ++ "/" ++ py_str (fst dir)
           ++ "/delegated-afrinic-" ++ yyyymmdd (fst asked))
          (tmpdir ++ "/afrinic-" ++ yyyymmdd (fst asked)) in
      (snd asked ++ snd dir ++ fst got, snd got).
Proof.
  unfold fetch_afrinic_nrostats.
  destruct (date_ltb day (datetime_date 2005 3 3)); [reflexivity|].
  destruct (replace_missing "AfriNIC" afrinic_missing_dateranges day)
    as [d' out1].
  cbv zeta. cbn [fst snd].
  destruct (adjust_year "AfriNIC" afrinic_exception_dates d' (date_year d'))
    as [y out2].
  cbn [fst snd]. destruct (download _ _ _ _) as [out3 res]. reflexivity.
Qed.

Lemma fetch_arin_nrostats_eq (urlretrieve : string -> string -> bool)
    (day : date) :
  fetch_arin_nrostats urlretrieve day =
    if date_ltb day (datetime_date 2003 11 20) then
      ([Create_empty (tmpdir ++ "/arin-empty")],
       Fetched (tmpdir ++ "/arin-empty"))
    else
      let asked := replace_missing "ARIN" arin_missing_dateranges day in
      let filename_postfix :=
        if date_leb (fst asked) (datetime_date 2007 9 30)
        then Some ".gz"%string
        else None in
      let got :=
        download urlretrieve "ARIN"
          (add_postfix
             ((if date_year day <? 2017
               then ripe_base_url ++ "/" ++ arin_sub ++ "/"
                    ++ "archive/" ++ py_str (date_year day)
               else ripe_base_url ++ "/" ++ arin_sub)
              ++ "/"
              ++ (if date_leb (datetime_date 2013 3 5) (fst asked)
                  then "delegated-arin-extended"
                  else "delegated-arin")
              ++ "-" ++ yyyymmdd (fst asked))
             filename_postfix)
          (add_postfix (tmpdir ++ "/arin-" ++ yyyymmdd (fst asked))
             filename_postfix) in
      (snd asked ++ fst got, snd got).
Proof.
  unfold fetch_arin_nrostats.
  destruct (date_ltb day (datetime_date 2003 11 20)); [reflexivity|].
  destruct (replace_missing "ARIN" arin_missing_dateranges day) as [d' out1].
  cbv zeta. cbn [fst snd].
  destruct (date_year day <? 2017);
    rewrite ?string_app_assoc;
    destruct (download _ _ _ _) as [out3 res]; reflexivity.
Qed.

Lemma fetch_apnic_nrostats_eq (urlretrieve : string -> string -> bool)
    (day : date) :
  fetch_apnic_nrostats urlretrieve day =
    if date_ltb day (datetime_date 2001 5 1) then
      ([Create_empty (tmpdir ++ "/apnic-empty")],
       Fetched (tmpdir ++ "/apnic-empty"))
    else
      let asked := replace_missing "APNIC" apnic_missing_dateranges day in
      let dir :=
        adjust_year "APNIC" apnic_exception_dates (fst asked)
          (date_year (fst asked)) in
      let got :=
        download urlretrieve "APNIC"
          (ripe_base_url ++ "/" ++ apnic_sub ++ "/" ++ py_str (fst dir) ++ "/"
           ++ (if date_leb (fst asked) (datetime_date 2003 10 8)
               then "apnic-" ++ isoformat (fst asked) ++ ".gz"
               else "delegated-apnic-" ++ yyyymmdd (fst asked) ++ ".gz"))
          (tmpdir ++ "/apnic-" ++ yyyymmdd (fst asked) ++ ".gz") in
      (snd asked ++ snd dir ++ fst got, snd got).
Proof.
  unfold fetch_apnic_nrostats.
  destruct (date_ltb day (datetime_date 2001 5 1)); [reflexivity|].
  destruct (replace_missing "APNIC" apnic_missing_dateranges day)
    as [d' out1].
  cbv zeta. cbn [fst snd].
  destruct (adjust_year "APNIC" apnic_exception_dates d' (date_year d'))
    as [y out2].
  cbn [fst snd]. destruct (download _ _ _ _) as [out3 res]. reflexivity.
Qed.

Lemma fetch_lacnic_nrostats_eq (urlretrieve : string -> string -> bool)
    (day : date) :
  fetch_lacnic_nrostats urlretrieve day =
    if date_ltb day (datetime_date 2004 1 1) then
      ([Create_empty (tmpdir ++ "/lacnic-empty")],
       Fetched (tmpdir ++ "/lacnic-empty"))
    else
      let asked := replace_missing "LACNIC" lacnic_missing_dateranges day in
      let got :=
        download urlretrieve "LACNIC"
          (ripe_base_url ++ "/" ++ lacnic_sub ++ "/delegated-lacnic-"
           ++ yyyymmdd (fst asked))
          (tmpdir ++ "/lacnic-" ++ yyyymmdd (fst asked)) in
      (snd asked ++ fst got, snd got).
Proof.
  unfold fetch_lacnic_nrostats.
  destruct (date_ltb day (datetime_date 2004 1 1)); [reflexivity|].
  destruct (replace_missing "LACNIC" lacnic_missing_dateranges day)
    as [d' out1].
  cbv zeta. cbn [fst snd].
  destruct (download _ _ _ _) as [out3 res]. reflexivity.
Qed.

Lemma fetch_ripencc_nrostats_eq (urlretrieve : string -> string -> bool)
    (day : date) :
  fetch_ripencc_nrostats urlretrieve day =
    if date_ltb day (datetime_date 2003 11 26) then
      ([Create_empty (tmpdir ++ "/ripencc-empty")],
       Fetched (tmpdir ++ "/ripencc-empty"))
    else
      let year :=
        if date_eqb day (datetime_date 2004 1 1) then 2003
        else date_year day in
      let got :=
        download urlretrieve "RIPE"
          (ripe_base_url ++ "/" ++ ripencc_sub ++ "/" ++ py_str year
           ++ "/delegated-ripencc-" ++ yyyymmdd day ++ ".bz2")
          (tmpdir ++ "/ripencc-" ++ yyyymmdd day ++ ".bz2") in
      ((if date_eqb day (datetime_date 2004 1 1)
        then [print ("RIPE data for " ++ isoformat day ++ " lives in year "
                     ++ py_str 2003)]
        else []) ++ fst got, snd got).
Proof.
  unfold fetch_ripencc_nrostats.
  destruct (date_ltb day (datetime_date 2003 11 26)); [reflexivity|].
  destruct (date_eqb day (datetime_date 2004 1 1)); cbv zeta;
    destruct (download _ _ _ _) as [out3 res]; reflexivity.
Qed.

(** The request of a fetcher, if it makes one, and the file it returns. *)
Ltac fetch_cases H :=
  repeat match type of H with
    | In _ (_ ++ _) => apply in_app_or in H; destruct H as [H|H]
    | In _ (snd (replace_missing _ _ _)) =>
        apply replace_missing_prints in H; destruct H as [? H]; discriminate
    | In _ (snd (adjust_year _ _ _ _)) =>
        apply adjust_year_prints in H; destruct H as [? H]; discriminate
    | In _ (fst (download _ _ _ _)) =>
        apply download_request in H; destruct H as [-> ->]
    | snd (download _ _ _ _) = Fetched _ =>
        apply download_request in H; subst
    end.

Lemma valid_date_fields (day : date) :
  valid_date day = true ->
  0 <= date_year day /\ 0 <= date_month day /\ 0 <= date_day day.
Proof.
  unfold valid_date. rewrite !andb_true_iff, !Z.leb_le. lia.
Qed.

Lemma open_dated_file (a : string) (day : date) :
  0 <= date_year day /\ 0 <= date_month day /\ 0 <= date_day day ->
  open_nro_stats_file (a ++ yyyymmdd day) = Plain_open.
Proof.
  intros (Hy & Hm & Hd). apply open_nro_stats_file_digits.
  - apply yyyymmdd_digits; assumption.
  - pose proof (yyyymmdd_length day). lia.
Qed.

Lemma fetch_afrinic_opens (urlretrieve : string -> string -> bool)
    (day : date) (url path : string) :
  In (Urlretrieve url path) (fst (fetch_afrinic_nrostats urlretrieve day)) ->
  open_nro_stats_file url = open_nro_stats_file path.
Proof.
  rewrite fetch_afrinic_nrostats_eq.
  destruct (date_ltb day (datetime_date 2005 3 3)); cbv zeta; cbn [fst].
  { intros [H|[]]; discriminate. }
  intros H. fetch_cases H.
  pose proof (yyyymmdd_length
                (fst (replace_missing "AfriNIC" afrinic_missing_dateranges
                        day))).
  rewrite <- !string_app_assoc.
  rewrite !open_nro_stats_file_app by lia. reflexivity.
Qed.

Lemma fetch_arin_opens (urlretrieve : string -> string -> bool)
    (day : date) (url path : string) :
  In (Urlretrieve url path) (fst (fetch_arin_nrostats urlretrieve day)) ->
  open_nro_stats_file url = open_nro_stats_file path.
Proof.
  rewrite fetch_arin_nrostats_eq.
  destruct (date_ltb day (datetime_date 2003 11 20)); cbv zeta; cbn [fst].
  { intros [H|[]]; discriminate. }
  intros H. fetch_cases H.
  pose proof (yyyymmdd_length
                (fst (replace_missing "ARIN" arin_missing_dateranges day))).
  destruct (date_leb _ (datetime_date 2007 9 30)); cbn [add_postfix].
  - rewrite !open_nro_stats_file_gz. reflexivity.
  - rewrite <- !string_app_assoc.
    rewrite !open_nro_stats_file_app by lia. reflexivity.
Qed.

Lemma fetch_apnic_opens (urlretrieve : string -> string -> bool)
    (day : date) (url path : string) :
  In (Urlretrieve url path) (fst (fetch_apnic_nrostats urlretrieve day)) ->
  open_nro_stats_file url = open_nro_stats_file path.
Proof.
  rewrite fetch_apnic_nrostats_eq.
  destruct (date_ltb day (datetime_date 2001 5 1)); cbv zeta; cbn [fst].
  { intros [H|[]]; discriminate. }
  intros H. fetch_cases H.
  destruct (date_leb _ (datetime_date 2003 10 8));
    rewrite <- !string_app_assoc, !open_nro_stats_file_gz; reflexivity.
Qed.

Lemma fetch_lacnic_opens (urlretrieve : string -> string -> bool)
    (day : date) (url path : string) :
  In (Urlretrieve url path) (fst (fetch_lacnic_nrostats urlretrieve day)) ->
  open_nro_stats_file url = open_nro_stats_file path.
Proof.
  rewrite fetch_lacnic_nrostats_eq.
  destruct (date_ltb day (datetime_date 2004 1 1)); cbv zeta; cbn [fst].
  { intros [H|[]]; discriminate. }
  intros H. fetch_cases H.
  pose proof (yyyymmdd_length
                (fst (replace_missing "LACNIC" lacnic_missing_dateranges
                        day))).
  rewrite <- !string_app_assoc.
  rewrite !open_nro_stats_file_app by lia. reflexivity.
Qed.

Lemma fetch_ripencc_opens (urlretrieve : string -> string -> bool)
    (day : date) (url path : string) :
  In (Urlretrieve url path) (fst (fetch_ripencc_nrostats urlretrieve day)) ->
  open_nro_stats_file url = open_nro_stats_file path.
Proof.
  rewrite fetch_ripencc_nrostats_eq.
  destruct (date_ltb day (datetime_date 2003 11 26)); cbv zeta; cbn [fst].
  { intros [H|[]]; discriminate. }
  intros H. apply in_app_or in H. destruct H as [H|H].
  { destruct (date_eqb day (datetime_date 2004 1 1)); [|contradiction].
    destruct H as [H|[]]. discriminate. }
  fetch_cases H.
  rewrite <- !string_app_assoc, !open_nro_stats_file_bz2. reflexivity.
Qed.

(** X16.  Every fetcher gives the downloaded copy a name that is opened the
    way the name of the archive file asks: [open_nro_stats_file] picks the
    same way of opening (gzip, bzip2 or plain) for the address that is
    downloaded and for the temporary file it is stored in. *)
Theorem archive_and_copy_are_opened_alike :
  forall urlretrieve day fetch,
    In fetch [fetch_afrinic_nrostats; fetch_arin_nrostats;
              fetch_apnic_nrostats; fetch_lacnic_nrostats;
              fetch_ripencc_nrostats] ->
    forall url path,
      In (Urlretrieve url path) (fst (fetch urlretrieve day)) ->
      open_nro_stats_file url = open_nro_stats_file path.
Proof.
  intros u day fetch Hin url path. cbn [In] in Hin.
  destruct Hin as [<-|[<-|[<-|[<-|[<-|[]]]]]].
  - apply fetch_afrinic_opens.
  - apply fetch_arin_opens.
  - apply fetch_apnic_opens.
  - apply fetch_lacnic_opens.
  - apply fetch_ripencc_opens.
Qed.

Lemma arin_postfix_day (day : date) :
  date_leb (fst (replace_missing "ARIN" arin_missing_dateranges day))
    (datetime_date 2007 9 30)
  = date_leb day (datetime_date 2007 9 30).
Proof.
  unfold arin_missing_dateranges. cbn [replace_missing fst snd].
  destruct (date_leb (datetime_date 2019 8 25) day
            && date_leb day (datetime_date 2019 8 25)) eqn:E; [|reflexivity].
  apply andb_true_iff in E. destruct E as [E1 E2]. cbn [fst].
  symmetry. transitivity false; [date_order|reflexivity].
Qed.

(** X17.  How the file a fetcher returns is opened, for every day:
    the files of AfriNIC and LACNIC as plain text, the file of ARIN through
    gzip for the days from 2003-11-20 to 2007-09-30 and as plain text
    otherwise, the file of APNIC through gzip and the file of the RIPE NCC
    through bzip2, except that the empty file made for a day before the
    archive of the registry starts is opened as plain text. *)
Theorem fetched_files_are_opened_by_name :
  forall urlretrieve day,
    valid_date day = true ->
    (forall f, snd (fetch_afrinic_nrostats urlretrieve day) = Fetched f ->
               open_nro_stats_file f = Plain_open)
    /\ (forall f, snd (fetch_arin_nrostats urlretrieve day) = Fetched f ->
                  open_nro_stats_file f
                  = if date_leb (datetime_date 2003 11 20) day
                       && date_leb day (datetime_date 2007 9 30)
                    then Gzip_open else Plain_open)
    /\ (forall f, snd (fetch_apnic_nrostats urlretrieve day) = Fetched f ->
                  open_nro_stats_file f
                  = if date_ltb day (datetime_date 2001 5 1)
                    then Plain_open else Gzip_open)
    /\ (forall f, snd (fetch_lacnic_nrostats urlretrieve day) = Fetched f ->
                  open_nro_stats_file f = Plain_open)
    /\ (forall f, snd (fetch_ripencc_nrostats urlretrieve day) = Fetched f ->
                  open_nro_stats_file f
                  = if date_ltb day (datetime_date 2003 11 26)
                    then Plain_open else BZ2File).
Proof.
  intros u day Hv. apply valid_date_fields in Hv.
  split; [|split; [|split; [|split]]]; intros f H.
  - rewrite fetch_afrinic_nrostats_eq in H.
    destruct (date_ltb day (datetime_date 2005 3 3)); cbv zeta in H;
      cbn [snd] in H.
    { injection H as <-. reflexivity. }
    fetch_cases H. rewrite <- string_app_assoc. apply open_dated_file.
    apply replace_missing_keeps; [|exact Hv].
    repeat constructor; cbn; lia.
  - rewrite fetch_arin_nrostats_eq in H.
    destruct (date_ltb day (datetime_date 2003 11 20)) eqn:Hs; cbv zeta in H;
      cbn [snd] in H.
    { injection H as <-.
      replace (date_leb (datetime_date 2003 11 20) day) with false
        by (symmetry; date_order).
      reflexivity. }
    fetch_cases H. rewrite arin_postfix_day.
    replace (date_leb (datetime_date 2003 11 20) day) with true
      by (symmetry; date_order).
    cbn [andb].
    destruct (date_leb day (datetime_date 2007 9 30)); cbn [add_postfix].
    + apply open_nro_stats_file_gz.
    + rewrite <- string_app_assoc. apply open_dated_file.
      apply replace_missing_keeps; [|exact Hv].
      repeat constructor; cbn; lia.
  - rewrite fetch_apnic_nrostats_eq in H.
    destruct (date_ltb day (datetime_date 2001 5 1)); cbv zeta in H;
      cbn [snd] in H.
    { injection H as <-. reflexivity. }
    fetch_cases H. rewrite <- !string_app_assoc.
    apply open_nro_stats_file_gz.
  - rewrite fetch_lacnic_nrostats_eq in H.
    destruct (date_ltb day (datetime_date 2004 1 1)); cbv zeta in H;
      cbn [snd] in H.
    { injection H as <-. reflexivity. }
    fetch_cases H. rewrite <- string_app_assoc. apply open_dated_file.
    apply replace_missing_keeps; [|exact Hv].
    repeat constructor; cbn; lia.
  - rewrite fetch_ripencc_nrostats_eq in H.
    destruct (date_ltb day (datetime_date 2003 11 26)); cbv zeta in H;
      cbn [snd] in H.
    { injection H as <-. reflexivity. }
    fetch_cases H. rewrite <- !string_app_assoc.
    apply open_nro_stats_file_bz2.
Qed.

(** The name of the file a fetcher returns starts with the name of its
    registry. *)
Lemma fetch_afrinic_returns (urlretrieve : string -> string -> bool)
    (day : date) (f : string) :
  snd (fetch_afrinic_nrostats urlretrieve day) = Fetched f ->
  exists rest, f = ("/tmp/afrinic-" ++ rest)%string.
Proof.
  rewrite fetch_afrinic_nrostats_eq.
  destruct (date_ltb day (datetime_date 2005 3 3)); cbv zeta; cbn [snd];
    intros H.
  - injection H as <-. exists "empty"%string. reflexivity.
  - fetch_cases H. eexists. cbv [tmpdir]. cbn [String.append]. reflexivity.
Qed.

Lemma fetch_arin_returns (urlretrieve : string -> string -> bool)
    (day : date) (f : string) :
  snd (fetch_arin_nrostats urlretrieve day) = Fetched f ->
  exists rest, f = ("/tmp/arin-" ++ rest)%string.
Proof.
  rewrite fetch_arin_nrostats_eq.
  destruct (date_ltb day (datetime_date 2003 11 20)); cbv zeta; cbn [snd];
    intros H.
  - injection H as <-. exists "empty"%string. reflexivity.
  - fetch_cases H.
    destruct (date_leb _ (datetime_date 2007 9 30)); cbn [add_postfix];
      eexists; cbv [tmpdir]; cbn [String.append]; reflexivity.
Qed.

Lemma fetch_apnic_returns (urlretrieve : string -> string -> bool)
    (day : date) (f : string) :
  snd (fetch_apnic_nrostats urlretrieve day) = Fetched f ->
  exists rest, f = ("/tmp/apnic-" ++ rest)%string.
Proof.
  rewrite fetch_apnic_nrostats_eq.
  destruct (date_ltb day (datetime_date 2001 5 1)); cbv zeta; cbn [snd];
    intros H.
  - injection H as <-. exists "empty"%string. reflexivity.
  - fetch_cases H. eexists. cbv [tmpdir]. cbn [String.append]. reflexivity.
Qed.

Lemma fetch_lacnic_returns (urlretrieve : string -> string -> bool)
    (day : date) (f : string) :
  snd (fetch_lacnic_nrostats urlretrieve day) = Fetched f ->
  exists rest, f = ("/tmp/lacnic-" ++ rest)%string.
Proof.
  rewrite fetch_lacnic_nrostats_eq.
  destruct (date_ltb day (datetime_date 2004 1 1)); cbv zeta; cbn [snd];
    intros H.
  - injection H as <-. exists "empty"%string. reflexivity.
  - fetch_cases H. eexists. cbv [tmpdir]. cbn [String.append]. reflexivity.
Qed.

Lemma fetch_ripencc_returns (urlretrieve : string -> string -> bool)
    (day : date) (f : string) :
  snd (fetch_ripencc_nrostats urlretrieve day) = Fetched f ->
  exists rest, f = ("/tmp/ripencc-" ++ rest)%string.
Proof.
  rewrite fetch_ripencc_nrostats_eq.
  destruct (date_ltb day (datetime_date 2003 11 26)); cbv zeta; cbn [snd];
    intros H.
  - injection H as <-. exists "empty"%string. reflexivity.
  - fetch_cases H. eexists. cbv [tmpdir]. cbn [String.append]. reflexivity.
Qed.

(** X18.  The five files [main] fetches for a day have five different
    names, whichever of them are downloads and whichever are empty files:
    no fetcher overwrites the file of another, and each file is there to be
    removed when [main] unlinks the five at its end. *)
Theorem fetched_files_are_distinct :
  forall urlretrieve day afrinic_file arin_file apnic_file lacnic_file
         ripencc_file,
    snd (fetch_afrinic_nrostats urlretrieve day) = Fetched afrinic_file ->
    snd (fetch_arin_nrostats urlretrieve day) = Fetched arin_file ->
    snd (fetch_apnic_nrostats urlretrieve day) = Fetched apnic_file ->
    snd (fetch_lacnic_nrostats urlretrieve day) = Fetched lacnic_file ->
    snd (fetch_ripencc_nrostats urlretrieve day) = Fetched ripencc_file ->
    NoDup [afrinic_file; arin_file; apnic_file; lacnic_file; ripencc_file].
Proof.
  intros u day fa fr fp fl fn Ha Hr Hp Hl Hn.
  apply fetch_afrinic_returns in Ha. destruct Ha as [ra ->].
  apply fetch_arin_returns in Hr. destruct Hr as [rr ->].
  apply fetch_apnic_returns in Hp. destruct Hp as [rp ->].
  apply fetch_lacnic_returns in Hl. destruct Hl as [rl ->].
  apply fetch_ripencc_returns in Hn. destruct Hn as [rn ->].
  cbn [String.append].
  repeat constructor; cbn [In]; intros H;
    repeat (destruct H as [H|H]; [discriminate H|]); exact H.
Qed.

End Fetchers.

(** * Examples of the further properties *)

(** A file whose only line has a count that is not a number, followed by the
    lines of another file. *)
Lemma parse_nro_stats_stops_at_failure_witness :
  let fd := ["ripencc|NL|ipv4|10.0.0.0|four|20200101|allocated"%string] in
  snd (parse_nro_stats (py := ref_pylib) 5 fd empty_tries) <> Returned
  /\ parse_nro_stats (py := ref_pylib) 5 (fd ++ example_arin_4) empty_tries
     = parse_nro_stats (py := ref_pylib) 5 fd empty_tries.
Proof.
  intros fd.
  assert (H : snd (parse_nro_stats (py := ref_pylib) 5 fd empty_tries)
              <> Returned) by (vm_compute; discriminate).
  split; [exact H|].
  exact (parse_nro_stats_stops_at_failure (py := ref_pylib) 5 fd
           example_arin_4 empty_tries H).
Defined.

(** A record of no address at all. *)
Lemma ipv4_line_without_addresses_witness :
  let line := "ripencc|NL|ipv4|10.0.0.0|0|20200101|allocated"%string in
  let rec := {| registry := "ripencc"; country_code := "NL";
                protocol := "ipv4"; block_start := "10.0.0.0";
                block_size := 0; modified_date := "20200101";
                status := "allocated" |} in
  line_record (py := ref_pylib) line = Some rec
  /\ protocol rec = "ipv4"%string
  /\ block_size rec <= 0
  /\ ip_address (PyLib := ref_pylib) (block_start rec)
     = Some (IPv4Address 167772160)
  /\ (1 <= 1)%nat
  /\ parse_line (py := ref_pylib) 1 empty_tries line
     = (empty_tries, [], Returned).
Proof.
  intros line rec.
  assert (H1 : line_record (py := ref_pylib) line = Some rec)
    by (vm_compute; reflexivity).
  assert (H2 : protocol rec = "ipv4"%string) by reflexivity.
  assert (H3 : block_size rec <= 0) by (cbn; lia).
  assert (H4 : ip_address (PyLib := ref_pylib) (block_start rec)
               = Some (IPv4Address 167772160)) by (vm_compute; reflexivity).
  assert (H5 : (1 <= 1)%nat) by lia.
  repeat (split; [assumption|]).
  exact (ipv4_line_without_addresses (py := ref_pylib) 1 empty_tries line rec
           (IPv4Address 167772160) H1 H2 H3 H4 H5).
Defined.

(** An IPv6 address where an IPv4 address is expected. *)
Lemma add_v4_block_with_ipv6_address_diverges_witness :
  ip_address (PyLib := ref_pylib) "2001:db8::"
  = Some (IPv6Address (536939960 * 2 ^ 96))
  /\ 0 < 1
  /\ add_v4_block_to_radix (py := ref_pylib) 1000 Leaf "2001:db8::" 1 []
     = (Leaf, [], OutOfFuel).
Proof.
  assert (H1 : ip_address (PyLib := ref_pylib) "2001:db8::"
               = Some (IPv6Address (536939960 * 2 ^ 96)))
    by (vm_compute; reflexivity).
  assert (H2 : 0 < 1) by lia.
  repeat (split; [assumption|]).
  exact (add_v4_block_with_ipv6_address_diverges (py := ref_pylib) 1000 Leaf
           "2001:db8::" (536939960 * 2 ^ 96) 1 [] H1 H2).
Defined.

(** The last 256 addresses of the address space. *)
Lemma add_v4_block_at_top_raises_witness :
  log_not_above (py := ref_pylib)
  /\ ip_address (PyLib := ref_pylib) "255.255.255.0"
     = Some (IPv4Address 4294967040)
  /\ 0 <= 4294967040 /\ 0 < 256 /\ 4294967040 + 256 = 2 ^ 32
  /\ (Z.to_nat 256 < 257)%nat
  /\ exists steps t' out,
       add_v4_block_to_radix (py := ref_pylib) 257 Leaf "255.255.255.0" 256 []
       = (t', out, Raised AddressValueError)
       /\ add_prefixes Leaf (map (step_call []) steps) = (t', out, Returned)
       /\ steps <> []
       /\ (forall x, 4294967040 <= x < 2 ^ 32 <->
                     exists s, In s steps /\ step_lo s <= x < step_hi s).
Proof.
  assert (Ha : ip_address (PyLib := ref_pylib) "255.255.255.0"
               = Some (IPv4Address 4294967040)) by (vm_compute; reflexivity).
  assert (H0 : 0 <= 4294967040) by lia.
  assert (H1 : 0 < 256) by lia.
  assert (H2 : 4294967040 + 256 = 2 ^ 32) by reflexivity.
  assert (H3 : (Z.to_nat 256 < 257)%nat) by (vm_compute; lia).
  repeat (split; [assumption || exact ref_log_not_above|]).
  exact (add_v4_block_at_top_raises (py := ref_pylib) ref_log_not_above
           257 Leaf "255.255.255.0" 4294967040 256 [] Ha H0 H1 H2 H3).
Defined.

(** Three addresses from [10.0.0.0]: two and one. *)
Lemma used_addrcounts_sum_to_count_witness :
  log_not_above (py := ref_pylib)
  /\ ip_address (PyLib := ref_pylib) "10.0.0.0" = Some (IPv4Address 167772160)
  /\ 0 <= 167772160 /\ 0 <= 3 /\ 167772160 + 3 <= 2 ^ 32
  /\ (Z.to_nat 3 < 5)%nat
  /\ exists steps t' out res,
       add_v4_block_to_radix (py := ref_pylib) 5 Leaf "10.0.0.0" 3 []
       = (t', out, res)
       /\ add_prefixes Leaf (map (step_call []) steps) = (t', out, Returned)
       /\ used_total steps = 3
       /\ Forall (fun s => step_used s = 2 ^ (32 - step_size s)
                           /\ 0 <= step_size s <= 32) steps
       /\ Permutation (entries t')
            (entries Leaf
             ++ map (fun s => (step_key s, [] ++ [PyInt (step_used s)]))
                  steps).
Proof.
  assert (Ha : ip_address (PyLib := ref_pylib) "10.0.0.0"
               = Some (IPv4Address 167772160)) by (vm_compute; reflexivity).
  assert (H0 : 0 <= 167772160) by lia.
  assert (H1 : 0 <= 3) by lia.
  assert (H2 : 167772160 + 3 <= 2 ^ 32) by lia.
  assert (H3 : (Z.to_nat 3 < 5)%nat) by (vm_compute; lia).
  repeat (split; [assumption || exact ref_log_not_above|]).
  exact (used_addrcounts_sum_to_count (py := ref_pylib) ref_log_not_above
           5 Leaf "10.0.0.0" 167772160 3 [] Ha H0 H1 H2 H3).
Defined.

(** A line of a file with Windows line endings. *)
Lemma crlf_line_keeps_carriage_return_witness :
  let c := "r"%char in
  let body := "ipencc|NL|ipv4|10.0.0.0|4|20200101|allocated"%string in
  c <> CR /\ c <> LF
  /\ strip LF (strip CR (String c body ++ CRLF))
     = (String c body ++ String CR EmptyString)%string.
Proof.
  intros c body.
  assert (H1 : c <> CR) by discriminate.
  assert (H2 : c <> LF) by discriminate.
  repeat (split; [assumption|]).
  exact (proj1 (crlf_line_keeps_carriage_return c body H1 H2)).
Defined.

(** The four addresses from [10.0.0.0] are [10.0.0.0/30]. *)
Lemma cidr_block_is_one_prefix_witness :
  ip_address (PyLib := ref_pylib) "10.0.0.0" = Some (IPv4Address 167772160)
  /\ 0 <= 2 <= 32 /\ int_log2 (PyLib := ref_pylib) (2 ^ 2) = 2
  /\ 0 <= 167772160 /\ 167772160 mod 2 ^ 2 = 0
  /\ 167772160 + 2 ^ 2 < 2 ^ 32 /\ (2 <= 2)%nat
  /\ add_v4_block_to_radix (py := ref_pylib) 2 Leaf "10.0.0.0" (2 ^ 2) []
     = add_prefix_to_radix Leaf (IPv4Address 167772160, 32 - 2)
         ([] ++ [PyInt (2 ^ 2)]).
Proof.
  assert (Ha : ip_address (PyLib := ref_pylib) "10.0.0.0"
               = Some (IPv4Address 167772160)) by (vm_compute; reflexivity).
  assert (H0 : 0 <= 2 <= 32) by lia.
  assert (H1 : int_log2 (PyLib := ref_pylib) (2 ^ 2) = 2) by reflexivity.
  assert (H2 : 0 <= 167772160) by lia.
  assert (H3 : 167772160 mod 2 ^ 2 = 0) by reflexivity.
  assert (H4 : 167772160 + 2 ^ 2 < 2 ^ 32) by (vm_compute; reflexivity).
  assert (H5 : (2 <= 2)%nat) by lia.
  repeat (split; [assumption|]).
  exact (proj1 (cidr_block_is_one_prefix (py := ref_pylib) 2 Leaf "10.0.0.0"
                  167772160 2 [] Ha H0 H1 H2 H3 H4 H5)).
Defined.

(** A run over two files. *)
Lemma every_record_is_written_witness :
  let files := [example_ripencc_3; example_arin_v6] in
  let rows4 := fst (fst (merge_files (py := ref_pylib) 6 files)) in
  let rows6 := snd (fst (merge_files (py := ref_pylib) 6 files)) in
  merge_files (py := ref_pylib) 6 files = ((rows4, rows6), Returned)
  /\ List.length rows4 = List.length (files_ops4 (py := ref_pylib) 6 files)
  /\ List.length rows6 = List.length (files_ops6 (py := ref_pylib) 6 files).
Proof.
  intros files rows4 rows6.
  assert (Hrun : merge_files (py := ref_pylib) 6 files
                 = ((rows4, rows6), Returned)) by (vm_compute; reflexivity).
  split; [exact Hrun|].
  exact (proj2 (proj2 (every_record_is_written (py := ref_pylib) 6 files
                         rows4 rows6 Hrun))).
Defined.

(** A count that is not a number in the second file, after a line that is
    parsed. *)
Lemma unreadable_record_aborts_the_run_witness :
  let line := "ripencc|NL|ipv4|10.0.0.4|four|20200101|allocated"%string in
  let st1 :=
    fst (fst (parse_files (py := ref_pylib) 5 [example_arin_4]
                empty_tries)) in
  let out1 :=
    snd (fst (parse_files (py := ref_pylib) 5 [example_arin_4]
                empty_tries)) in
  parse_files (py := ref_pylib) 5 [example_arin_4] empty_tries
  = (st1, out1, Returned)
  /\ snd (parse_nro_stats (py := ref_pylib) 5 example_ripencc_4 st1)
     = Returned
  /\ skipped (line_fields line) = false
  /\ merge_files (py := ref_pylib) 5
       ([example_arin_4]
        ++ (example_ripencc_4 ++ line :: example_ripencc_3)
        :: [example_arin_v6])
     = (([], []), Raised ValueError).
Proof.
  intros line st1 out1.
  assert (H0 : parse_files (py := ref_pylib) 5 [example_arin_4] empty_tries
               = (st1, out1, Returned)) by (vm_compute; reflexivity).
  assert (H1 : snd (parse_nro_stats (py := ref_pylib) 5 example_ripencc_4
                      st1) = Returned) by (vm_compute; reflexivity).
  assert (H2 : skipped (line_fields line) = false)
    by (vm_compute; reflexivity).
  assert (H3 : py_int (PyLib := ref_pylib) (field (line_fields line) 4)
               = None) by (vm_compute; reflexivity).
  repeat (split; [assumption|]).
  exact (unreadable_record_aborts_the_run (py := ref_pylib) 5
           [example_arin_4] example_ripencc_4 line example_ripencc_3
           [example_arin_v6] st1 out1 H0 H1 H2 (or_introl H3)).
Defined.

(** A day of the first range AfriNIC misses. *)
Lemma missing_days_are_replaced_witness :
  let table := afrinic_missing_dateranges in
  let day := datetime_date 2011 2 1 in
  In table [afrinic_missing_dateranges; arin_missing_dateranges;
            apnic_missing_dateranges; lacnic_missing_dateranges]
  /\ listed_missing table (fst (replace_missing "AfriNIC" table day)) = false
  /\ date_leb day (fst (replace_missing "AfriNIC" table day)) = true.
Proof.
  intros table day.
  assert (H : In table [afrinic_missing_dateranges; arin_missing_dateranges;
                        apnic_missing_dateranges; lacnic_missing_dateranges])
    by (left; reflexivity).
  split; [exact H|].
  pose proof (missing_days_are_replaced "AfriNIC" table day H) as R.
  exact (conj (proj1 R) (proj1 (proj2 R))).
Defined.

(** The file of ARIN for the first day of 2005, which is gzipped. *)
Lemma archive_and_copy_are_opened_alike_witness :
  let urlretrieve := fun _ _ : string => true in
  let day := datetime_date 2005 1 1 in
  let url :=
    "https://ftp.ripe.net/pub/stats/arin/archive/2005/delegated-arin-20050101.gz"%string in
  let path := "/tmp/arin-20050101.gz"%string in
  In fetch_arin_nrostats
     [fetch_afrinic_nrostats; fetch_arin_nrostats; fetch_apnic_nrostats;
      fetch_lacnic_nrostats; fetch_ripencc_nrostats]
  /\ In (Urlretrieve url path) (fst (fetch_arin_nrostats urlretrieve day))
  /\ open_nro_stats_file url = open_nro_stats_file path.
Proof.
  intros urlretrieve day url path.
  assert (H1 : In fetch_arin_nrostats
                 [fetch_afrinic_nrostats; fetch_arin_nrostats;
                  fetch_apnic_nrostats; fetch_lacnic_nrostats;
                  fetch_ripencc_nrostats]) by (right; left; reflexivity).
  assert (H2 : In (Urlretrieve url path)
                 (fst (fetch_arin_nrostats urlretrieve day)))
    by (vm_compute; right; left; reflexivity).
  repeat (split; [assumption|]).
  exact (archive_and_copy_are_opened_alike urlretrieve day
           fetch_arin_nrostats H1 url path H2).
Defined.

(** The files of the first day of 2005. *)
Lemma fetched_files_are_opened_by_name_witness :
  let urlretrieve := fun _ _ : string => true in
  let day := datetime_date 2005 1 1 in
  valid_date day = true
  /\ snd (fetch_arin_nrostats urlretrieve day)
     = Fetched "/tmp/arin-20050101.gz"
  /\ open_nro_stats_file "/tmp/arin-20050101.gz"
     = (if date_leb (datetime_date 2003 11 20) day
           && date_leb day (datetime_date 2007 9 30)
        then Gzip_open else Plain_open).
Proof.
  intros urlretrieve day.
  assert (H1 : valid_date day = true) by reflexivity.
  assert (H2 : snd (fetch_arin_nrostats urlretrieve day)
               = Fetched "/tmp/arin-20050101.gz")
    by (vm_compute; reflexivity).
  repeat (split; [assumption|]).
  exact (proj1 (proj2 (fetched_files_are_opened_by_name urlretrieve day H1))
           "/tmp/arin-20050101.gz"%string H2).
Defined.

Lemma fetched_files_are_distinct_witness :
  let urlretrieve := fun _ _ : string => true in
  let day := datetime_date 2005 1 1 in
  snd (fetch_afrinic_nrostats urlretrieve day) = Fetched "/tmp/afrinic-empty"
  /\ snd (fetch_arin_nrostats urlretrieve day)
     = Fetched "/tmp/arin-20050101.gz"
  /\ snd (fetch_apnic_nrostats urlretrieve day)
     = Fetched "/tmp/apnic-20050101.gz"
  /\ snd (fetch_lacnic_nrostats urlretrieve day)
     = Fetched "/tmp/lacnic-20050101"
  /\ snd (fetch_ripencc_nrostats urlretrieve day)
     = Fetched "/tmp/ripencc-20050101.bz2"
  /\ NoDup ["/tmp/afrinic-empty"; "/tmp/arin-20050101.gz";
            "/tmp/apnic-20050101.gz"; "/tmp/lacnic-20050101";
            "/tmp/ripencc-20050101.bz2"]%string.
Proof.
  intros urlretrieve day.
  assert (H1 : snd (fetch_afrinic_nrostats urlretrieve day)
               = Fetched "/tmp/afrinic-empty") by (vm_compute; reflexivity).
  assert (H2 : snd (fetch_arin_nrostats urlretrieve day)
               = Fetched "/tmp/arin-20050101.gz")
    by (vm_compute; reflexivity).
  assert (H3 : snd (fetch_apnic_nrostats urlretrieve day)
               = Fetched "/tmp/apnic-20050101.gz")
    by (vm_compute; reflexivity).
  assert (H4 : snd (fetch_lacnic_nrostats urlretrieve day)
               = Fetched "/tmp/lacnic-20050101") by (vm_compute; reflexivity).
  assert (H5 : snd (fetch_ripencc_nrostats urlretrieve day)
               = Fetched "/tmp/ripencc-20050101.bz2")
    by (vm_compute; reflexivity).
  repeat (split; [assumption|]).
  exact (fetched_files_are_distinct urlretrieve day _ _ _ _ _
           H1 H2 H3 H4 H5).
Defined.

(** A line of bytes that is not UTF-8: it has no bar, let alone seven
    fields, and it is not passed over. *)
Lemma undecodable_line_raises :
  let data := [Byte.x23; Byte.x20; Byte.xe9; Byte.x0a] in
  utf8_valid data = false
  /\ line_text (Bytes_line data) = None
  /\ count_char "|" (string_of_list_byte data) = 0%nat
  /\ parse_file_line (py := ref_pylib) 5 empty_tries (Bytes_line data)
     = (empty_tries, [], Raised UnicodeDecodeError).
Proof.
  repeat split; vm_compute; reflexivity.
Qed.

(** A line of bytes with an IPv6 delegation: it is decoded, accepted and
    ingested, and the IPv6 tree holds its tuple at [2001:db8::/32]. *)
Lemma parse_file_line_accepts_witness :
  let line :=
    ("arin|US|ipv6|2001:db8::|32|20200102|assigned"
     ++ String LF EmptyString)%string in
  let l := Bytes_line (list_byte_of_string line) in
  let fields := line_fields line in
  let a := IPv6Address (536939960 * 2 ^ 96) in
  let k := true :: prefix_bits 128 (536939960 * 2 ^ 96) 32 in
  line_text l = Some line
  /\ ((7 <= List.length fields)%nat
      /\ (field fields 2 = "ipv4"%string \/ field fields 2 = "ipv6"%string))
  /\ field fields 2 = "ipv6"%string
  /\ py_int (PyLib := ref_pylib) (field fields 4) = Some 32
  /\ ip_address (PyLib := ref_pylib) (field fields 3) = Some a
  /\ radix_key (a, 32) = Some k
  /\ snd (parse_file_line (py := ref_pylib) 6 empty_tries l) = Returned
  /\ v4radix (fst (fst (parse_file_line (py := ref_pylib) 6 empty_tries l)))
     = v4radix empty_tries
  /\ search_exact
       (v6radix (fst (fst (parse_file_line (py := ref_pylib) 6 empty_tries
                             l)))) k
     = Some {| info :=
                 Some (node_infos (search_exact (v6radix empty_tries) k)
                       ++ [line_info fields 32]) |}.
Proof.
  intros line l fields a k.
  assert (Hl : line_text l = Some line) by (vm_compute; reflexivity).
  assert (H6 : field fields 2 = "ipv6"%string) by (vm_compute; reflexivity).
  assert (Hacc : (7 <= List.length fields)%nat
                 /\ (field fields 2 = "ipv4"%string
                     \/ field fields 2 = "ipv6"%string)).
  { split; [vm_compute; lia|right; exact H6]. }
  assert (Hn : py_int (PyLib := ref_pylib) (field fields 4) = Some 32)
    by (vm_compute; reflexivity).
  assert (Ha : ip_address (PyLib := ref_pylib) (field fields 3) = Some a)
    by (vm_compute; reflexivity).
  assert (Hk : radix_key (a, 32) = Some k) by (vm_compute; reflexivity).
  repeat (split; [assumption|]).
  pose proof (parse_file_line_accepts (py := ref_pylib) 6 empty_tries l) as T.
  rewrite Hl in T.
  exact (proj2 (proj2 (proj2 (proj2 T))) Hacc H6 32 a k Hn Ha Hk).
Defined.
